(** * Team membership, invitations and tasks of the task-management app

    A shallow embedding of [tasks/models.py], of the task form of
    [tasks/forms.py] and of the team, invitation and task views of
    [tasks/views.py].

    The relational store is explicit: every table is a finite map from
    primary key to row, the many-to-many relation [Team.members] is the
    set of (team id, user id) pairs of its join table. Model methods are
    computations in a state-and-exception monad over the store; a raised
    exception keeps the writes made before it, as the ORM does outside a
    transaction block. *)

From stdpp Require Import gmap strings list fin_maps fin_sets.
From Stdlib Require Import ZArith Ascii String.

Open Scope string_scope.
Open Scope list_scope.
Open Scope Z_scope.

(** ** Rows and model instances *)

(** A model instance is a primary key together with the columns of its
    row; [==] on instances of one model compares primary keys. *)
Record Inst (R : Type) : Type := mkInst { pk : Z; row : R }.
Arguments mkInst {R} pk row.
Arguments pk {R} _.
Arguments row {R} _.

Record UserRow : Type := mkUser {
  username : string;
  first_name : string;
  last_name : string;
  email : string }.

Record TeamRow : Type := mkTeam {
  name : string;
  description : string;
  owner : Z;
  team_created_at : Z }.

Record InvitationRow : Type := mkInvitation {
  sender : Z;
  recipient : Z;
  inv_team : Z;
  message : string;
  inv_created_at : Z }.

Record TaskRow : Type := mkTask {
  title : string;
  task_description : string;
  due_date : Z;
  assigned_to : Z;
  task_team : Z;
  status : string;
  priority : Z;
  created_at : Z;
  updated_at : Z }.

Abbreviation User := (Inst UserRow).
Abbreviation Team := (Inst TeamRow).
Abbreviation Invitation := (Inst InvitationRow).
Abbreviation Task := (Inst TaskRow).

(** The store: one table per model and the join table of [Team.members]. *)
Record DB : Type := mkDB {
  users : gmap Z UserRow;
  teams : gmap Z TeamRow;
  members : gset (Z * Z);
  invitations : gmap Z InvitationRow;
  tasks : gmap Z TaskRow }.

Definition empty_db : DB := mkDB ∅ ∅ ∅ ∅ ∅.

Definition set_teams (f : gmap Z TeamRow → gmap Z TeamRow) (db : DB) : DB :=
  mkDB (users db) (f (teams db)) (members db) (invitations db) (tasks db).
Definition set_members (f : gset (Z * Z) → gset (Z * Z)) (db : DB) : DB :=
  mkDB (users db) (teams db) (f (members db)) (invitations db) (tasks db).
Definition set_invitations
    (f : gmap Z InvitationRow → gmap Z InvitationRow) (db : DB) : DB :=
  mkDB (users db) (teams db) (members db) (f (invitations db)) (tasks db).
Definition set_tasks (f : gmap Z TaskRow → gmap Z TaskRow) (db : DB) : DB :=
  mkDB (users db) (teams db) (members db) (invitations db) (f (tasks db)).

(** The key an auto-incrementing primary key column gives the next row. *)
Definition next_pk {R : Type} (tbl : gmap Z R) : Z :=
  1 + map_fold (λ k _ acc, Z.max k acc) 0 tbl.

(** ** Exceptions and the store monad *)

Inductive exn : Type :=
  | DoesNotExist
  | MultipleObjectsReturned
  | IntegrityError
  | AttributeError
  | Http404
  | PermissionDenied (msg : string)
  | ValidationError (msgs : list string)
  | ValueError.

Definition M (A : Type) : Type := DB → (exn + A) * DB.

#[export] Instance M_ret : MRet M := λ A x db, (inr x, db).
#[export] Instance M_bind : MBind M := λ A B f m db,
  match m db with
  | (inl e, db') => (inl e, db')
  | (inr x, db') => f x db'
  end.

Definition raise {A : Type} (e : exn) : M A := λ db, (inl e, db).
Definition query {A : Type} (f : DB → A) : M A := λ db, (inr (f db), db).
Definition update (f : DB → DB) : M unit := λ db, (inr tt, f db).

(** [for x in xs: body(x)] *)
Fixpoint for_each {A : Type} (xs : list A) (body : A → M unit) : M unit :=
  match xs with
  | [] => mret tt
  | x :: xs' => body x ≫= λ _, for_each xs' body
  end.

(** ** Arguments that are either a string or a [User] instance

    The username parameters of [Team] methods receive plain strings from
    some callers and [User] instances from others. A lookup
    [User.objects.get(username=arg)] turns an instance into [str(arg)],
    which is its username; reading [arg.id] works on an instance only. *)
Inductive PyArg : Type :=
  | PStr (s : string)
  | PUser (u : User).

Definition as_lookup_value (a : PyArg) : string :=
  match a with
  | PStr s => s
  | PUser u => username (row u)
  end.

Definition attr_id (a : PyArg) : M Z :=
  match a with
  | PStr _ => raise AttributeError
  | PUser u => mret (pk u)
  end.

(** [User.objects.get(username=arg)] *)
Definition User_objects_get (arg : PyArg) : M User := λ db,
  match map_to_list
          (filter (λ kv, username kv.2 = as_lookup_value arg) (users db)) with
  | [] => (inl DoesNotExist, db)
  | [(k, r)] => (inr (mkInst k r), db)
  | _ :: _ :: _ => (inl MultipleObjectsReturned, db)
  end.

(** [Team.objects.get(id=pk)] *)
Definition Team_objects_get (k : Z) : M Team := λ db,
  match teams db !! k with
  | Some r => (inr (mkInst k r), db)
  | None => (inl DoesNotExist, db)
  end.

(** [Invitation.objects.get(pk=pk)] *)
Definition Invitation_objects_get (k : Z) : M Invitation := λ db,
  match invitations db !! k with
  | Some r => (inr (mkInst k r), db)
  | None => (inl DoesNotExist, db)
  end.

(** ** [class Team] *)

(** [user in self.members.all()] *)
Definition is_member (db : DB) (team_pk user_pk : Z) : bool :=
  bool_decide ((team_pk, user_pk) ∈ members db).

(** The tasks [Task.objects.filter(assigned_to=a).filter(team=t)] selects. *)
Definition assigned_in_team (a t : Z) (kv : Z * TaskRow) : Prop :=
  assigned_to kv.2 = a ∧ task_team kv.2 = t.

#[export] Instance assigned_in_team_dec a t kv : Decision (assigned_in_team a t kv).
Proof. unfold assigned_in_team. apply _. Defined.

(** [Team.remove_task]: every task the double filter selects is deleted. *)
Definition remove_task (self : Team) (member : PyArg) : M unit :=
  a ← attr_id member;
  update (set_tasks (filter (λ kv, ¬ assigned_in_team a (pk self) kv))).

(** [Team.remove_member] *)
Definition remove_member (self : Team) (username : PyArg) : M bool :=
  user ← User_objects_get username;
  in_team ← query (λ db, is_member db (pk self) (pk user));
  if in_team : bool then
    if bool_decide (owner (row self) = pk user) then mret false
    else
      remove_task self username;;
      update (set_members (λ s, s ∖ {[ (pk self, pk user) ]}));;
      mret true
  else mret false.

(** [Team.delete()]: the foreign keys [Invitation.team] and [Task.team]
    are declared [on_delete=CASCADE], and the join rows of
    [Team.members] go with the team. *)
Definition Team_delete (self : Team) : M unit :=
  update (λ db,
    mkDB (users db)
         (delete (pk self) (teams db))
         (filter (λ p, p.1 ≠ pk self) (members db))
         (filter (λ kv, inv_team kv.2 ≠ pk self) (invitations db))
         (filter (λ kv, task_team kv.2 ≠ pk self) (tasks db))).

(** [self.owner == user]: false for anything that is not a model
    instance, a comparison of primary keys otherwise. *)
Definition owner_eq (self : Team) (user : PyArg) : bool :=
  match user with
  | PStr _ => false
  | PUser u => bool_decide (owner (row self) = pk u)
  end.

(** [Team.delete_team] *)
Definition delete_team (self : Team) (user : PyArg) : M bool :=
  if owner_eq self user then
    Team_delete self;;
    mret true
  else mret false.

(** An invitation for the pair ([unique_together = ['recipient', 'team']]). *)
Definition pending_for (r t : Z) (i : InvitationRow) : Prop :=
  recipient i = r ∧ inv_team i = t.

#[export] Instance pending_for_dec r t i : Decision (pending_for r t i).
Proof. unfold pending_for. apply _. Defined.

(** [Invitation.objects.create(...)]: the insert is refused with an
    [IntegrityError] when a row for the same recipient and team exists;
    [created_at] is [auto_now_add]. No validator and no [clean] runs. *)
Definition Invitation_objects_create (now : Z) (s r t : Z) (msg : string)
    : M Invitation := λ db,
  if decide (map_Exists (λ _, pending_for r t) (invitations db))
  then (inl IntegrityError, db)
  else
    let k := next_pk (invitations db) in
    let i := mkInvitation s r t msg now in
    (inr (mkInst k i), set_invitations (insert k i) db).

(** [Team.send_invitation] *)
Definition send_invitation (now : Z) (self : Team)
    (sender_username recipient_username : PyArg) (msg : option string)
    : M bool :=
  sender_user ← User_objects_get sender_username;
  recipient_user ← User_objects_get recipient_username;
  already ← query (λ db, is_member db (pk self) (pk recipient_user));
  if already : bool then mret false
  else
    Invitation_objects_create now (pk sender_user) (pk recipient_user)
      (pk self) (default "" msg);;
    mret true.

(** [team = cls(...); team.save()] for a new team. *)
Definition Team_insert (r : TeamRow) : M Team := λ db,
  let k := next_pk (teams db) in
  (inr (mkInst k r), set_teams (insert k r) db).

(** [self.members.add(user)] *)
Definition members_add (team_pk user_pk : Z) : M unit :=
  update (set_members (λ s, s ∪ {[ (team_pk, user_pk) ]})).

(** [Team.create_team]. The invitee list is [members]; [None] and the
    empty list both skip the loop. The owner joins after the loop. *)
Definition create_team (now : Z) (new_name new_description : string)
    (owner_user : User) (invitees : list PyArg) (msg : option string)
    : M Team :=
  team ← Team_insert (mkTeam new_name new_description (pk owner_user) now);
  for_each invitees (λ member,
    send_invitation now team (PUser owner_user) member msg;; mret tt);;
  members_add (pk team) (pk owner_user);;
  mret team.

(** [Team.edit_team]. Nothing compares [owner_username] with the owner
    of the team; the new name and description reach the store with the
    final [team.save()]. *)
Definition edit_team (now : Z) (k : Z) (owner_username : PyArg)
    (new_name new_description : string) (invitees : list PyArg)
    (msg : option string) (remove_members : list PyArg) : M Team :=
  owner_user ← User_objects_get owner_username;
  loaded ← Team_objects_get k;
  let team := mkInst (pk loaded)
                (mkTeam new_name new_description (owner (row loaded))
                   (team_created_at (row loaded))) in
  for_each invitees (λ member,
    send_invitation now team (PUser owner_user) member msg;; mret tt);;
  for_each remove_members (λ member,
    remove_member team member;; mret tt);;
  update (set_teams (insert (pk team) (row team)));;
  mret team.

(** ** [class Invitation] *)

Definition accept_denied : string :=
  "Only the recipient can accept this invitation.".
Definition decline_denied : string :=
  "Only the recipient can decline this invitation.".

(** [self.delete()] on an invitation; nothing references invitations. *)
Definition Invitation_delete (self : Invitation) : M unit :=
  update (set_invitations (delete (pk self))).

(** [Invitation.accept_invitation] *)
Definition accept_invitation (self : Invitation) (user : User) : M unit :=
  if bool_decide (pk user ≠ recipient (row self)) then
    raise (PermissionDenied accept_denied)
  else
    members_add (inv_team (row self)) (recipient (row self));;
    Invitation_delete self.

(** [Invitation.decline_invitation] *)
Definition decline_invitation (self : Invitation) (user : User) : M unit :=
  if bool_decide (pk user ≠ recipient (row self)) then
    raise (PermissionDenied decline_denied)
  else Invitation_delete self.

(** [self.sender], [self.recipient]: the related user is fetched by key. *)
Definition related_user (k : Z) : M User := λ db,
  match users db !! k with
  | Some r => (inr (mkInst k r), db)
  | None => (inl DoesNotExist, db)
  end.

(** [Invitation.clean]: run by [full_clean()] only, never by
    [objects.create] or [save]. *)
Definition Invitation_clean (self : Invitation) : M unit :=
  s ← related_user (sender (row self));
  team ← Team_objects_get (inv_team (row self));
  o ← related_user (owner (row team));
  if bool_decide (pk s ≠ pk o) then
    raise (ValidationError ["The sender must be the team owner."])
  else
    r ← related_user (recipient (row self));
    if bool_decide (username (row s) = username (row r)) then
      raise (ValidationError ["Sender and recipient cannot be the same user."])
    else
      inside ← query (λ db, is_member db (pk team) (pk r));
      if inside : bool then
        raise (ValidationError ["The recipient is already a part of this team."])
      else mret tt.

(** ** [class Task]

    Strings are sequences of code points below 256; the clock is the
    argument [now], read where the code calls [timezone.now()]. *)

Definition code (c : ascii) : N := N_of_ascii c.

(** [[a-zA-Z]] *)
Definition is_letter (c : ascii) : bool :=
  ((65 <=? code c)%N && (code c <=? 90)%N)
  || ((97 <=? code c)%N && (code c <=? 122)%N).

Definition is_newline (c : ascii) : bool := (code c =? 10)%N.

(** The characters [str.strip()] removes. *)
Definition is_space (c : ascii) : bool :=
  ((9 <=? code c)%N && (code c <=? 13)%N)
  || ((28 <=? code c)%N && (code c <=? 32)%N)
  || (code c =? 133)%N || (code c =? 160)%N.

Fixpoint existsb_string (p : ascii → bool) (s : string) : bool :=
  match s with
  | EmptyString => false
  | String c s' => p c || existsb_string p s'
  end.

Fixpoint lstrip (s : string) : string :=
  match s with
  | EmptyString => EmptyString
  | String c s' => if is_space c then lstrip s' else s
  end.

Fixpoint rstrip (s : string) : string :=
  match s with
  | EmptyString => EmptyString
  | String c s' =>
      match rstrip s' with
      | EmptyString => if is_space c then EmptyString else String c EmptyString
      | r => String c r
      end
  end.

Definition strip (s : string) : string := rstrip (lstrip s).

(** The part of a string before the newline [$] may stand in front of. *)
Fixpoint before_final_newline (s : string) : string :=
  match s with
  | EmptyString => EmptyString
  | String c EmptyString => if is_newline c then EmptyString else s
  | String c s' => String c (before_final_newline s')
  end.

(** [RegexValidator(regex=r'^.*[a-zA-Z].*$')]: [.] matches anything but a
    newline, [^] the start of the string, [$] its end or the place before
    a final newline. The search succeeds exactly when the string, without
    one final newline, is a single line that holds a letter. *)
Definition matches_letter_regex (s : string) : bool :=
  let line := before_final_newline s in
  negb (existsb_string is_newline line) && existsb_string is_letter line.

Definition Z_length (s : string) : Z := Z.of_nat (String.length s).

Definition NOT_STARTED : string := "Not Started".
Definition IN_PROGRESS : string := "In Progress".
Definition COMPLETE : string := "Complete".

(** [TaskStatus.choices] *)
Definition status_choices : list string := [NOT_STARTED; IN_PROGRESS; COMPLETE].

(** [Task.validate_due_date_not_in_past] *)
Definition validate_due_date_not_in_past (now value : Z) : list string :=
  if value <? now then ["Due date must be in the future."] else [].

(** The validators of [Task.title]: the regular expression, then the
    [max_length] of the column. *)
Definition title_validators (v : string) : list string :=
  (if matches_letter_regex v then []
   else ["Title must contain at least one letter."])
  ++ (if 50 <? Z_length v
      then ["Ensure this value has at most 50 characters."] else []).

(** [MinValueValidator(1)], [MaxValueValidator(5)] *)
Definition priority_validators (p : Z) : list string :=
  (if p <? 1 then ["Ensure this value is greater than or equal to 1."] else [])
  ++ (if 5 <? p then ["Ensure this value is less than or equal to 5."] else []).

(** [Task.clean]. [team] and [assigned_to_id] are [None] on an instance
    whose form field was rejected: reading [self.team] then raises, and
    [None] is in no list of ids. *)
Definition Task_clean (team : option Z) (assigned_to_id : option Z) : M unit :=
  match team with
  | None => raise DoesNotExist
  | Some t =>
      _ ← Team_objects_get t;
      ids ← query (λ db, λ a, bool_decide ((t, a) ∈ members db));
      match assigned_to_id with
      | Some a =>
          if ids a : bool then mret tt
          else raise (ValidationError
                        ["The assigned to user is not part of this team"])
      | None => raise (ValidationError
                         ["The assigned to user is not part of this team"])
      end
  end.

(** ** [CreateTaskForm] and [CreateTaskView] *)

(** The submitted fields of the task form, already parsed to their types. *)
Record TaskForm : Type := mkTaskForm {
  f_title : string;
  f_description : string;
  f_due_date : Z;
  f_assigned_to : Z;
  f_status : string;
  f_priority : Z;
  f_team : Z }.

Definition is_nul (c : ascii) : bool := (code c =? 0)%N.

(** A form [CharField] with [max_length]: the value is stripped, null
    characters are refused, an empty value is an error when the field is
    required. *)
Definition clean_char (required : bool) (max_length : Z) (raw : string)
    : list string + string :=
  let v := strip raw in
  if existsb_string is_nul v then inl ["Null characters are not allowed."]
  else if bool_decide (v = EmptyString) then
    if required then inl ["This field is required."] else inr v
  else if max_length <? Z_length v then
    inl ["Ensure this value has at most the allowed number of characters."]
  else inr v.

(** The queryset [CreateTaskForm.__init__] gives the [assigned_to]
    field: the members of team [pk], no user when that team is missing,
    every user when [pk] is falsy. *)
Definition assigned_to_queryset (db : DB) (k a : Z) : bool :=
  bool_decide (is_Some (users db !! a))
  && (if bool_decide (k = 0) then true
      else match teams db !! k with
           | Some _ => is_member db k a
           | None => false
           end).

Definition errors_of {A : Type} (x : list string + A) : list string :=
  match x with inl es => es | inr _ => [] end.

Definition value_of {A : Type} (x : list string + A) : option A :=
  match x with inl _ => None | inr v => Some v end.

(** [try: ... except ValidationError as e: errors of e] *)
Definition collect_validation (m : M unit) : M (list string) := λ db,
  match m db with
  | (inr tt, db') => (inr [], db')
  | (inl (ValidationError msgs), db') => (inr msgs, db')
  | (inl e, db') => (inl e, db')
  end.

(** [CreateTaskForm(request.POST, pk=pk).errors]: the fields are
    cleaned, then [CreateTaskForm.clean] runs, then the instance built
    from the accepted fields goes through the validators of the model
    and [Task.clean]. [is_valid()] holds when the list is empty. *)
Definition CreateTaskForm_errors (now k : Z) (f : TaskForm)
    : M (list string) :=
  db ← query id;
  let c_title := clean_char true 50 (f_title f) in
  let c_description := clean_char false 500 (f_description f) in
  let c_assigned_to : list string + Z :=
    if assigned_to_queryset db k (f_assigned_to f) then inr (f_assigned_to f)
    else inl ["Select a valid choice. That choice is not one of the available choices."] in
  let c_status : list string + string :=
    if bool_decide (f_status f ∈ status_choices) then inr (f_status f)
    else inl ["Select a valid choice."] in
  let c_team : list string + Z :=
    if bool_decide (is_Some (teams db !! f_team f)) then inr (f_team f)
    else inl ["Select a valid choice. That choice is not one of the available choices."] in
  let form_clean : list string :=
    match value_of c_team, value_of c_assigned_to with
    | Some t, Some a =>
        if is_member db t a then []
        else ["Assigned user must be a member of the selected team."]
    | _, _ => []
    end in
  let model_fields : list string :=
    match value_of c_title with Some v => title_validators v | None => [] end
    ++ validate_due_date_not_in_past now (f_due_date f)
    ++ priority_validators (f_priority f) in
  model_clean ← collect_validation
                  (Task_clean (value_of c_team) (value_of c_assigned_to));
  mret (errors_of c_title ++ errors_of c_description
        ++ errors_of c_assigned_to ++ errors_of c_status ++ errors_of c_team
        ++ form_clean ++ model_fields ++ model_clean).

(** [form.save(commit=False)] on a valid form: the row holds the cleaned
    data, the two character fields stripped. *)
Definition CreateTaskForm_save (now : Z) (f : TaskForm) : TaskRow :=
  mkTask (strip (f_title f)) (strip (f_description f)) (f_due_date f)
         (f_assigned_to f) (f_team f) (f_status f) (f_priority f) now now.

(** [task.save()] for a new task. *)
Definition Task_insert (r : TaskRow) : M Task := λ db,
  let k := next_pk (tasks db) in
  (inr (mkInst k r), set_tasks (insert k r) db).

Inductive Level : Type := SUCCESS | ERROR.

(** What a view answers: a redirect with the messages it added, or a
    page rendered with the errors of its form. *)
Inductive Response : Type :=
  | Redirect (target : string) (msgs : list (Level * string))
  | Render (template : string) (form_errors : list string).

Definition with_team (r : TaskRow) (k : Z) : TaskRow :=
  mkTask (title r) (task_description r) (due_date r) (assigned_to r) k
         (status r) (priority r) (created_at r) (updated_at r).

(** [CreateTaskView.post] *)
Definition CreateTaskView_post (now k : Z) (f : TaskForm) : M Response :=
  found ← query (λ db, teams db !! k);
  match found with
  | None => mret (Redirect "dashboard" [(ERROR, "The team does not exist.")])
  | Some _ =>
      errors ← CreateTaskForm_errors now k f;
      match errors with
      | [] =>
          Task_insert (with_team (CreateTaskForm_save now f) k);;
          mret (Redirect "team_detail" [])
      | _ :: _ => mret (Render "create_task.html" errors)
      end
  end.

(** [CreateTaskView.get]: the page with an unbound form, for members of
    the team only. *)
Definition CreateTaskView_get (user : User) (k : Z) : M Response :=
  found ← query (λ db, teams db !! k);
  match found with
  | None => mret (Redirect "dashboard" [(ERROR, "The team does not exist.")])
  | Some _ =>
      allowed ← query (λ db, is_member db k (pk user));
      if allowed : bool then mret (Render "create_task.html" [])
      else
        mret (Redirect "dashboard"
                [(ERROR, "You are not a member of this team.")])
  end.

(** ** Team and invitation views *)

(** [DetailView.get_object()]: a missing team is a 404. *)
Definition get_object_or_404 (k : Z) : M Team := λ db,
  match teams db !! k with
  | Some r => (inr (mkInst k r), db)
  | None => (inl Http404, db)
  end.

Definition owner_cannot_leave : string := "Owner cannot leave the team.".

(** [TeamDetailView.post]: [action] is [request.POST['action']] when the
    key is present. *)
Definition TeamDetailView_post (user : User) (k : Z) (action : option string)
    : M Response :=
  team ← get_object_or_404 k;
  if bool_decide (action = Some "leave_team") then
    left_team ← remove_member team (PUser user);
    if left_team : bool then
      mret (Redirect "dashboard" [(SUCCESS, "You have left the team.")])
    else
      mret (Redirect "team_detail" [(ERROR, owner_cannot_leave)])
  else mret (Redirect "team_detail" []).

(** The cleaned data of a valid [TeamForm]: [members] holds the users
    named in the invitation field, [remove_members] the ticked users. *)
Record TeamFormData : Type := mkTeamFormData {
  c_name : string;
  c_description : string;
  c_members : list User;
  c_message : string;
  c_remove_members : list User }.

(** [CreateTeamView.form_valid] *)
Definition CreateTeamView_form_valid (now : Z) (user : User)
    (data : TeamFormData) : M Response :=
  create_team now (c_name data) (c_description data) user
    (PUser <$> c_members data) (Some (c_message data));;
  mret (Redirect "dashboard" [(SUCCESS, "Team successfully created.")]).

(** [EditTeamView.form_valid]: the acting user's username is passed as
    [owner_username]. *)
Definition EditTeamView_form_valid (now : Z) (user : User) (k : Z)
    (data : TeamFormData) : M Response :=
  edit_team now k (PStr (username (row user))) (c_name data)
    (c_description data) (PUser <$> c_members data) (Some (c_message data))
    (PUser <$> c_remove_members data);;
  mret (Redirect "team_detail" [(SUCCESS, "Team updated!")]).

(** [EditTeamView.dispatch] followed by [EditTeamView.post]. The gate of
    [dispatch] asks for an existing team and for membership of the acting
    user. [form] is the outcome of validating the submitted [TeamForm]:
    its errors, or its cleaned data. *)
Definition EditTeamView_post (now : Z) (user : User) (k : Z)
    (action : option string) (form : list string + TeamFormData)
    : M Response :=
  found ← query (λ db, teams db !! k);
  match found with
  | None => mret (Redirect "dashboard" [(ERROR, "Team does not exist.")])
  | Some r =>
      let team := mkInst k r in
      allowed ← query (λ db, is_member db k (pk user));
      if allowed : bool then
        if bool_decide (action = Some "delete_team") then
          deleted ← delete_team team (PUser user);
          if deleted : bool then
            mret (Redirect "dashboard" [(SUCCESS, "Team deleted!")])
          else
            mret (Redirect "edit_team"
                    [(ERROR, "You do not have permissions to delete team.")])
        else
          match form with
          | inr data => EditTeamView_form_valid now user k data
          | inl errors => mret (Render "edit_team.html" errors)
          end
      else
        mret (Redirect "dashboard"
                [(ERROR, "You are not a member of this team.")])
  end.

(** ** The posted key of an invitation

    [request.POST[action]] is a string. [Invitation.objects.get(pk=...)]
    hands it to [int()], and a string [int()] refuses makes the lookup
    raise [ValueError]. *)

(** [[0-9]] *)
Definition is_digit (c : ascii) : bool :=
  (48 <=? code c)%N && (code c <=? 57)%N.

Definition digit_value (c : ascii) : Z := Z.of_N (code c) - 48.

(** The digits of a decimal literal, single underscores allowed between
    two digits: the value read so far, the number of digits, and whether
    the previous character was a digit. *)
Fixpoint read_digits (s : string) (acc count : Z) (after_digit : bool)
    : option (Z * Z) :=
  match s with
  | EmptyString => if after_digit then Some (acc, count) else None
  | String c s' =>
      if is_digit c then
        read_digits s' (10 * acc + digit_value c) (count + 1) true
      else if bool_decide (c = "_"%char) then
        if after_digit then read_digits s' acc count false else None
      else None
  end.

(** [int(s)] for a string: surrounding whitespace is dropped, one sign
    may come first, and a literal of more than 4300 digits is refused.
    [None] stands for the [ValueError]. *)
Definition python_int (s : string) : option Z :=
  let body := strip s in
  let signed :=
    match body with
    | String c rest =>
        if bool_decide (c = "-"%char) then (true, rest)
        else if bool_decide (c = "+"%char) then (false, rest)
        else (false, body)
    | EmptyString => (false, body)
    end in
  match read_digits signed.2 0 0 false with
  | Some (v, digits) =>
      if 4300 <? digits then None
      else Some (if signed.1 : bool then - v else v)
  | None => None
  end.

(** What the posted form asks for: the value posted under
    [accept_invitation] or under [decline_invitation], or neither key. *)
Inductive InvitationAction : Type :=
  | AcceptInvitation (invitation_id : string)
  | DeclineInvitation (invitation_id : string)
  | NoAction.

(** [try: ... except PermissionDenied as e: messages.error(str(e))] *)
Definition on_permission_denied (m : M (list (Level * string)))
    : M (list (Level * string)) := λ db,
  match m db with
  | (inl (PermissionDenied msg), db') => (inr [(ERROR, msg)], db')
  | other => other
  end.

(** [Invitation.objects.get(pk=invitation_id)] on the posted string,
    inside [try: ... except Invitation.DoesNotExist]: [None] when no
    invitation has the key, [ValueError] when the string is no integer. *)
Definition Invitation_objects_get_posted (invitation_id : string)
    : M (option Invitation) :=
  match python_int invitation_id with
  | None => raise ValueError
  | Some k => query (λ db, mkInst k <$> invitations db !! k)
  end.

(** [InvitationListView.post] with [_handle_invitation_action] *)
Definition InvitationListView_post (user : User) (action : InvitationAction)
    : M Response :=
  let handle (invitation_id : string) (run : Invitation → M unit)
      (ok : string) :=
    found ← Invitation_objects_get_posted invitation_id;
    match found with
    | None => mret [(ERROR, "Invitation does not exist")]
    | Some invitation =>
        on_permission_denied (run invitation;; mret [(SUCCESS, ok)])
    end in
  msgs ← match action with
         | AcceptInvitation invitation_id =>
             handle invitation_id (λ i, accept_invitation i user)
               "Invitation accepted successfully."
         | DeclineInvitation invitation_id =>
             handle invitation_id (λ i, decline_invitation i user)
               "Invitation declined successfully."
         | NoAction => mret [(ERROR, "Invalid Action")]
         end;
  mret (Redirect "view_invitation" msgs).

(** ** A small store used by the examples

    Four users; team 1 is owned by user 1, who is its only member. *)
Module Sample.

Definition johndoe : User :=
  mkInst 1 (mkUser "@johndoe" "John" "Doe" "johndoe@example.org").
Definition janedoe : User :=
  mkInst 2 (mkUser "@janedoe" "Jane" "Doe" "janedoe@example.org").
Definition petra : User :=
  mkInst 3 (mkUser "@petrapickles" "Petra" "Pickles" "petra@example.org").
Definition peter : User :=
  mkInst 4 (mkUser "@peterpickles" "Peter" "Pickles" "peter@example.org").

Definition test_team : Team :=
  mkInst 1 (mkTeam "Test Team" "Example description." 1 0).

Definition all_users : gmap Z UserRow :=
  <[4 := row peter]> (<[3 := row petra]>
    (<[2 := row janedoe]> (<[1 := row johndoe]> ∅))).

(** The users and nothing else. *)
Definition users_only : DB := mkDB all_users ∅ ∅ ∅ ∅.

Definition db0 : DB :=
  mkDB all_users (<[1 := row test_team]> ∅) {[ (1, 1) ]} ∅ ∅.

(** [db0] after user 2 has joined team 1. *)
Definition db1 : DB := set_members (λ s, s ∪ {[ (1, 2) ]}) db0.

(** [db1] with one task for each member of team 1. *)
Definition db2 : DB :=
  set_tasks (λ _,
    <[2 := mkTask "Review notes" "" 500 1 1 "Not Started" 1 10 10]>
      (<[1 := mkTask "Write report" "" 500 2 1 "Not Started" 2 10 10]> ∅))
    db1.

(** [db1] after user 3 has joined team 1 as well. *)
Definition db3 : DB := set_members (λ s, s ∪ {[ (1, 3) ]}) db1.

End Sample.

(** * [TeamForm] *)

(** [s.split(',')] *)
Fixpoint split_commas (s : string) : list string :=
  match s with
  | EmptyString => [EmptyString]
  | String c s' =>
      if bool_decide (c = ","%char) then EmptyString :: split_commas s'
      else match split_commas s' with
           | [] => [String c EmptyString]
           | part :: parts => String c part :: parts
           end
  end.

(** [[name.strip() for name in members_input.split(',') if name.strip()]] *)
Definition member_names (members_input : string) : list string :=
  filter (λ n, n ≠ EmptyString) (strip <$> split_commas members_input).

(** [str.isalpha()] on one character. *)
Definition is_alpha (c : ascii) : bool :=
  is_letter c
  || (code c =? 170)%N || (code c =? 181)%N || (code c =? 186)%N
  || ((192 <=? code c)%N && (code c <=? 214)%N)
  || ((216 <=? code c)%N && (code c <=? 246)%N)
  || ((248 <=? code c)%N && (code c <=? 255)%N).

(** [TeamForm.clean_name] *)
Definition clean_name (cleaned_name : string) : exn + string :=
  let name := strip cleaned_name in
  if existsb_string is_alpha name then inr name
  else inl (ValidationError ["Team name must contain at least one letter."]).

Definition duplicate_entry (member : string) : string :=
  String.append "You have a duplicate entry for "
    (String.append member " in the team.").
Definition does_not_exist (member : string) : string :=
  String.append "Member " (String.append member " does not exist.").
Definition cannot_add_yourself : string :=
  "You cannot add yourself to the team.".
Definition already_a_member (member : string) : string :=
  String.append member " is already a member of the team.".
Definition already_pending (member : string) : string :=
  String.append "Invitation already pending for " (String.append member ".").

(** [TeamForm._is_duplicate] *)
Definition _is_duplicate (member : string) (seen_usernames : gset string) : bool :=
  bool_decide (member ∈ seen_usernames).

(** [Invitation.objects.filter(recipient=user, team=team).exists()] *)
Definition invitation_pending (db : DB) (user_pk team_pk : Z) : bool :=
  bool_decide (map_Exists (λ _, pending_for user_pk team_pk) (invitations db)).

(** [TeamForm._check_user_validity]. The two lists are the ones the
    caller passes in; the result is their state afterwards and whether
    reading [self.team.owner] raised [User.DoesNotExist], which happens
    after [members.append(user)]. *)
Definition _check_user_validity (db : DB) (form_owner : User)
    (form_team : option Team) (user : User) (member : string)
    (members : list User) (errors : list string)
    : bool * (list User * list string) :=
  if bool_decide (username (row user) = username (row form_owner)) then
    (false, (members, errors ++ [cannot_add_yourself]))
  else
    let members := members ++ [user] in
    match form_team with
    | None => (false, (members, errors))
    | Some team =>
        let pending :=
          if invitation_pending db (pk user) (pk team)
          then [already_pending member] else [] in
        if is_member db (pk team) (pk user) then
          match users db !! owner (row team) with
          | None => (true, (members, errors))
          | Some team_owner =>
              (false,
               (members,
                errors
                ++ (if bool_decide (username (row user) ≠ username team_owner)
                    then [already_a_member member] else [])
                ++ pending))
          end
        else (false, (members, errors ++ pending))
    end.

(** [TeamForm._validate_member]: [except User.DoesNotExist] also catches
    what [_check_user_validity] raises; any other exception of the
    lookup goes on to the caller. *)
Definition _validate_member (db : DB) (form_owner : User)
    (form_team : option Team) (member : string) (members : list User)
    (seen_usernames : gset string) (errors : list string)
    : exn + (list User * list string) :=
  if _is_duplicate member seen_usernames then
    inr (members, errors ++ [duplicate_entry member])
  else
    match (User_objects_get (PStr member) db).1 with
    | inr user =>
        match _check_user_validity db form_owner form_team user member
                members errors with
        | (false, lists) => inr lists
        | (true, (members, errors)) =>
            inr (members, errors ++ [does_not_exist member])
        end
    | inl DoesNotExist => inr (members, errors ++ [does_not_exist member])
    | inl e => inl e
    end.

(** The loop of [TeamForm.clean_members] over the names. *)
Fixpoint validate_members (db : DB) (form_owner : User)
    (form_team : option Team) (names : list string) (members : list User)
    (seen_usernames : gset string) (errors : list string)
    : exn + (list User * list string) :=
  match names with
  | [] => inr (members, errors)
  | member :: rest =>
      match _validate_member db form_owner form_team member members
              seen_usernames errors with
      | inl e => inl e
      | inr (members, errors) =>
          validate_members db form_owner form_team rest members
            ({[ member ]} ∪ seen_usernames) errors
      end
  end.

(** [TeamForm._raise_errors] *)
Definition _raise_errors (errors : list string) : exn + unit :=
  match errors with
  | [] => inr tt
  | _ :: _ => inl (ValidationError errors)
  end.

(** [TeamForm.clean_members]: [form_owner] is the acting user the view
    passes as [owner], [form_team] the team of an edit and [None] for a
    new team. The store is only read. *)
Definition clean_members (db : DB) (form_owner : User)
    (form_team : option Team) (members_input : string) : exn + list User :=
  match validate_members db form_owner form_team (member_names members_input)
          [] ∅ [] with
  | inl e => inl e
  | inr (members, errors) =>
      match _raise_errors errors with
      | inl e => inl e
      | inr _ => inr members
      end
  end.

(** What [_validate_member] requires of a name to add no error. *)
Definition member_accepted (db : DB) (form_owner : User)
    (form_team : option Team) (seen_usernames : gset string)
    (member : string) (user : User) : Prop :=
  (member ∉ seen_usernames)
  ∧ User_objects_get (PStr member) db = (inr user, db)
  ∧ username (row user) ≠ username (row form_owner)
  ∧ match form_team with
    | None => True
    | Some team =>
        invitation_pending db (pk user) (pk team) = false
        ∧ (is_member db (pk team) (pk user) = true →
           ∃ team_owner, users db !! owner (row team) = Some team_owner
                         ∧ username (row user) = username team_owner)
    end.

(** * [EditTaskForm] and [EditTaskView] *)

(** [EditTaskView.get_object]: [None] when the task is missing. *)
Definition EditTaskView_get_object (k : Z) : M (option Task) :=
  query (λ db, mkInst k <$> tasks db !! k).

(** The queryset [EditTaskForm.__init__] gives the [assigned_to] field:
    the members of team [pk], no user when that team is missing. *)
Definition edit_assigned_to_queryset (db : DB) (k a : Z) : bool :=
  bool_decide (is_Some (users db !! a))
  && match teams db !! k with
     | Some _ => is_member db k a
     | None => false
     end.

(** [EditTaskForm(request.POST, instance=task, pk=task.team.pk).errors].
    The form has no [clean] of its own. A field that was refused leaves
    the attribute of the instance as it was, so [Task.clean] then sees
    the stored team or assignee. *)
Definition EditTaskForm_errors (now : Z) (task : Task) (f : TaskForm)
    : M (list string) :=
  db ← query id;
  let c_title := clean_char true 50 (f_title f) in
  let c_description := clean_char false 500 (f_description f) in
  let c_assigned_to : list string + Z :=
    if edit_assigned_to_queryset db (task_team (row task)) (f_assigned_to f)
    then inr (f_assigned_to f)
    else inl ["Select a valid choice. That choice is not one of the available choices."] in
  let c_status : list string + string :=
    if bool_decide (f_status f ∈ status_choices) then inr (f_status f)
    else inl ["Select a valid choice."] in
  let c_team : list string + Z :=
    if bool_decide (is_Some (teams db !! f_team f)) then inr (f_team f)
    else inl ["Select a valid choice. That choice is not one of the available choices."] in
  let model_fields : list string :=
    match value_of c_title with Some v => title_validators v | None => [] end
    ++ validate_due_date_not_in_past now (f_due_date f)
    ++ priority_validators (f_priority f) in
  model_clean ← collect_validation
                  (Task_clean
                     (Some (default (task_team (row task)) (value_of c_team)))
                     (Some (default (assigned_to (row task))
                              (value_of c_assigned_to))));
  mret (errors_of c_title ++ errors_of c_description
        ++ errors_of c_assigned_to ++ errors_of c_status ++ errors_of c_team
        ++ model_fields ++ model_clean).

(** [EditTaskForm.save] on a valid form: the row of the task with the
    cleaned data; [created_at] stays, [updated_at] is [auto_now]. *)
Definition EditTaskForm_save (now : Z) (task : Task) (f : TaskForm) : TaskRow :=
  mkTask (strip (f_title f)) (strip (f_description f)) (f_due_date f)
         (f_assigned_to f) (f_team f) (f_status f) (f_priority f)
         (created_at (row task)) now.

(** [EditTaskView.dispatch] followed by [EditTaskView.post]; [delete]
    tells whether the key ["delete"] is in the posted data. *)
Definition EditTaskView_post (now : Z) (user : User) (k : Z) (delete : bool)
    (f : TaskForm) : M Response :=
  object ← EditTaskView_get_object k;
  match object with
  | None => mret (Redirect "dashboard" [(ERROR, "Task does not exist.")])
  | Some task =>
      team ← Team_objects_get (task_team (row task));
      allowed ← query (λ db, is_member db (pk team) (pk user));
      if allowed : bool then
        if delete then
          update (set_tasks (base.delete (pk task)));;
          mret (Redirect "dashboard"
                  [(SUCCESS, "Task deleted successfully.")])
        else
          errors ← EditTaskForm_errors now task f;
          match errors with
          | [] =>
              update (set_tasks
                        (insert (pk task) (EditTaskForm_save now task f)));;
              mret (Redirect "team_detail"
                      [(SUCCESS, "Task updated successfully.")])
          | _ :: _ => mret (Render "edit_task.html" errors)
          end
      else
        mret (Redirect "dashboard"
                [(ERROR, "You are not a member of this team.")])
  end.

(** * Requests and invariants *)

(** ** Requests

    The operations a caller can ask for. A method of a team or of an
    invitation runs on the instance loaded from the store by its key, as
    the views load it. *)
Inductive Request : Type :=
  | ReqCreateTeam (now : Z) (new_name new_description : string)
      (owner_user : User) (invitees : list PyArg) (msg : option string)
  | ReqEditTeam (now k : Z) (owner_username : PyArg)
      (new_name new_description : string) (invitees : list PyArg)
      (msg : option string) (remove_members : list PyArg)
  | ReqSendInvitation (now k : Z) (sender_username recipient_username : PyArg)
      (msg : option string)
  | ReqRemoveMember (k : Z) (who : PyArg)
  | ReqLeaveTeam (user : User) (k : Z)
  | ReqDeleteTeam (k : Z) (who : PyArg)
  | ReqAccept (invitation_id : Z) (user : User)
  | ReqDecline (invitation_id : Z) (user : User)
  | ReqCreateTask (now k : Z) (f : TaskForm).

Definition discard {A : Type} (m : M A) : M unit := m ≫= λ _, mret tt.

Definition perform (req : Request) : M unit :=
  match req with
  | ReqCreateTeam now n d o invitees msg =>
      discard (create_team now n d o invitees msg)
  | ReqEditTeam now k who n d invitees msg rm =>
      discard (edit_team now k who n d invitees msg rm)
  | ReqSendInvitation now k s r msg =>
      team ← Team_objects_get k;
      discard (send_invitation now team s r msg)
  | ReqRemoveMember k who =>
      team ← Team_objects_get k;
      discard (remove_member team who)
  | ReqLeaveTeam user k =>
      discard (TeamDetailView_post user k (Some "leave_team"))
  | ReqDeleteTeam k who =>
      team ← Team_objects_get k;
      discard (delete_team team who)
  | ReqAccept i user =>
      invitation ← Invitation_objects_get i;
      accept_invitation invitation user
  | ReqDecline i user =>
      invitation ← Invitation_objects_get i;
      decline_invitation invitation user
  | ReqCreateTask now k f =>
      discard (CreateTaskView_post now k f)
  end.

(** The store after a sequence of requests, each run on the store the
    previous one left, whether it returned or raised. *)
Fixpoint perform_all (reqs : list Request) (db : DB) : DB :=
  match reqs with
  | [] => db
  | req :: reqs' => perform_all reqs' (perform req db).2
  end.

(** [preserves P m]: whatever [m] does from a store in [P], a return or
    an exception, it leaves a store in [P]. *)
Definition preserves {A : Type} (P : DB → Prop) (m : M A) : Prop :=
  ∀ db, P db → P (m db).2.

(** At most one invitation is stored for a recipient and a team. *)
Definition one_invitation_per_pair (db : DB) : Prop :=
  ∀ k1 k2 i1 i2,
    invitations db !! k1 = Some i1 → invitations db !! k2 = Some i2 →
    recipient i1 = recipient i2 → inv_team i1 = inv_team i2 → k1 = k2.

(** The owner of every team is one of its members. *)
Definition owner_is_member (db : DB) : Prop :=
  ∀ k r, teams db !! k = Some r → (k, owner r) ∈ members db.

(** The team instance [self] was loaded from a row that is still stored
    under its key with the same owner. *)
Definition same_owner_stored (self : Team) (db : DB) : Prop :=
  ∃ r, teams db !! pk self = Some r ∧ owner r = owner (row self).

(** Teams and members are those of [db0]. *)
Definition same_teams_and_members (db0 db : DB) : Prop :=
  teams db = teams db0 ∧ members db = members db0.

(** A request for a new team is complete when [create_team] returns
    the team; every other request counts however it ends. *)
Definition creation_returns (req : Request) (db : DB) : Prop :=
  match req with
  | ReqCreateTeam now n d o invitees msg =>
      ∃ t db', create_team now n d o invitees msg db = (inr t, db')
  | _ => True
  end.

(** Every request for a new team in the sequence returns its team on the
    store it runs on. *)
Fixpoint creations_return (reqs : list Request) (db : DB) : Prop :=
  match reqs with
  | [] => True
  | req :: reqs' =>
      creation_returns req db ∧ creations_return reqs' (perform req db).2
  end.

#[export] Instance owner_is_member_dec (db : DB) : Decision (owner_is_member db).
Proof.
  change (Decision (map_Forall (λ k r, (k, owner r) ∈ members db) (teams db))).
  apply _.
Defined.

(** One day, in the microseconds timestamps count. *)
Definition one_day : Z := 86400 * 1000000.

(** The fields other than the due date are acceptable: the assignee is a
    stored user and a member of the team of the page and of the submitted
    team, the status is a choice, the stripped title is a non-empty line
    of at most 50 characters with a letter, the stripped description has
    at most 500 characters, the priority lies in 1..5. *)
Definition other_fields_valid (db : DB) (k : Z) (f : TaskForm) : Prop :=
  is_Some (users db !! f_assigned_to f)
  ∧ (k, f_assigned_to f) ∈ members db
  ∧ (f_team f, f_assigned_to f) ∈ members db
  ∧ f_status f ∈ status_choices
  ∧ strip (f_title f) ≠ EmptyString
  ∧ existsb_string is_nul (strip (f_title f)) = false
  ∧ Z_length (strip (f_title f)) ≤ 50
  ∧ matches_letter_regex (strip (f_title f)) = true
  ∧ existsb_string is_nul (strip (f_description f)) = false
  ∧ Z_length (strip (f_description f)) ≤ 500
  ∧ 1 ≤ f_priority f ≤ 5.

(** ** Tasks and the membership of their assignee *)

(** Every stored task is assigned to a member of its team. *)
Definition assignee_is_member (db : DB) : Prop :=
  ∀ j r, tasks db !! j = Some r → (task_team r, assigned_to r) ∈ members db.

(** [User.username] is declared [unique=True]: no two stored users share
    a username. *)
Definition usernames_unique (db : DB) : Prop :=
  ∀ k1 r1, users db !! k1 = Some r1 →
  ∀ k2 r2, users db !! k2 = Some r2 →
  username r1 = username r2 → k1 = k2.

(** A [User] instance that is the stored row of its key. *)
Definition stored_user (db : DB) (u : User) : Prop :=
  users db !! pk u = Some (row u).

Definition stored_arg (db : DB) (a : PyArg) : Prop :=
  match a with
  | PStr _ => True
  | PUser u => stored_user db u
  end.

(** The requests, and those [EditTaskView] serves. *)
Inductive Action : Type :=
  | ActRequest (req : Request)
  | ActEditTask (now : Z) (user : User) (k : Z) (delete : bool) (f : TaskForm).

Definition act (a : Action) : M unit :=
  match a with
  | ActRequest req => perform req
  | ActEditTask now user k delete f =>
      discard (EditTaskView_post now user k delete f)
  end.

(** The store after a sequence of actions, each run on the store the
    previous one left, whether it returned or raised. *)
Fixpoint act_all (acts : list Action) (db : DB) : DB :=
  match acts with
  | [] => db
  | a :: acts' => act_all acts' (act a db).2
  end.

(** The [User] instances an action hands to [Team.remove_member] are
    stored users, as [request.user] and the choices of a form are. *)
Definition removes_stored (db : DB) (a : Action) : Prop :=
  match a with
  | ActRequest (ReqEditTeam _ _ _ _ _ _ _ remove_members) =>
      Forall (stored_arg db) remove_members
  | ActRequest (ReqRemoveMember _ who) => stored_arg db who
  | ActRequest (ReqLeaveTeam user _) => stored_user db user
  | _ => True
  end.

(** What the actions keep: the users of [db0], no team under the key 0,
    and every task assigned to a member of its team. *)
Definition assignee_invariant (db0 d : DB) : Prop :=
  users d = users db0 ∧ teams d !! 0 = None ∧ assignee_is_member d.

#[export] Instance assignee_is_member_dec (db : DB) :
  Decision (assignee_is_member db).
Proof.
  change (Decision (map_Forall
                      (λ _ r, (task_team r, assigned_to r) ∈ members db)
                      (tasks db))).
  apply _.
Defined.

#[export] Instance usernames_unique_dec (db : DB) :
  Decision (usernames_unique db).
Proof.
  change (Decision (map_Forall
                      (λ k1 r1, map_Forall
                                  (λ k2 r2, username r1 = username r2 → k1 = k2)
                                  (users db))
                      (users db))).
  apply _.
Defined.

(** ** References to teams *)

(** Every membership, invitation and task refers to a stored team. *)
Definition team_references_stored (db : DB) : Prop :=
  set_Forall (λ p, is_Some (teams db !! p.1)) (members db)
  ∧ map_Forall (λ _ i, is_Some (teams db !! inv_team i)) (invitations db)
  ∧ map_Forall (λ _ t, is_Some (teams db !! task_team t)) (tasks db).

#[export] Instance team_references_stored_dec (db : DB) :
  Decision (team_references_stored db).
Proof. unfold team_references_stored. apply _. Defined.

(** * Properties *)

(** ** The store monad *)

Lemma bind_inr {A B : Type} (m : M A) (f : A → M B) (db db' : DB) (x : A) :
  m db = (inr x, db') → (m ≫= f) db = f x db'.
Proof. intros H. unfold mbind, M_bind. by rewrite H. Qed.

Lemma bind_inl {A B : Type} (m : M A) (f : A → M B) (db db' : DB) (e : exn) :
  m db = (inl e, db') → (m ≫= f) db = (inl e, db').
Proof. intros H. unfold mbind, M_bind. by rewrite H. Qed.

Lemma bind_query {A B : Type} (g : DB → A) (f : A → M B) (db : DB) :
  (query g ≫= f) db = f (g db) db.
Proof. reflexivity. Qed.

Lemma bind_update {B : Type} (g : DB → DB) (f : unit → M B) (db : DB) :
  (update g ≫= f) db = f tt (g db).
Proof. reflexivity. Qed.

Lemma bind_ret {A B : Type} (x : A) (f : A → M B) (db : DB) :
  (mret x ≫= f) db = f x db.
Proof. reflexivity. Qed.

Lemma bind_cases {A B : Type} (m : M A) (f : A → M B) (db db' : DB)
    (r : exn + B) :
  (m ≫= f) db = (r, db') →
  (∃ e, m db = (inl e, db') ∧ r = inl e)
  ∨ (∃ x db1, m db = (inr x, db1) ∧ f x db1 = (r, db')).
Proof.
  unfold mbind, M_bind. destruct (m db) as [[e|x] db1].
  - intros [= <- <-]. left. by exists e.
  - intros H. right. by exists x, db1.
Qed.

(** ** Keys *)

Lemma next_pk_above {R : Type} (tbl : gmap Z R) (k : Z) (r : R) :
  tbl !! k = Some r → k < next_pk tbl.
Proof.
  unfold next_pk. revert k r.
  refine (map_fold_weak_ind
            (λ acc (m : gmap Z R), ∀ k r, m !! k = Some r → k < 1 + acc)
            (λ k _ acc, Z.max k acc) 0 _ _ tbl).
  - intros k r H. by rewrite lookup_empty in H.
  - intros i x m acc Hi IH k r H.
    destruct (decide (i = k)) as [->|Hne].
    + lia.
    + rewrite lookup_insert_ne in H by done. specialize (IH k r H). lia.
Qed.

Lemma next_pk_fresh {R : Type} (tbl : gmap Z R) : tbl !! next_pk tbl = None.
Proof.
  destruct (tbl !! next_pk tbl) as [r|] eqn:E; [|done].
  apply next_pk_above in E. lia.
Qed.

(** ** Looking users up *)

Lemma User_objects_get_db (a : PyArg) (db : DB) :
  (User_objects_get a db).2 = db.
Proof.
  unfold User_objects_get.
  destruct (map_to_list _) as [|[k r] [|? ?]]; reflexivity.
Qed.

Lemma User_objects_get_inr (a : PyArg) (db db' : DB) (u : User) :
  User_objects_get a db = (inr u, db') →
  db' = db ∧ users db !! pk u = Some (row u)
  ∧ username (row u) = as_lookup_value a.
Proof.
  unfold User_objects_get.
  destruct (map_to_list _) as [|[k r] [|? ?]] eqn:E; intros H; try discriminate.
  injection H as <- <-. split; [done|].
  assert (Hin : (k, r) ∈ map_to_list
            (filter (λ kv, username kv.2 = as_lookup_value a) (users db))).
  { rewrite E. apply list_elem_of_here. }
  apply elem_of_map_to_list in Hin.
  apply map_lookup_filter_Some in Hin as [Hk Hn]. done.
Qed.

Lemma User_objects_get_inl (a : PyArg) (db db' : DB) (e : exn) :
  User_objects_get a db = (inl e, db') → db' = db.
Proof.
  intros H. pose proof (User_objects_get_db a db) as Hdb.
  rewrite H in Hdb. done.
Qed.

(** ** Removing a member *)

Section RemoveMember.
Variable self : Team.
Variable db : DB.

(** A user who is not a member is left alone, whoever it is. *)
Lemma remove_member_not_member (arg : PyArg) (u : User) :
  User_objects_get arg db = (inr u, db) →
  (pk self, pk u) ∉ members db →
  remove_member self arg db = (inr false, db).
Proof.
  intros Hu Hm. unfold remove_member.
  rewrite (bind_inr _ _ _ _ _ Hu), bind_query.
  unfold is_member. by rewrite bool_decide_eq_false_2.
Qed.

(** The owner is never removed. *)
Lemma remove_member_owner (arg : PyArg) (u : User) :
  User_objects_get arg db = (inr u, db) →
  owner (row self) = pk u →
  remove_member self arg db = (inr false, db).
Proof.
  intros Hu Ho. unfold remove_member.
  rewrite (bind_inr _ _ _ _ _ Hu), bind_query.
  destruct (is_member db (pk self) (pk u)); [|done].
  by rewrite bool_decide_eq_true_2.
Qed.

Lemma remove_member_instance (u u' : User) :
  User_objects_get (PUser u) db = (inr u', db) →
  (pk self, pk u') ∈ members db →
  owner (row self) ≠ pk u' →
  remove_member self (PUser u) db
  = (inr true,
     set_members (λ s, s ∖ {[ (pk self, pk u') ]})
       (set_tasks (filter (λ kv, ¬ assigned_in_team (pk u) (pk self) kv)) db)).
Proof.
  intros Hu Hm Ho. unfold remove_member.
  rewrite (bind_inr _ _ _ _ _ Hu), bind_query.
  unfold is_member. rewrite bool_decide_eq_true_2 by done.
  rewrite bool_decide_eq_false_2 by done.
  reflexivity.
Qed.
End RemoveMember.

(** C6. [Team.remove_member], called with the [User] instance of a stored
    user, returns a boolean. It returns [False] exactly when that user
    owns the team or is not a member of it, and then changes nothing.
    When it returns [True], the tasks left are exactly the former tasks
    that are not both assigned to that user and in this team, the
    membership pairs left are exactly the former ones other than
    (team, user), and users, teams and invitations are untouched. *)
Theorem remove_member_exact (self : Team) (u : User) (db : DB) :
  User_objects_get (PUser u) db = (inr u, db) →
  ∃ (b : bool) (db' : DB),
    remove_member self (PUser u) db = (inr b, db')
    ∧ (b = false ↔ owner (row self) = pk u ∨ (pk self, pk u) ∉ members db)
    ∧ (b = false → db' = db)
    ∧ (b = true →
         (∀ k t, tasks db' !! k = Some t ↔
            tasks db !! k = Some t
            ∧ ¬ (assigned_to t = pk u ∧ task_team t = pk self))
         ∧ (∀ p, p ∈ members db' ↔ p ∈ members db ∧ p ≠ (pk self, pk u))
         ∧ users db' = users db ∧ teams db' = teams db
         ∧ invitations db' = invitations db).
Proof.
  intros Hu.
  destruct (decide (owner (row self) = pk u)) as [Ho|Ho].
  { exists false, db. rewrite (remove_member_owner _ _ _ _ Hu Ho).
    split_and!; [done|tauto|done|done]. }
  destruct (decide ((pk self, pk u) ∈ members db)) as [Hm|Hm].
  2:{ exists false, db. rewrite (remove_member_not_member _ _ _ _ Hu Hm).
      split_and!; [done|tauto|done|done]. }
  exists true. eexists.
  rewrite (remove_member_instance _ _ _ _ Hu Hm Ho).
  split_and!; [done| |done|].
  - split; [done|]. intros [?|?]; done.
  - intros _. simpl. split_and!; try done.
    + intros k t. rewrite map_lookup_filter_Some. unfold assigned_in_team.
      simpl. tauto.
    + intros p. set_solver.
Qed.

Lemma remove_member_exact_witness :
  User_objects_get (PUser Sample.janedoe) Sample.db1
  = (inr Sample.janedoe, Sample.db1)
  ∧ ∃ (b : bool) (db' : DB),
      remove_member Sample.test_team (PUser Sample.janedoe) Sample.db1
      = (inr b, db')
      ∧ (b = false ↔
           owner (row Sample.test_team) = pk Sample.janedoe
           ∨ (pk Sample.test_team, pk Sample.janedoe) ∉ members Sample.db1)
      ∧ (b = false → db' = Sample.db1)
      ∧ (b = true →
           (∀ k t, tasks db' !! k = Some t ↔
              tasks Sample.db1 !! k = Some t
              ∧ ¬ (assigned_to t = pk Sample.janedoe
                   ∧ task_team t = pk Sample.test_team))
           ∧ (∀ p, p ∈ members db' ↔
                p ∈ members Sample.db1
                ∧ p ≠ (pk Sample.test_team, pk Sample.janedoe))
           ∧ users db' = users Sample.db1 ∧ teams db' = teams Sample.db1
           ∧ invitations db' = invitations Sample.db1).
Proof.
  split; [reflexivity|].
  apply (remove_member_exact Sample.test_team Sample.janedoe Sample.db1).
  reflexivity.
Defined.

(** Removing user 2 from team 1 deletes the task of user 2 and keeps the
    task of user 1. *)
Example remove_member_cascade :
  ∃ db', remove_member Sample.test_team (PUser Sample.janedoe) Sample.db2
         = (inr true, db')
    ∧ tasks db' = {[ 2 := mkTask "Review notes" "" 500 1 1 "Not Started" 1 10 10 ]}
    ∧ members db' = {[ (1, 1) ]}.
Proof. eexists. split; [reflexivity|]. split; reflexivity. Qed.

(** C10. Called with a plain string that names a member who is not the
    owner, [Team.remove_member] raises [AttributeError] out of
    [remove_task], which reads [.id] off the string; it returns no
    boolean and the store stays as it was. *)
Theorem remove_member_string_raises
    (self : Team) (s : string) (u : User) (db : DB) :
  User_objects_get (PStr s) db = (inr u, db) →
  (pk self, pk u) ∈ members db →
  owner (row self) ≠ pk u →
  remove_member self (PStr s) db = (inl AttributeError, db).
Proof.
  intros Hu Hm Ho. unfold remove_member.
  rewrite (bind_inr _ _ _ _ _ Hu), bind_query.
  unfold is_member. rewrite bool_decide_eq_true_2 by done.
  rewrite bool_decide_eq_false_2 by done.
  reflexivity.
Qed.

Lemma remove_member_string_raises_witness :
  User_objects_get (PStr "@janedoe") Sample.db2 = (inr Sample.janedoe, Sample.db2)
  ∧ (pk Sample.test_team, pk Sample.janedoe) ∈ members Sample.db2
  ∧ owner (row Sample.test_team) ≠ pk Sample.janedoe
  ∧ remove_member Sample.test_team (PStr "@janedoe") Sample.db2
    = (inl AttributeError, Sample.db2).
Proof.
  assert (H1 : User_objects_get (PStr "@janedoe") Sample.db2
               = (inr Sample.janedoe, Sample.db2)) by reflexivity.
  assert (H2 : (pk Sample.test_team, pk Sample.janedoe) ∈ members Sample.db2)
    by (vm_compute; reflexivity).
  assert (H3 : owner (row Sample.test_team) ≠ pk Sample.janedoe)
    by (simpl; lia).
  split; [exact H1|]. split; [exact H2|]. split; [exact H3|].
  exact (remove_member_string_raises Sample.test_team "@janedoe"
           Sample.janedoe Sample.db2 H1 H2 H3).
Defined.

(** ** Deleting a team *)

(** C9. [Team.delete_team] returns a boolean. It returns [True] exactly
    when the requester is a user instance whose key is the owner of the
    team; otherwise the store is unchanged. After [True] the team is
    gone, the tasks, invitations and membership pairs left are exactly
    the former ones of other teams, every other team is as before and no
    user is touched. *)
Theorem delete_team_frame (self : Team) (user : PyArg) (db : DB) :
  ∃ (b : bool) (db' : DB),
    delete_team self user db = (inr b, db')
    ∧ (b = true ↔ ∃ u, user = PUser u ∧ owner (row self) = pk u)
    ∧ (b = false → db' = db)
    ∧ (b = true →
         teams db' !! pk self = None
         ∧ (∀ k, k ≠ pk self → teams db' !! k = teams db !! k)
         ∧ (∀ k t, tasks db' !! k = Some t ↔
              tasks db !! k = Some t ∧ task_team t ≠ pk self)
         ∧ (∀ k i, invitations db' !! k = Some i ↔
              invitations db !! k = Some i ∧ inv_team i ≠ pk self)
         ∧ (∀ t u, (t, u) ∈ members db' ↔
              (t, u) ∈ members db ∧ t ≠ pk self)
         ∧ users db' = users db).
Proof.
  unfold delete_team.
  destruct (owner_eq self user) eqn:E.
  - exists true. eexists. split; [reflexivity|].
    split_and!; [|done|].
    + split; [intros _|done].
      destruct user as [s|u]; [discriminate E|].
      exists u. split; [done|]. simpl in E. by apply bool_decide_eq_true in E.
    + intros _. simpl. split_and!.
      * apply lookup_delete_eq.
      * intros k Hk. by apply lookup_delete_ne.
      * intros k t. by rewrite map_lookup_filter_Some.
      * intros k i. by rewrite map_lookup_filter_Some.
      * intros t u. by rewrite elem_of_filter; simpl; tauto.
      * done.
  - exists false, db. split; [reflexivity|].
    split_and!; [|done|done].
    split; [done|]. intros (u & -> & Ho). simpl in E.
    by rewrite bool_decide_eq_true_2 in E.
Qed.

(** ** Accepting and declining an invitation *)

(** C4. [Invitation.accept_invitation] has two outcomes. For an acting
    user other than the recipient it raises [PermissionDenied] and the
    store, members and invitations included, is unchanged. For the
    recipient it returns, the recipient is a member of the team, the
    invitation is gone, and nothing else differs: the members are the
    former ones and the recipient, the invitations the former ones
    without this one. No outcome has one effect without the other. *)
Theorem accept_invitation_outcomes (self : Invitation) (user : User) (db : DB) :
  ∃ (r : exn + unit) (db' : DB),
    accept_invitation self user db = (r, db')
    ∧ ((pk user ≠ recipient (row self)
        ∧ r = inl (PermissionDenied accept_denied) ∧ db' = db)
       ∨ (pk user = recipient (row self)
          ∧ r = inr tt
          ∧ (inv_team (row self), recipient (row self)) ∈ members db'
          ∧ invitations db' !! pk self = None
          ∧ members db'
            = members db ∪ {[ (inv_team (row self), recipient (row self)) ]}
          ∧ invitations db' = delete (pk self) (invitations db)
          ∧ users db' = users db ∧ teams db' = teams db
          ∧ tasks db' = tasks db)).
Proof.
  unfold accept_invitation.
  destruct (decide (pk user = recipient (row self))) as [He|Hne].
  - rewrite bool_decide_eq_false_2 by tauto.
    eexists _, _. split; [reflexivity|]. right. simpl.
    split_and!; try done.
    + set_solver.
    + apply lookup_delete_eq.
  - rewrite bool_decide_eq_true_2 by done.
    eexists _, _. split; [reflexivity|]. left. done.
Qed.

(** The view reports the refusal as an error message and keeps the store. *)
Lemma InvitationListView_accept_denied (user : User) (posted : string)
    (k : Z) (i : InvitationRow) (db : DB) :
  python_int posted = Some k →
  invitations db !! k = Some i →
  pk user ≠ recipient i →
  InvitationListView_post user (AcceptInvitation posted) db
  = (inr (Redirect "view_invitation" [(ERROR, accept_denied)]), db).
Proof.
  intros Hk Hi Hne.
  unfold InvitationListView_post, Invitation_objects_get_posted,
    on_permission_denied, accept_invitation, mbind, M_bind, query.
  rewrite Hk. simpl. rewrite Hi. simpl.
  by rewrite bool_decide_eq_true_2.
Qed.

Lemma decline_invitation_outcomes (self : Invitation) (user : User) (db : DB) :
  decline_invitation self user db
  = if bool_decide (pk user ≠ recipient (row self))
    then (inl (PermissionDenied decline_denied), db)
    else (inr tt, set_invitations (delete (pk self)) db).
Proof. unfold decline_invitation. by case_bool_decide. Qed.

(** ** Sending an invitation *)

(** What [Team.send_invitation] does once both usernames resolve: the
    only checks are the membership of the recipient and the uniqueness
    constraint of the table. *)
Lemma send_invitation_resolved (now : Z) (self : Team) (s r : PyArg)
    (msg : option string) (db : DB) (us ur : User) :
  User_objects_get s db = (inr us, db) →
  User_objects_get r db = (inr ur, db) →
  send_invitation now self s r msg db
  = if is_member db (pk self) (pk ur) then (inr false, db)
    else if decide (map_Exists (λ _, pending_for (pk ur) (pk self))
                      (invitations db))
    then (inl IntegrityError, db)
    else (inr true,
          set_invitations
            (insert (next_pk (invitations db))
               (mkInvitation (pk us) (pk ur) (pk self) (default "" msg) now))
            db).
Proof.
  intros Hs Hr. unfold send_invitation.
  rewrite (bind_inr _ _ _ _ _ Hs), (bind_inr _ _ _ _ _ Hr), bind_query.
  destruct (is_member db (pk self) (pk ur)); [done|].
  unfold mbind, M_bind, Invitation_objects_create.
  by destruct (decide _).
Qed.

(** An unknown recipient: [User.DoesNotExist], nothing stored. *)
Lemma send_invitation_unknown_recipient (now : Z) (self : Team) (s r : PyArg)
    (msg : option string) (db : DB) (us : User) :
  User_objects_get s db = (inr us, db) →
  User_objects_get r db = (inl DoesNotExist, db) →
  send_invitation now self s r msg db = (inl DoesNotExist, db).
Proof.
  intros Hs Hr. unfold send_invitation.
  by rewrite (bind_inr _ _ _ _ _ Hs), (bind_inl _ _ _ _ _ Hr).
Qed.

(** C1. [Team.send_invitation] compares the sender neither with the owner
    of the team nor with the recipient. On the sample store, where user 1
    owns team 1 and user 2 is a member, an invitation sent by user 2 to
    user 3 is stored and the call returns [True]; [Invitation.clean]
    rejects that very row. [EditTeamView] stores the same row when user 2
    submits the invitation through the team form. An invitation user 3
    sends to user 3 is stored as well. *)
Theorem send_invitation_skips_sender_checks :
  let by_non_owner := mkInvitation 2 3 1 "" 100 in
  let to_self := mkInvitation 3 3 1 "" 100 in
  let stored i := set_invitations (λ _, {[ 1 := i ]}) Sample.db1 in
  owner (row Sample.test_team) = 1
  ∧ send_invitation 100 Sample.test_team (PStr "@janedoe")
      (PStr "@petrapickles") None Sample.db1
    = (inr true, stored by_non_owner)
  ∧ (Invitation_clean (mkInst 1 by_non_owner) (stored by_non_owner)).1
    = inl (ValidationError ["The sender must be the team owner."])
  ∧ EditTeamView_post 100 Sample.janedoe 1 None
      (inr (mkTeamFormData "Test Team" "Example description."
              [Sample.petra] "" []))
      Sample.db1
    = (inr (Redirect "team_detail" [(SUCCESS, "Team updated!")]),
       stored by_non_owner)
  ∧ send_invitation 100 Sample.test_team (PStr "@petrapickles")
      (PStr "@petrapickles") None Sample.db1
    = (inr true, stored to_self).
Proof. split_and!; vm_compute; reflexivity. Qed.

(** ** Leaving a team *)

Lemma leave_team_rejected (user : User) (k : Z) (r : TeamRow) (db : DB) :
  teams db !! k = Some r →
  User_objects_get (PUser user) db = (inr user, db) →
  owner r = pk user ∨ (k, pk user) ∉ members db →
  TeamDetailView_post user k (Some "leave_team") db
  = (inr (Redirect "team_detail" [(ERROR, owner_cannot_leave)]), db).
Proof.
  intros Ht Hu Hcase. unfold TeamDetailView_post.
  assert (Hget : get_object_or_404 k db = (inr (mkInst k r), db)).
  { unfold get_object_or_404. by rewrite Ht. }
  rewrite (bind_inr _ _ _ _ _ Hget).
  rewrite bool_decide_eq_true_2 by done.
  assert (Hrm : remove_member (mkInst k r) (PUser user) db = (inr false, db)).
  { destruct Hcase as [Ho|Hm].
    - by eapply remove_member_owner.
    - by eapply remove_member_not_member. }
  by rewrite (bind_inr _ _ _ _ _ Hrm).
Qed.

(** C5. [TeamDetailView.post] answers the owner of team 1 who asks to
    leave with the error "Owner cannot leave the team." and keeps the
    store; it answers user 2, who is not a member of team 1, with the
    same redirect and the same error. *)
Theorem leave_team_same_error :
  let refusal := Redirect "team_detail" [(ERROR, owner_cannot_leave)] in
  owner (row Sample.test_team) = pk Sample.johndoe
  ∧ ((1, pk Sample.janedoe) ∉ members Sample.db0)
  ∧ TeamDetailView_post Sample.johndoe 1 (Some "leave_team") Sample.db0
    = (inr refusal, Sample.db0)
  ∧ TeamDetailView_post Sample.janedoe 1 (Some "leave_team") Sample.db0
    = (inr refusal, Sample.db0).
Proof.
  split_and!.
  - reflexivity.
  - vm_compute. intros H. discriminate H.
  - apply (leave_team_rejected _ _ (row Sample.test_team)); [done|done|].
    left. reflexivity.
  - apply (leave_team_rejected _ _ (row Sample.test_team)); [done..|right].
    vm_compute. intros H. discriminate H.
Qed.

(** ** Editing a team *)

(** C3. [Team.edit_team] never compares the acting user with the owner
    of the team, and [EditTeamView] only asks for membership. On the
    sample store user 2 is a member of team 1 and not its owner: through
    [EditTeamView] user 2 renames and re-describes the team, invites
    user 4 and removes user 3 in one request, and [Team.edit_team] called
    directly with the username of user 2 does the same. *)
Lemma edit_team_by_non_owner_applies :
  let data := mkTeamFormData "Renamed" "New text" [Sample.peter] "join"
                [Sample.petra] in
  let after :=
    mkDB (users Sample.db3)
         {[ 1 := mkTeam "Renamed" "New text" 1 0 ]}
         {[ (1, 1); (1, 2) ]}
         {[ 1 := mkInvitation 2 4 1 "join" 5 ]}
         ∅ in
  owner (row Sample.test_team) ≠ pk Sample.janedoe
  ∧ teams Sample.db3 !! 1 = Some (row Sample.test_team)
  ∧ EditTeamView_post 5 Sample.janedoe 1 None (inr data) Sample.db3
    = (inr (Redirect "team_detail" [(SUCCESS, "Team updated!")]), after)
  ∧ (edit_team 5 1 (PStr "@janedoe") "Renamed" "New text"
       [PUser Sample.peter] (Some "join") [PUser Sample.petra] Sample.db3).2
    = after.
Proof.
  split_and!.
  - simpl. lia.
  - reflexivity.
  - vm_compute. reflexivity.
  - vm_compute. reflexivity.
Qed.

(** The sibling path of the same view does compare: asked by user 2 to
    delete team 1, [EditTeamView] answers with the error "You do not have
    permissions to delete team." and keeps the store. *)
Example edit_team_view_delete_checks_owner :
  EditTeamView_post 5 Sample.janedoe 1 (Some "delete_team") (inl [])
    Sample.db3
  = (inr (Redirect "edit_team"
            [(ERROR, "You do not have permissions to delete team.")]),
     Sample.db3).
Proof. vm_compute. reflexivity. Qed.

(** The gate [EditTeamView.dispatch] does put in front of an edit is
    membership: a user who is not a member of the team is answered with
    a redirect to the dashboard and an error, and the store is unchanged,
    whatever the request asks for. *)
Theorem edit_team_view_requires_membership (now : Z) (user : User) (k : Z)
    (action : option string) (form : list string + TeamFormData) (db : DB) :
  (k, pk user) ∉ members db →
  ∃ msg, EditTeamView_post now user k action form db
         = (inr (Redirect "dashboard" [(ERROR, msg)]), db).
Proof.
  intros Hm. unfold EditTeamView_post. rewrite bind_query.
  destruct (teams db !! k) as [r|]; [|by eexists].
  rewrite bind_query. unfold is_member.
  rewrite bool_decide_eq_false_2 by done. by eexists.
Qed.

Lemma edit_team_view_requires_membership_witness :
((1, pk Sample.peter) ∉ members Sample.db3)
  ∧ ∃ msg,
      EditTeamView_post 5 Sample.peter 1 None
        (inr (mkTeamFormData "Renamed" "" [] "" [Sample.janedoe])) Sample.db3
      = (inr (Redirect "dashboard" [(ERROR, msg)]), Sample.db3).
Proof.
  assert (H : (1, pk Sample.peter) ∉ members Sample.db3).
  { vm_compute. intros H. discriminate H. }
  split; [exact H|].
  exact (edit_team_view_requires_membership 5 Sample.peter 1 None _ Sample.db3 H).
Defined.

(** ** Creating a task *)

Lemma existsb_lstrip (p : ascii → bool) (s : string) :
  existsb_string p (lstrip s) = true → existsb_string p s = true.
Proof.
  induction s as [|c s IH]; simpl; [done|].
  destruct (is_space c); simpl; [|done].
  intros H. rewrite (IH H). apply orb_true_r.
Qed.

Lemma existsb_rstrip (p : ascii → bool) (s : string) :
  existsb_string p (rstrip s) = true → existsb_string p s = true.
Proof.
  induction s as [|c s IH]; simpl; [done|].
  destruct (rstrip s) as [|c' r] eqn:E.
  - destruct (is_space c); simpl; [done|].
    rewrite orb_false_r. intros ->. done.
  - simpl in *. intros [->|H]%orb_true_iff; [done|].
    rewrite (IH H). apply orb_true_r.
Qed.

Lemma existsb_before_final_newline (p : ascii → bool) (s : string) :
  existsb_string p (before_final_newline s) = true →
  existsb_string p s = true.
Proof.
  induction s as [|c s IH]; simpl; [done|].
  destruct s as [|c' s'].
  - destruct (is_newline c); simpl; [done|done].
  - remember (String c' s') as t. simpl.
    intros [->|H]%orb_true_iff; [done|].
    rewrite (IH H). apply orb_true_r.
Qed.

(** A string without a letter fails the regular expression, stripped or not. *)
Lemma no_letter_no_match (s : string) :
  existsb_string is_letter s = false → matches_letter_regex s = false.
Proof.
  intros H. unfold matches_letter_regex.
  destruct (existsb_string is_letter (before_final_newline s)) eqn:E.
  - apply existsb_before_final_newline in E. congruence.
  - apply andb_false_r.
Qed.

Lemma no_letter_strip (s : string) :
  existsb_string is_letter s = false →
  existsb_string is_letter (strip s) = false.
Proof.
  intros H. destruct (existsb_string is_letter (strip s)) eqn:E; [|done].
  unfold strip in E. apply existsb_rstrip, existsb_lstrip in E. congruence.
Qed.

Lemma clean_char_inl (required : bool) (max_length : Z) (raw : string)
    (es : list string) :
  clean_char required max_length raw = inl es → es ≠ [].
Proof.
  unfold clean_char.
  repeat (case_match; try discriminate); by intros [= <-].
Qed.

Lemma clean_char_inr (required : bool) (max_length : Z) (raw v : string) :
  clean_char required max_length raw = inr v →
  v = strip raw ∧ Z_length v ≤ Z.max 0 max_length.
Proof.
  unfold clean_char.
  repeat (case_match; try discriminate); intros [= <-]; split; try done.
  - rewrite bool_decide_eq_true in *. unfold Z_length.
    match goal with H : strip raw = _ |- _ => rewrite H end. simpl. lia.
  - lia.
Qed.

Lemma clean_char_accepts (required : bool) (max_length : Z) (raw : string) :
  existsb_string is_nul (strip raw) = false →
  (required = true → strip raw ≠ EmptyString) →
  Z_length (strip raw) ≤ max_length →
  clean_char required max_length raw = inr (strip raw).
Proof.
  intros Hnul Hreq Hlen. unfold clean_char. rewrite Hnul.
  case_bool_decide as He.
  - destruct required; [|done]. by destruct Hreq.
  - destruct (max_length <? Z_length (strip raw)) eqn:E; [lia|done].
Qed.

Lemma app_not_nil_l {A : Type} (l1 l2 : list A) : l1 ≠ [] → l1 ++ l2 ≠ [].
Proof. destruct l1; [done|]. intros _. discriminate. Qed.

Lemma app_not_nil_r {A : Type} (l1 l2 : list A) : l2 ≠ [] → l1 ++ l2 ≠ [].
Proof. destruct l1, l2; try done. Qed.

Create HintDb not_nil.
#[local] Hint Resolve app_not_nil_l app_not_nil_r : not_nil.

(** The errors of the form when the submitted team exists: no exception
    escapes and the store is only read. *)
Lemma CreateTaskForm_errors_known_team (now k : Z) (f : TaskForm) (db : DB) :
  is_Some (teams db !! f_team f) →
  let chosen := assigned_to_queryset db k (f_assigned_to f) in
  let inside := is_member db (f_team f) (f_assigned_to f) in
  CreateTaskForm_errors now k f db
  = (inr (errors_of (clean_char true 50 (f_title f))
          ++ errors_of (clean_char false 500 (f_description f))
          ++ (if chosen then []
              else ["Select a valid choice. That choice is not one of the available choices."])
          ++ (if bool_decide (f_status f ∈ status_choices) then []
              else ["Select a valid choice."])
          ++ []
          ++ (if chosen && negb inside
              then ["Assigned user must be a member of the selected team."]
              else [])
          ++ (match value_of (clean_char true 50 (f_title f)) with
              | Some v => title_validators v
              | None => []
              end
              ++ validate_due_date_not_in_past now (f_due_date f)
              ++ priority_validators (f_priority f))
          ++ (if chosen && inside then []
              else ["The assigned to user is not part of this team"])),
     db).
Proof.
  intros Ht chosen inside. unfold CreateTaskForm_errors.
  rewrite bind_query. unfold id.
  rewrite (bool_decide_eq_true_2 _ Ht). simpl value_of at 1.
  fold chosen. destruct Ht as [tr Ht].
  unfold collect_validation, Task_clean, Team_objects_get, mbind, M_bind,
    query, mret, M_ret.
  simpl. rewrite Ht. simpl.
  destruct chosen; simpl.
  - fold (is_member db (f_team f) (f_assigned_to f)). fold inside.
    destruct inside; simpl; by destruct (bool_decide _).
  - by destruct (bool_decide _).
Qed.

Lemma due_date_in_past_error (now d : Z) :
  d < now → validate_due_date_not_in_past now d ≠ [].
Proof.
  intros H. unfold validate_due_date_not_in_past.
  destruct (Z.ltb_spec d now); [done|lia].
Qed.

Lemma due_date_not_in_past_ok (now d : Z) :
  now ≤ d → validate_due_date_not_in_past now d = [].
Proof.
  intros H. unfold validate_due_date_not_in_past.
  destruct (Z.ltb_spec d now); [lia|done].
Qed.

Lemma priority_out_of_range_error (p : Z) :
  p < 1 ∨ 5 < p → priority_validators p ≠ [].
Proof.
  intros H. unfold priority_validators.
  destruct (Z.ltb_spec p 1), (Z.ltb_spec 5 p); simpl; try done. lia.
Qed.

Lemma priority_in_range_ok (p : Z) : 1 ≤ p ≤ 5 → priority_validators p = [].
Proof.
  intros H. unfold priority_validators.
  destruct (Z.ltb_spec p 1), (Z.ltb_spec 5 p); simpl; try done; lia.
Qed.

Lemma title_without_letter_error (raw : string) :
  existsb_string is_letter raw = false →
  errors_of (clean_char true 50 raw) ≠ []
  ∨ ∃ v, value_of (clean_char true 50 raw) = Some v ∧ title_validators v ≠ [].
Proof.
  intros H. destruct (clean_char true 50 raw) as [es|v] eqn:E.
  - left. simpl. by eapply clean_char_inl.
  - right. exists v. split; [done|].
    apply clean_char_inr in E as [-> _].
    unfold title_validators.
    rewrite (no_letter_no_match _ (no_letter_strip _ H)). done.
Qed.

Lemma too_long_error (required : bool) (max_length : Z) (raw : string) :
  0 ≤ max_length →
  max_length < Z_length (strip raw) →
  errors_of (clean_char required max_length raw) ≠ [].
Proof.
  intros H0 H. destruct (clean_char required max_length raw) as [es|v] eqn:E.
  - simpl. by eapply clean_char_inl.
  - apply clean_char_inr in E as [-> Hle]. lia.
Qed.

Lemma not_in_queryset (db : DB) (k a : Z) :
  k ≠ 0 → is_Some (teams db !! k) → (k, a) ∉ members db →
  assigned_to_queryset db k a = false.
Proof.
  intros Hk [r Hr] Hm. unfold assigned_to_queryset.
  rewrite (bool_decide_eq_false_2 _ Hk), Hr. unfold is_member.
  rewrite (bool_decide_eq_false_2 _ Hm). apply andb_false_r.
Qed.

(** C7, as stated, fails: a task due exactly now is stored. The validator
    compares with [<], so only a due date before now is refused. *)
Lemma create_task_due_now_accepted :
  let f := mkTaskForm "Write report" "" 1000 1 "Not Started" 1 1 in
  f_due_date f = 1000
  ∧ CreateTaskView_post 1000 1 f Sample.db0
    = (inr (Redirect "team_detail" []),
       set_tasks (λ _,
         {[ 1 := mkTask "Write report" "" 1000 1 1 "Not Started" 1 1000 1000 ]})
         Sample.db0).
Proof. split; [reflexivity|]. vm_compute. reflexivity. Qed.

(** C7, amended. On the page of an existing team, with an existing team
    submitted, [CreateTaskView.post] renders the form again with at least
    one validation error and stores nothing when the due date is before
    now, when the assignee is not a member of the team, when the title
    has no letter, when the priority is below 1 or above 5, or when the
    stripped title or description is longer than 50 or 500 characters. A
    due date that is not before now, in particular one day ahead, with
    the other fields acceptable, stores the task in the team of the page
    and redirects to the team. *)
Theorem create_task_validation (now k : Z) (f : TaskForm) (db : DB) :
  k ≠ 0 →
  is_Some (teams db !! k) →
  is_Some (teams db !! f_team f) →
  (f_due_date f < now
   ∨ (k, f_assigned_to f) ∉ members db
   ∨ existsb_string is_letter (f_title f) = false
   ∨ (f_priority f < 1 ∨ 5 < f_priority f)
   ∨ 50 < Z_length (strip (f_title f))
   ∨ 500 < Z_length (strip (f_description f)) →
   ∃ e es, CreateTaskView_post now k f db
           = (inr (Render "create_task.html" (e :: es)), db))
  ∧ (now ≤ f_due_date f →
     other_fields_valid db k f →
     CreateTaskView_post now k f db
     = (inr (Redirect "team_detail" []),
        set_tasks
          (insert (next_pk (tasks db))
             (mkTask (strip (f_title f)) (strip (f_description f))
                (f_due_date f) (f_assigned_to f) k (f_status f)
                (f_priority f) now now))
          db)).
Proof.
  intros Hk0 Hk Ht.
  pose proof (CreateTaskForm_errors_known_team now k f db Ht) as Herr.
  cbv zeta in Herr.
  unfold CreateTaskView_post. rewrite bind_query.
  destruct Hk as [kr Hkr]. rewrite Hkr.
  rewrite (bind_inr _ _ _ _ _ Herr). clear Herr.
  split.
  - intros Hbad.
    match goal with |- ∃ e es, (match ?l with _ => _ end) _ = _ =>
      assert (Hne : l ≠ []); [|destruct l; [done|by eexists _, _]]
    end.
    destruct Hbad as [Hd|[Hm|[Hl|[Hp|[Hlt|Hld]]]]].
    + apply due_date_in_past_error in Hd. eauto 12 with not_nil.
    + rewrite (not_in_queryset db k _ Hk0 (ex_intro _ kr Hkr) Hm).
      simpl. eauto 12 with not_nil.
    + destruct (title_without_letter_error _ Hl) as [He|(v & -> & Hv)];
        eauto 12 with not_nil.
    + apply priority_out_of_range_error in Hp. eauto 12 with not_nil.
    + apply (too_long_error true 50) in Hlt; [|lia]. eauto 12 with not_nil.
    + apply (too_long_error false 500) in Hld; [|lia]. eauto 12 with not_nil.
  - intros Hdue (Hu & Hmk & Hmt & Hs & Hte & Htn & Htl & Htr & Hdn & Hdl & Hp).
    rewrite (clean_char_accepts true 50 (f_title f)) by done.
    rewrite (clean_char_accepts false 500 (f_description f)) by done.
    assert (Hq : assigned_to_queryset db k (f_assigned_to f) = true).
    { unfold assigned_to_queryset.
      rewrite (bool_decide_eq_true_2 _ Hu), (bool_decide_eq_false_2 _ Hk0), Hkr.
      unfold is_member. by rewrite (bool_decide_eq_true_2 _ Hmk). }
    rewrite Hq. unfold is_member.
    rewrite (bool_decide_eq_true_2 _ Hmt), (bool_decide_eq_true_2 _ Hs).
    simpl. unfold title_validators. rewrite Htr.
    destruct (Z.ltb_spec 50 (Z_length (strip (f_title f)))); [lia|].
    rewrite (due_date_not_in_past_ok _ _ Hdue), (priority_in_range_ok _ Hp).
    reflexivity.
Qed.

Lemma create_task_validation_witness :
  let now := 1000 in
  let f := mkTaskForm " Write report " "First draft" (1000 + one_day) 1
             "Not Started" 3 1 in
  (1 ≠ 0 ∧ is_Some (teams Sample.db0 !! 1)
   ∧ is_Some (teams Sample.db0 !! f_team f)
   ∧ now ≤ f_due_date f ∧ other_fields_valid Sample.db0 1 f)
  ∧ CreateTaskView_post now 1 f Sample.db0
    = (inr (Redirect "team_detail" []),
       set_tasks
         (insert (next_pk (tasks Sample.db0))
            (mkTask "Write report" "First draft" (1000 + one_day) 1 1
               "Not Started" 3 1000 1000))
         Sample.db0).
Proof.
  intros now f.
  assert (H0 : (1 : Z) ≠ 0) by lia.
  assert (H1 : is_Some (teams Sample.db0 !! 1)) by (by eexists).
  assert (H2 : is_Some (teams Sample.db0 !! f_team f)) by (by eexists).
  assert (H3 : now ≤ f_due_date f) by (vm_compute; discriminate).
  assert (H4 : other_fields_valid Sample.db0 1 f).
  { unfold other_fields_valid. split_and!; try (vm_compute; done).
    - by eexists.
    - unfold f, status_choices. simpl. apply list_elem_of_here. }
  split; [done|].
  exact (proj2 (create_task_validation now 1 f Sample.db0 H0 H1 H2) H3 H4).
Defined.

(** ** Preservation rules *)

Section Preserves.
Context (P : DB → Prop).

Lemma preserves_ret {A : Type} (x : A) : preserves P (mret x).
Proof. intros db H. exact H. Qed.

Lemma preserves_raise {A : Type} (e : exn) : preserves P (raise (A := A) e).
Proof. intros db H. exact H. Qed.

Lemma preserves_query {A : Type} (g : DB → A) : preserves P (query g).
Proof. intros db H. exact H. Qed.

Lemma preserves_update (g : DB → DB) :
  (∀ db, P db → P (g db)) → preserves P (update g).
Proof. intros Hg db H. by apply Hg. Qed.

Lemma preserves_bind {A B : Type} (m : M A) (f : A → M B) :
  preserves P m → (∀ x, preserves P (f x)) → preserves P (m ≫= f).
Proof.
  intros Hm Hf db H. specialize (Hm db H).
  unfold mbind, M_bind. destruct (m db) as [[e|x] db']; simpl in *.
  - exact Hm.
  - by apply Hf.
Qed.

Lemma preserves_for_each {A : Type} (xs : list A) (body : A → M unit) :
  (∀ x, preserves P (body x)) → preserves P (for_each xs body).
Proof.
  intros Hb. induction xs as [|x xs IH]; simpl.
  - apply preserves_ret.
  - apply preserves_bind; [apply Hb|]. intros _. exact IH.
Qed.

Lemma preserves_User_objects_get (a : PyArg) :
  preserves P (User_objects_get a).
Proof. intros db H. by rewrite User_objects_get_db. Qed.

Lemma preserves_Team_objects_get (k : Z) : preserves P (Team_objects_get k).
Proof. intros db H. unfold Team_objects_get. by destruct (teams db !! k). Qed.

Lemma preserves_get_object_or_404 (k : Z) :
  preserves P (get_object_or_404 k).
Proof. intros db H. unfold get_object_or_404. by destruct (teams db !! k). Qed.

Lemma preserves_attr_id (a : PyArg) : preserves P (attr_id a).
Proof. intros db H. by destruct a. Qed.

Lemma preserves_collect_validation (m : M unit) :
  preserves P m → preserves P (collect_validation m).
Proof.
  intros Hm db H. specialize (Hm db H). unfold collect_validation.
  destruct (m db) as [[[]|[]] db']; exact Hm.
Qed.

Lemma preserves_on_permission_denied (m : M (list (Level * string))) :
  preserves P m → preserves P (on_permission_denied m).
Proof.
  intros Hm db H. specialize (Hm db H). unfold on_permission_denied.
  destruct (m db) as [[[]|?] db']; exact Hm.
Qed.
End Preserves.

(** Splits a computation along its binds, branches and loops; what is
    left are its writes and the calls of other methods. *)
Ltac preserves_step :=
  first
    [ apply preserves_ret
    | apply preserves_raise
    | apply preserves_query
    | apply preserves_User_objects_get
    | apply preserves_Team_objects_get
    | apply preserves_get_object_or_404
    | apply preserves_attr_id
    | apply preserves_bind; [|intros ?]
    | apply preserves_for_each; intros ?
    | apply preserves_collect_validation
    | apply preserves_on_permission_denied
    | match goal with
      | |- preserves _ (if ?b then _ else _) => destruct b eqn:?
      | |- preserves _ (match ?x with _ => _ end) => destruct x eqn:?
      end ].

Ltac preserves_split := repeat preserves_step.

Lemma preserves_discard {A : Type} (P : DB → Prop) (m : M A) :
  preserves P m → preserves P (discard m).
Proof.
  intros H. unfold discard. apply preserves_bind; [done|].
  intros _. apply preserves_ret.
Qed.

Lemma preserves_Invitation_objects_get (P : DB → Prop) (k : Z) :
  preserves P (Invitation_objects_get k).
Proof.
  intros db H. unfold Invitation_objects_get. by destruct (invitations db !! k).
Qed.

Lemma perform_all_preserves (P : DB → Prop) :
  (∀ req, preserves P (perform req)) →
  ∀ reqs db, P db → P (perform_all reqs db).
Proof.
  intros Hstep reqs. induction reqs as [|req reqs IH]; intros db H; simpl.
  - exact H.
  - apply IH. by apply Hstep.
Qed.

(** ** One invitation for a recipient and a team *)

Section OneInvitation.
#[local] Abbreviation P := one_invitation_per_pair.

Lemma one_invitation_ext (db db' : DB) :
  invitations db' = invitations db → P db → P db'.
Proof. unfold one_invitation_per_pair. by intros ->. Qed.

Lemma one_invitation_subset (db db' : DB) :
  (∀ k i, invitations db' !! k = Some i → invitations db !! k = Some i) →
  P db → P db'.
Proof.
  intros Hsub H k1 k2 i1 i2 H1 H2. apply H; by apply Hsub.
Qed.

(** The uniqueness constraint at work. *)
Lemma Invitation_objects_create_unique (now s r t : Z) (msg : string) :
  preserves P (Invitation_objects_create now s r t msg).
Proof.
  intros db H. unfold Invitation_objects_create.
  destruct (decide _) as [Hex|Hno]; [exact H|]. simpl.
  assert (Hfree : ∀ k i, invitations db !! k = Some i →
                    ¬ (recipient i = r ∧ inv_team i = t)).
  { intros k i Hk Hp. apply Hno. by exists k, i. }
  unfold one_invitation_per_pair. simpl. intros k1 k2 i1 i2.
  rewrite !lookup_insert.
  repeat case_decide; intros Hi1 Hi2 Hr Ht; simplify_eq; simpl in *;
    try done.
  - exfalso. eapply Hfree; [exact Hi2|]. done.
  - exfalso. eapply Hfree; [exact Hi1|]. done.
  - by eapply H.
Qed.

Lemma Invitation_delete_unique (self : Invitation) :
  preserves P (Invitation_delete self).
Proof.
  apply preserves_update. intros db. apply one_invitation_subset.
  simpl. by intros k i [_ ?]%lookup_delete_Some.
Qed.

Lemma Team_delete_unique (self : Team) : preserves P (Team_delete self).
Proof.
  apply preserves_update. intros db. apply one_invitation_subset.
  simpl. by intros k i [? _]%map_lookup_filter_Some.
Qed.
End OneInvitation.

(** A write that leaves the invitation table alone. *)
Ltac keeps_invitations :=
  first
    [ apply preserves_update; intros ? ?
    | intros ? ? ];
  eapply one_invitation_ext; [|eassumption]; reflexivity.

Ltac unique_finish :=
  first
    [ apply Invitation_objects_create_unique
    | apply Invitation_delete_unique
    | apply Team_delete_unique
    | keeps_invitations ].

Section OneInvitationMethods.
#[local] Abbreviation P := one_invitation_per_pair.

Lemma remove_member_unique (self : Team) (who : PyArg) :
  preserves P (remove_member self who).
Proof. unfold remove_member, remove_task. preserves_split; unique_finish. Qed.

Lemma delete_team_unique (self : Team) (who : PyArg) :
  preserves P (delete_team self who).
Proof. unfold delete_team. preserves_split; unique_finish. Qed.

Lemma send_invitation_unique (now : Z) (self : Team) (s r : PyArg)
    (msg : option string) :
  preserves P (send_invitation now self s r msg).
Proof. unfold send_invitation. preserves_split; unique_finish. Qed.

Lemma create_team_unique (now : Z) (n d : string) (o : User)
    (invitees : list PyArg) (msg : option string) :
  preserves P (create_team now n d o invitees msg).
Proof. unfold create_team, members_add. preserves_split; unique_finish. Qed.

Lemma edit_team_unique (now k : Z) (who : PyArg) (n d : string)
    (invitees : list PyArg) (msg : option string) (rm : list PyArg) :
  preserves P (edit_team now k who n d invitees msg rm).
Proof. unfold edit_team. preserves_split; unique_finish. Qed.

Lemma accept_invitation_unique (self : Invitation) (user : User) :
  preserves P (accept_invitation self user).
Proof.
  unfold accept_invitation, members_add. preserves_split; unique_finish.
Qed.

Lemma decline_invitation_unique (self : Invitation) (user : User) :
  preserves P (decline_invitation self user).
Proof. unfold decline_invitation. preserves_split; unique_finish. Qed.

Lemma TeamDetailView_post_unique (user : User) (k : Z)
    (action : option string) :
  preserves P (TeamDetailView_post user k action).
Proof. unfold TeamDetailView_post. preserves_split; unique_finish. Qed.

Lemma CreateTaskView_post_unique (now k : Z) (f : TaskForm) :
  preserves P (CreateTaskView_post now k f).
Proof.
  unfold CreateTaskView_post, CreateTaskForm_errors, Task_clean.
  preserves_split; unique_finish.
Qed.

Lemma perform_unique (req : Request) : preserves P (perform req).
Proof.
  destruct req; simpl; repeat apply preserves_discard.
  - apply create_team_unique.
  - apply edit_team_unique.
  - apply preserves_bind; [apply preserves_Team_objects_get|].
    intros ?. apply preserves_discard, send_invitation_unique.
  - apply preserves_bind; [apply preserves_Team_objects_get|].
    intros ?. apply preserves_discard, remove_member_unique.
  - apply TeamDetailView_post_unique.
  - apply preserves_bind; [apply preserves_Team_objects_get|].
    intros ?. apply preserves_discard, delete_team_unique.
  - apply preserves_bind; [apply preserves_Invitation_objects_get|].
    intros ?. apply accept_invitation_unique.
  - apply preserves_bind; [apply preserves_Invitation_objects_get|].
    intros ?. apply decline_invitation_unique.
  - apply CreateTaskView_post_unique.
Qed.
End OneInvitationMethods.

Lemma one_invitation_no_invitation (db : DB) :
  invitations db = ∅ → one_invitation_per_pair db.
Proof. intros He k1 k2 i1 i2 H. by rewrite He, lookup_empty in H. Qed.

(** The property is not empty: a table with two rows for one pair fails it. *)
Example two_invitations_for_a_pair :
  ¬ one_invitation_per_pair
      (set_invitations
         (λ _, <[2 := mkInvitation 1 2 1 "again" 7]>
                 {[ 1 := mkInvitation 1 2 1 "join" 5 ]})
         Sample.db0).
Proof.
  intros H.
  specialize (H 1 2 (mkInvitation 1 2 1 "join" 5)
                (mkInvitation 1 2 1 "again" 7)).
  discriminate H; reflexivity.
Qed.

(** A second invitation for the same recipient and team is refused. *)
Example second_invitation_refused :
  ∃ db', send_invitation 5 Sample.test_team (PStr "@johndoe")
           (PStr "@janedoe") (Some "join") Sample.db0 = (inr true, db')
    ∧ send_invitation 7 Sample.test_team (PStr "@johndoe")
        (PStr "@janedoe") (Some "again") db' = (inl IntegrityError, db').
Proof. eexists. split; vm_compute; reflexivity. Qed.

(** C8. From a store with at most one invitation for every recipient and
    team, every sequence of requests (creating and editing teams with
    their batches of invitations, single invitations, accepting,
    declining, removing and leaving, deleting teams, creating tasks),
    failed requests included, ends in a store with at most one invitation
    for every recipient and team. *)
Theorem one_invitation_per_pair_always (reqs : list Request) (db : DB) :
  one_invitation_per_pair db →
  one_invitation_per_pair (perform_all reqs db).
Proof. apply perform_all_preserves. exact perform_unique. Qed.

Lemma one_invitation_per_pair_always_witness :
  let reqs :=
    [ ReqCreateTeam 5 "Other Team" "" Sample.johndoe
        [PUser Sample.janedoe; PUser Sample.petra] (Some "join");
      ReqSendInvitation 6 2 (PUser Sample.johndoe) (PStr "@janedoe")
        (Some "again");
      ReqEditTeam 7 2 (PStr "@johndoe") "Other Team" "text"
        [PUser Sample.peter] None [];
      ReqAccept 1 Sample.janedoe;
      ReqDecline 2 Sample.petra ] in
  one_invitation_per_pair Sample.db0
  ∧ one_invitation_per_pair (perform_all reqs Sample.db0)
  ∧ invitations (perform_all reqs Sample.db0)
    = {[ 3 := mkInvitation 1 4 2 "" 7 ]}.
Proof.
  intros reqs.
  assert (H0 : one_invitation_per_pair Sample.db0)
    by (apply one_invitation_no_invitation; reflexivity).
  split; [exact H0|]. split.
  - exact (one_invitation_per_pair_always reqs Sample.db0 H0).
  - vm_compute. reflexivity.
Defined.

(** ** The owner of a team is one of its members *)

Lemma owner_is_member_no_team (db : DB) : teams db = ∅ → owner_is_member db.
Proof. intros He k r H. by rewrite He, lookup_empty in H. Qed.

Lemma preserves_of_frame {A : Type} (Q : DB → Prop) (m : M A) :
  (∀ d d', same_teams_and_members d d' → Q d → Q d') →
  (∀ db0, preserves (same_teams_and_members db0) m) →
  preserves Q m.
Proof.
  intros Hext Hf db HQ. eapply Hext; [|exact HQ].
  apply (Hf db db). by split.
Qed.

Ltac frame_finish :=
  first
    [ apply preserves_update; intros ? [? ?]; split; simpl; congruence
    | intros ? [? ?]; split; simpl; congruence ].

Section Frames.
Variable db0 : DB.
#[local] Abbreviation F := (same_teams_and_members db0).

Lemma Invitation_objects_create_frame (now s r t : Z) (msg : string) :
  preserves F (Invitation_objects_create now s r t msg).
Proof.
  intros db H. unfold Invitation_objects_create.
  by destruct (decide _).
Qed.

Lemma send_invitation_frame (now : Z) (self : Team) (s r : PyArg)
    (msg : option string) :
  preserves F (send_invitation now self s r msg).
Proof.
  unfold send_invitation. preserves_split.
  apply Invitation_objects_create_frame.
Qed.

Lemma decline_invitation_frame (self : Invitation) (user : User) :
  preserves F (decline_invitation self user).
Proof.
  unfold decline_invitation, Invitation_delete.
  preserves_split; frame_finish.
Qed.

Lemma CreateTaskView_post_frame (now k : Z) (f : TaskForm) :
  preserves F (CreateTaskView_post now k f).
Proof.
  unfold CreateTaskView_post, CreateTaskForm_errors, Task_clean, Task_insert.
  preserves_split; frame_finish.
Qed.
End Frames.

Lemma owner_is_member_ext (d d' : DB) :
  same_teams_and_members d d' → owner_is_member d → owner_is_member d'.
Proof. intros [Ht Hm] H k r. rewrite Ht, Hm. apply H. Qed.

Lemma same_owner_stored_ext (self : Team) (d d' : DB) :
  same_teams_and_members d d' → same_owner_stored self d →
  same_owner_stored self d'.
Proof. intros [Ht Hm]. unfold same_owner_stored. by rewrite Ht. Qed.

Section OwnerIsMember.
#[local] Abbreviation P := owner_is_member.

(** What a returning [create_team] leaves: the new team under a fresh
    key with its owner as a member, the other teams and memberships as
    they were. *)
Lemma invite_loop_frame (db0 : DB) (now : Z) (self : Team) (o : PyArg)
    (invitees : list PyArg) (msg : option string) :
  preserves (same_teams_and_members db0)
    (for_each invitees (λ member,
       send_invitation now self o member msg;; mret tt)).
Proof.
  apply preserves_for_each. intros member.
  apply preserves_bind; [apply send_invitation_frame|].
  intros _. apply preserves_ret.
Qed.

Lemma create_team_returns (now : Z) (n d : string) (o : User)
    (invitees : list PyArg) (msg : option string) (db db' : DB) (t : Team) :
  create_team now n d o invitees msg db = (inr t, db') →
  t = mkInst (next_pk (teams db)) (mkTeam n d (pk o) now)
  ∧ teams db' = <[pk t := row t]> (teams db)
  ∧ members db' = members db ∪ {[ (pk t, pk o) ]}.
Proof.
  unfold create_team. intros H.
  apply bind_cases in H as [(e & _ & [=])|(team & db1 & Hins & H)].
  unfold Team_insert in Hins. injection Hins as <- <-.
  apply bind_cases in H as [(e & _ & [=])|([] & db2 & Hloop & H)].
  pose proof (invite_loop_frame
                (set_teams (insert (next_pk (teams db))
                              (mkTeam n d (pk o) now)) db)
                now (mkInst (next_pk (teams db)) (mkTeam n d (pk o) now))
                (PUser o) invitees msg _ (conj eq_refl eq_refl)) as Hframe.
  rewrite Hloop in Hframe. destruct Hframe as [Ht Hm]. simpl in Ht, Hm.
  unfold members_add in H. rewrite bind_update in H.
  injection H as <- <-. simpl. by rewrite Ht, Hm.
Qed.

Lemma create_team_owner_joined (now : Z) (n d : string) (o : User)
    (invitees : list PyArg) (msg : option string) (db db' : DB) (t : Team) :
  create_team now n d o invitees msg db = (inr t, db') → P db → P db'.
Proof.
  intros Hrun H. apply create_team_returns in Hrun as (-> & Ht & Hm).
  intros k r. rewrite Ht, Hm. simpl.
  rewrite lookup_insert. case_decide as Hk.
  - intros [= <-]. subst k. apply elem_of_union_r. by apply elem_of_singleton.
  - intros Hr. apply elem_of_union_l. by apply H.
Qed.

Lemma remove_member_owner_kept (self : Team) (who : PyArg) :
  preserves (λ d, P d ∧ same_owner_stored self d) (remove_member self who).
Proof.
  unfold remove_member, remove_task. preserves_split.
  - apply preserves_update. intros db [H Hs]. split; [|done].
    intros k r. apply H.
  - apply preserves_update. intros db [H (r0 & Hr0 & Ho)]. split.
    + intros k r Hr. simpl in *. apply elem_of_difference. split.
      * by apply H.
      * intros [= -> Hx]%elem_of_singleton.
        rewrite Hr0 in Hr. injection Hr as <-.
        match goal with Hb : bool_decide _ = false |- _ =>
          apply bool_decide_eq_false in Hb; apply Hb end.
        congruence.
    + by exists r0.
Qed.

Lemma delete_team_owner_kept (self : Team) (who : PyArg) :
  preserves P (delete_team self who).
Proof.
  unfold delete_team, Team_delete. preserves_split.
  apply preserves_update. intros db H k r. simpl.
  intros [Hne Hr]%lookup_delete_Some.
  apply elem_of_filter. split; [by simpl|]. by apply H.
Qed.

Lemma accept_invitation_owner_kept (self : Invitation) (user : User) :
  preserves P (accept_invitation self user).
Proof.
  unfold accept_invitation, members_add, Invitation_delete.
  preserves_split.
  - apply preserves_update. intros db H k r Hr. simpl in *.
    apply elem_of_union_l. by apply H.
  - apply preserves_update. intros db H k r Hr. by apply H.
Qed.

(** An instance loaded by its key agrees with the store. *)
Lemma loaded_same_owner (k : Z) (r : TeamRow) (db : DB) :
  teams db !! k = Some r → same_owner_stored (mkInst k r) db.
Proof. intros H. by exists r. Qed.

Lemma on_loaded_team {A : Type} (k : Z) (f : Team → M A) :
  (∀ self, preserves (λ d, P d ∧ same_owner_stored self d) (f self)) →
  preserves P (Team_objects_get k ≫= f).
Proof.
  intros Hf db H. unfold mbind, M_bind, Team_objects_get.
  destruct (teams db !! k) as [r|] eqn:Hr; [|exact H].
  apply (Hf (mkInst k r) db). split; [exact H|]. by apply loaded_same_owner.
Qed.
End OwnerIsMember.

Section OwnerIsMemberRequests.
#[local] Abbreviation P := owner_is_member.
#[local] Abbreviation J := (λ self d, P d ∧ same_owner_stored self d).

Lemma J_ext (self : Team) (d d' : DB) :
  same_teams_and_members d d' → J self d → J self d'.
Proof.
  intros Hf [H Hs]. split.
  - by eapply owner_is_member_ext.
  - by eapply same_owner_stored_ext.
Qed.

(** [team.save()] after an edit: the row keeps its owner. *)
Lemma save_edited_owner_kept (self : Team) :
  preserves (J self) (update (set_teams (insert (pk self) (row self)))).
Proof.
  apply preserves_update. intros d [H (r & Hr & Ho)]. split.
  - intros k r'. simpl. rewrite lookup_insert. case_decide as Hk.
    + intros [= <-]. subst k. rewrite <- Ho. by apply H.
    + apply H.
  - exists (row self). simpl. by rewrite lookup_insert_eq.
Qed.

Lemma edit_team_owner_kept (now k : Z) (who : PyArg) (n d : string)
    (invitees : list PyArg) (msg : option string) (rm : list PyArg) :
  preserves P (edit_team now k who n d invitees msg rm).
Proof.
  unfold edit_team.
  apply preserves_bind; [apply preserves_User_objects_get|].
  intros owner_user. apply on_loaded_team. intros loaded.
  set (team := mkInst (pk loaded)
                 (mkTeam n d (owner (row loaded))
                    (team_created_at (row loaded)))).
  intros db [H (r & Hr & Ho)].
  assert (HJ : J team db) by (split; [done|by exists r]).
  assert (Hrest : preserves (J team)
    (for_each invitees (λ member,
       send_invitation now team (PUser owner_user) member msg;; mret tt);;
     for_each rm (λ member, remove_member team member;; mret tt);;
     update (set_teams (insert (pk team) (row team)));;
     mret team)).
  { apply preserves_bind.
    { apply preserves_of_frame; [apply J_ext|].
      intros db0. apply invite_loop_frame. }
    intros _. apply preserves_bind.
    { apply preserves_for_each. intros member.
      apply preserves_bind; [apply remove_member_owner_kept|].
      intros _. apply preserves_ret. }
    intros _. apply preserves_bind; [apply save_edited_owner_kept|].
    intros _. apply preserves_ret. }
  destruct (Hrest db HJ) as [HP' (r' & Hr' & Ho')].
  split; [exact HP'|]. by exists r'.
Qed.

Lemma TeamDetailView_post_owner_kept (user : User) (k : Z)
    (action : option string) :
  preserves P (TeamDetailView_post user k action).
Proof.
  intros db H. unfold TeamDetailView_post, mbind at 1, M_bind at 1.
  unfold get_object_or_404. destruct (teams db !! k) as [r|] eqn:Hr; [|done].
  assert (Hrest : preserves (J (mkInst k r))
    (if bool_decide (action = Some "leave_team") then
       left_team ← remove_member (mkInst k r) (PUser user);
       if left_team : bool then
         mret (Redirect "dashboard" [(SUCCESS, "You have left the team.")])
       else mret (Redirect "team_detail" [(ERROR, owner_cannot_leave)])
     else mret (Redirect "team_detail" []))).
  { destruct (bool_decide _); [|apply preserves_ret].
    apply preserves_bind; [apply remove_member_owner_kept|].
    intros []; apply preserves_ret. }
  apply (Hrest db). split; [exact H|]. by apply loaded_same_owner.
Qed.

Lemma perform_owner_kept (req : Request) (db : DB) :
  creation_returns req db → P db → P (perform req db).2.
Proof.
  destruct req; simpl; intros Hc H.
  - destruct Hc as (t & db' & Hrun). unfold discard.
    rewrite (bind_inr _ _ _ _ _ Hrun). simpl.
    by eapply create_team_owner_joined.
  - clear Hc; revert db H. apply preserves_discard, edit_team_owner_kept.
  - clear Hc; revert db H. apply on_loaded_team. intros self.
    apply preserves_discard, preserves_of_frame; [apply J_ext|].
    intros db0. apply send_invitation_frame.
  - clear Hc; revert db H. apply on_loaded_team. intros self.
    apply preserves_discard, remove_member_owner_kept.
  - clear Hc; revert db H.
    apply preserves_discard, TeamDetailView_post_owner_kept.
  - clear Hc; revert db H.
    apply preserves_bind; [apply preserves_Team_objects_get|].
    intros self. apply preserves_discard, delete_team_owner_kept.
  - clear Hc; revert db H.
    apply preserves_bind; [apply preserves_Invitation_objects_get|].
    intros self. apply accept_invitation_owner_kept.
  - clear Hc; revert db H.
    apply preserves_bind; [apply preserves_Invitation_objects_get|].
    intros self. apply preserves_of_frame; [apply owner_is_member_ext|].
    intros db0. apply decline_invitation_frame.
  - clear Hc; revert db H.
    apply preserves_discard, preserves_of_frame; [apply owner_is_member_ext|].
    intros db0. apply CreateTaskView_post_frame.
Qed.
End OwnerIsMemberRequests.

(** What does hold: from a store in which the owner of every team is
    one of its members, every sequence of requests in which each team
    creation returns its team (and every other request, editing,
    inviting, accepting, declining, removing a member, leaving, deleting
    a team, creating a task, ends as it may, by a return or by an
    exception) leads to a store in which the owner of every team is one
    of its members. *)
Theorem owner_is_member_while_creations_return (reqs : list Request)
    (db : DB) :
  owner_is_member db →
  creations_return reqs db →
  owner_is_member (perform_all reqs db).
Proof.
  revert db. induction reqs as [|req reqs IH]; intros db H Hc; simpl.
  - exact H.
  - destruct Hc as [Hreq Hrest]. apply IH; [|exact Hrest].
    by apply perform_owner_kept.
Qed.

Lemma owner_is_member_while_creations_return_witness :
  let reqs :=
    [ ReqCreateTeam 5 "Second Team" "" Sample.johndoe
        [PUser Sample.janedoe] (Some "join");
      ReqAccept 1 Sample.janedoe;
      ReqLeaveTeam Sample.johndoe 2;
      ReqRemoveMember 2 (PUser Sample.johndoe);
      ReqEditTeam 9 2 (PStr "@janedoe") "Renamed" "" [] None
        [PUser Sample.johndoe];
      ReqLeaveTeam Sample.janedoe 2 ] in
  owner_is_member Sample.db0
  ∧ creations_return reqs Sample.db0
  ∧ owner_is_member (perform_all reqs Sample.db0)
  ∧ members (perform_all reqs Sample.db0) = {[ (1, 1); (2, 1) ]}.
Proof.
  intros reqs.
  assert (H0 : owner_is_member Sample.db0).
  { apply (bool_decide_unpack (owner_is_member Sample.db0)).
    vm_compute. exact I. }
  assert (H1 : creations_return reqs Sample.db0).
  { simpl. split_and!; try exact I. eexists _, _. vm_compute. reflexivity. }
  split; [exact H0|]. split; [exact H1|]. split.
  - exact (owner_is_member_while_creations_return reqs Sample.db0 H0 H1).
  - vm_compute. reflexivity.
Defined.

(** C2. [Team.create_team] saves the team, then sends the invitations,
    and adds the owner to the members only after that loop; nothing
    catches what [send_invitation] raises and no transaction undoes the
    save. On the sample store, where the owner of every team is a member,
    [create_team] for user 1 with the invitee ["@nobody"], a username of no
    user, raises [User.DoesNotExist]; the team is then stored under key 2
    with owner 1, and user 1 is not one of its members. The store that
    request leaves has a team whose owner is not a member. *)
Theorem create_team_aborted_owner_not_member :
  let req :=
    ReqCreateTeam 5 "Second Team" "" Sample.johndoe [PStr "@nobody"] None in
  owner_is_member Sample.db0
  ∧ (∃ db', create_team 5 "Second Team" "" Sample.johndoe [PStr "@nobody"]
              None Sample.db0
            = (inl DoesNotExist, db')
       ∧ teams db' !! 2 = Some (mkTeam "Second Team" "" 1 5)
       ∧ (2, 1) ∉ members db')
  ∧ ¬ owner_is_member (perform_all [req] Sample.db0).
Proof.
  split_and!.
  - apply (bool_decide_unpack (owner_is_member Sample.db0)).
    vm_compute. exact I.
  - eexists. split; [vm_compute; reflexivity|]. split; [reflexivity|].
    vm_compute. intros H. discriminate H.
  - intros H. specialize (H 2 (mkTeam "Second Team" "" 1 5) eq_refl).
    revert H. vm_compute. intros H. discriminate H.
Qed.

(** The same with an invitee named twice: the second invitation is
    refused with an [IntegrityError], after the team was saved and before
    [team.members.add(owner)]. [TeamForm.clean_members] refuses such a
    list before [CreateTeamView] calls [create_team]. *)
Example create_team_aborted :
  ∃ db', create_team 5 "Second Team" "" Sample.johndoe
           [PUser Sample.janedoe; PUser Sample.janedoe] None Sample.db0
         = (inl IntegrityError, db')
    ∧ teams db' !! 2 = Some (mkTeam "Second Team" "" 1 5)
    ∧ (2, 1) ∉ members db'.
Proof.
  eexists. split; [vm_compute; reflexivity|]. split; [reflexivity|].
  vm_compute. intros H. discriminate H.
Qed.

(** ** Team creation from a validated form returns

    [TeamForm.clean_members] hands [create_team] stored users, no user
    twice. On a store without invitations for the key of the new team
    the invitation loop raises nothing, so the owner is added. *)

Lemma User_objects_get_same_users (a : PyArg) (u : User) (db d : DB) :
  users d = users db →
  User_objects_get a db = (inr u, db) →
  User_objects_get a d = (inr u, d).
Proof.
  unfold User_objects_get. intros ->.
  destruct (map_to_list _) as [|[k r] [|? ?]]; intros H; try discriminate.
  by injection H as <-.
Qed.

Lemma invite_loop_returns (now : Z) (self : Team) (o : User)
    (msg : option string) (db : DB) (rest : list User) :
  User_objects_get (PUser o) db = (inr o, db) →
  Forall (λ u, User_objects_get (PUser u) db = (inr u, db)) rest →
  NoDup (pk <$> rest) →
  ∀ d, users d = users db →
    (∀ k i, invitations d !! k = Some i → inv_team i = pk self →
            recipient i ∉ pk <$> rest) →
    ∃ d', for_each (PUser <$> rest) (λ member,
            send_invitation now self (PUser o) member msg;; mret tt) d
          = (inr tt, d').
Proof.
  intros Ho Hall. induction Hall as [|u rest Hu Hall IH]; intros Hnd d Hd Hinv.
  - by eexists.
  - rewrite fmap_cons in Hnd. apply NoDup_cons in Hnd as [Hfresh Hnd].
    rewrite fmap_cons. simpl for_each.
    assert (Hsend := send_invitation_resolved now self (PUser o) (PUser u)
              msg d o u (User_objects_get_same_users _ _ _ _ Hd Ho)
              (User_objects_get_same_users _ _ _ _ Hd Hu)).
    destruct (is_member d (pk self) (pk u)).
    + rewrite (bind_inr _ _ d d tt)
        by (by rewrite (bind_inr _ _ _ _ _ Hsend)).
      apply IH; [done|done|].
      intros k i Hk Ht Hin. apply (Hinv k i Hk Ht).
      rewrite fmap_cons. by apply list_elem_of_further.
    + destruct (decide _) as [(k & i & Hk & Hr & Ht)|Hnone].
      { exfalso. apply (Hinv k i Hk Ht). rewrite fmap_cons, Hr.
        apply list_elem_of_here. }
      rewrite (bind_inr _ _ d _ tt)
        by (by rewrite (bind_inr _ _ _ _ _ Hsend)).
      apply IH; [done|done|]. simpl.
      intros k i. rewrite lookup_insert. case_decide.
      * intros [= <-] _. exact Hfresh.
      * intros Hk Ht Hin. apply (Hinv k i Hk Ht).
        rewrite fmap_cons. by apply list_elem_of_further.
Qed.

Lemma create_team_validated_returns (now : Z) (n d : string) (o : User)
    (invitees : list User) (msg : option string) (db : DB) :
  User_objects_get (PUser o) db = (inr o, db) →
  Forall (λ u, User_objects_get (PUser u) db = (inr u, db)) invitees →
  NoDup (pk <$> invitees) →
  (∀ k i, invitations db !! k = Some i → inv_team i ≠ next_pk (teams db)) →
  ∃ t db', create_team now n d o (PUser <$> invitees) msg db = (inr t, db').
Proof.
  intros Ho Hall Hnd Hnone. unfold create_team.
  rewrite (bind_inr _ _ db
             (set_teams (insert (next_pk (teams db)) (mkTeam n d (pk o) now)) db)
             (mkInst (next_pk (teams db)) (mkTeam n d (pk o) now)))
    by reflexivity.
  destruct (invite_loop_returns now
              (mkInst (next_pk (teams db)) (mkTeam n d (pk o) now))
              o msg db invitees Ho Hall Hnd
              (set_teams (insert (next_pk (teams db))
                            (mkTeam n d (pk o) now)) db))
    as [d' Hloop]; [done| |].
  { intros k i Hk Ht. by destruct (Hnone k i Hk). }
  rewrite (bind_inr _ _ _ _ _ Hloop). by eexists _, _.
Qed.

(** The lists [CreateTeamView] passes on satisfy that: creating a team
    for user 1 with users 2 and 3 invited returns. *)
Example create_team_validated_returns_sample :
  ∃ t db', create_team 5 "Second Team" "" Sample.johndoe
             (PUser <$> [Sample.janedoe; Sample.petra]) (Some "join")
             Sample.db0 = (inr t, db').
Proof.
  apply create_team_validated_returns.
  - reflexivity.
  - repeat constructor.
  - simpl. apply NoDup_cons. split.
    + intros H%list_elem_of_singleton. discriminate H.
    + apply NoDup_singleton.
  - intros k i H. simpl in H. by rewrite lookup_empty in H.
Qed.

(** ** Scenarios *)

(** A team created by [@johndoe] with invitee [@janedoe] and message
    "join": one invitation from the owner to the invitee is stored and
    the owner is the only member of the new team. When [@janedoe] accepts,
    both are members and no invitation is left. *)
Example create_then_accept :
  ∃ t db1 db2,
    create_team 5 "Test Team" "" Sample.johndoe [PUser Sample.janedoe]
      (Some "join") Sample.users_only = (inr t, db1)
    ∧ pk t = 1
    ∧ invitations db1 = {[ 1 := mkInvitation 1 2 1 "join" 5 ]}
    ∧ members db1 = {[ (1, 1) ]}
    ∧ perform (ReqAccept 1 Sample.janedoe) db1 = (inr tt, db2)
    ∧ members db2 = {[ (1, 1); (1, 2) ]}
    ∧ invitations db2 = ∅.
Proof.
  eexists _, _, _. split; [vm_compute; reflexivity|].
  split; [reflexivity|]. split; [reflexivity|]. split; [reflexivity|].
  split; [vm_compute; reflexivity|]. split; vm_compute; reflexivity.
Qed.

(** A task due one day ago is refused with the message of the validator,
    and nothing is stored. *)
Example create_task_due_yesterday :
  CreateTaskView_post (2 * one_day) 1
    (mkTaskForm "Write report" "" one_day 1 "Not Started" 1 1) Sample.db0
  = (inr (Render "create_task.html" ["Due date must be in the future."]),
     Sample.db0).
Proof. vm_compute. reflexivity. Qed.

(** * The team form *)

(** ** [clean_members] *)

Lemma User_objects_get_fst_inr (a : PyArg) (u : User) (db : DB) :
  (User_objects_get a db).1 = inr u → User_objects_get a db = (inr u, db).
Proof.
  intros H. pose proof (User_objects_get_db a db) as Hdb.
  destruct (User_objects_get a db) as [r d]. simpl in *. by subst.
Qed.

(** An instance that a lookup by name returned resolves to itself. *)
Lemma resolved_instance_resolves (a : PyArg) (u : User) (db : DB) :
  User_objects_get a db = (inr u, db) →
  User_objects_get (PUser u) db = (inr u, db).
Proof.
  intros H. pose proof (User_objects_get_inr _ _ _ _ H) as (_ & _ & Hn).
  unfold User_objects_get in *. simpl. by rewrite Hn.
Qed.

Lemma _check_user_validity_grows (db : DB) (own : User) (team : option Team)
    (user : User) (member : string) (ms ms' : list User) (es es' : list string)
    (raised : bool) :
  _check_user_validity db own team user member ms es = (raised, (ms', es')) →
  ∃ extra, es' = es ++ extra
    ∧ (username (row user) = username (row own) → cannot_add_yourself ∈ extra)
    ∧ (raised = false → extra = [] →
       ms' = ms ++ [user]
       ∧ username (row user) ≠ username (row own)
       ∧ match team with
         | None => True
         | Some t =>
             invitation_pending db (pk user) (pk t) = false
             ∧ (is_member db (pk t) (pk user) = true →
                ∃ team_owner, users db !! owner (row t) = Some team_owner
                              ∧ username (row user) = username team_owner)
         end).
Proof.
  unfold _check_user_validity. case_bool_decide as Hself.
  { intros [= <- <- <-]. exists [cannot_add_yourself].
    split; [done|]. split; [intros _; apply list_elem_of_here|].
    intros _ [=]. }
  destruct team as [t|].
  2:{ intros [= <- <- <-]. exists []. rewrite app_nil_r. done. }
  destruct (invitation_pending db (pk user) (pk t)) eqn:Hp;
    destruct (is_member db (pk t) (pk user)) eqn:Hm.
  - destruct (users db !! owner (row t)) as [o|] eqn:Ho; intros [= <- <- <-].
    + eexists. split; [done|]. split; [done|]. intros _ He.
      by apply app_eq_nil in He as [_ [=]].
    + exists []. rewrite app_nil_r. split; [done|]. split; [done|]. done.
  - intros [= <- <- <-]. eexists. split; [done|]. split; [done|].
    intros _ [=].
  - destruct (users db !! owner (row t)) as [o|] eqn:Ho; intros [= <- <- <-].
    + eexists. split; [done|]. split; [done|]. intros _ He.
      rewrite app_nil_r in He. case_bool_decide as Hn; [discriminate He|].
      split_and!; try done. intros _. exists o. split; [done|].
      destruct (decide (username (row user) = username o)); [done|].
      by destruct Hn.
    + exists []. rewrite app_nil_r. split; [done|]. split; [done|]. done.
  - intros [= <- <- <-]. exists []. rewrite !app_nil_r.
    split; [done|]. split; [done|]. intros _ _. split_and!; done.
Qed.

Lemma seen_add_other (n m : string) (seen : gset string) :
  n ≠ m → n ∉ seen → n ∉ ({[ m ]} ∪ seen : gset string).
Proof. intros Hne Hn [Hin%elem_of_singleton|Hin]%elem_of_union; done. Qed.

Lemma seen_add_here (m : string) (seen : gset string) :
  m ∈ ({[ m ]} ∪ seen : gset string).
Proof. by apply elem_of_union_l, elem_of_singleton. Qed.

Lemma seen_add_further (n m : string) (seen : gset string) :
  n ∈ seen → n ∈ ({[ m ]} ∪ seen : gset string).
Proof. apply elem_of_union_r. Qed.

Lemma seen_before (n m : string) (seen : gset string) :
  n ∉ ({[ m ]} ∪ seen : gset string) → n ∉ seen.
Proof. intros Hn Hin. by apply Hn, seen_add_further. Qed.

Lemma member_accepted_seen (db : DB) (own : User) (team : option Team)
    (seen seen' : gset string) (n : string) (u : User) :
  seen' ⊆ seen → member_accepted db own team seen n u →
  member_accepted db own team seen' n u.
Proof.
  intros Hs (Hn & Hrest). split; [|done].
  intros Hin. apply Hn. by apply Hs.
Qed.

Lemma _validate_member_step (db : DB) (own : User) (team : option Team)
    (n : string) (ms ms' : list User) (seen : gset string)
    (es es' : list string) :
  _validate_member db own team n ms seen es = inr (ms', es') →
  ∃ extra, es' = es ++ extra
    ∧ (n ∈ seen → duplicate_entry n ∈ extra)
    ∧ (n ∉ seen → (User_objects_get (PStr n) db).1 = inl DoesNotExist →
       does_not_exist n ∈ extra)
    ∧ (n ∉ seen → ∀ u, (User_objects_get (PStr n) db).1 = inr u →
       username (row u) = username (row own) → cannot_add_yourself ∈ extra)
    ∧ (extra = [] →
       ∃ u, ms' = ms ++ [u] ∧ member_accepted db own team seen n u).
Proof.
  unfold _validate_member, _is_duplicate. case_bool_decide as Hseen.
  { intros [= <- <-]. exists [duplicate_entry n].
    split_and!; try done.
    intros _. apply list_elem_of_here. }
  destruct (User_objects_get (PStr n) db).1 as [e|u] eqn:Hget.
  { destruct e; try discriminate. intros [= <- <-].
    exists [does_not_exist n]. split_and!; try done.
    intros _ _. apply list_elem_of_here. }
  destruct (_check_user_validity db own team u n ms es)
    as [raised [ms1 es1]] eqn:Hcheck.
  apply _check_user_validity_grows in Hcheck as (extra & -> & Hself & Hok).
  destruct raised; intros [= <- <-].
  - exists (extra ++ [does_not_exist n]). rewrite app_assoc.
    split_and!; try done.
    + intros _ u' [= <-] Hu. apply elem_of_app. left. by apply Hself.
    + intros [_ [=]]%app_eq_nil.
  - exists extra. split_and!; try done.
    + intros _ u' [= <-] Hu. by apply Hself.
    + intros He. destruct (Hok eq_refl He) as (-> & Hne & Hteam).
      exists u. split; [done|]. split; [done|].
      split; [by apply User_objects_get_fst_inr|]. done.
Qed.

Lemma validate_members_sound (db : DB) (own : User) (team : option Team)
    (names : list string) :
  ∀ (ms : list User) (seen : gset string) (es : list string) (ms' : list User),
    validate_members db own team names ms seen es = inr (ms', []) →
    es = []
    ∧ ∃ us, ms' = ms ++ us
        ∧ Forall2 (member_accepted db own team ∅) names us
        ∧ NoDup names
        ∧ ∀ n, n ∈ names → n ∉ seen.
Proof.
  induction names as [|n names IH]; intros ms seen es ms'; simpl.
  - intros [= Hms Hes]. subst ms' es. split; [done|].
    exists (@nil User). rewrite app_nil_r.
    split_and!; [done|constructor|constructor|]. intros n H.
    by apply not_elem_of_nil in H.
  - destruct (_validate_member db own team n ms seen es) as [e|[ms1 es1]]
      eqn:Hstep; [discriminate|].
    intros Hrest. apply IH in Hrest as (-> & us & -> & Hall & Hnd & Hseen).
    apply _validate_member_step in Hstep as (extra & Hes & _ & _ & _ & Hok).
    symmetry in Hes. apply app_eq_nil in Hes as [-> ->].
    destruct (Hok eq_refl) as (u & -> & Hacc).
    split; [done|]. exists (u :: us). rewrite <- app_assoc.
    split; [done|]. split_and!.
    + constructor; [|done].
      eapply member_accepted_seen; [|exact Hacc]. apply empty_subseteq.
    + constructor; [|done]. intros Hin. apply (Hseen n Hin), seen_add_here.
    + intros n' [->|Hin]%elem_of_cons.
      * by destruct Hacc.
      * eapply seen_before. by apply Hseen.
Qed.

Lemma validate_members_reports (db : DB) (own : User) (team : option Team)
    (names : list string) :
  ∀ (ms : list User) (seen : gset string) (es : list string)
    (ms' : list User) (es' : list string),
    validate_members db own team names ms seen es = inr (ms', es') →
    (∃ extra, es' = es ++ extra)
    ∧ (∀ n, n ∈ names → n ∈ seen → duplicate_entry n ∈ es')
    ∧ (∀ n, n ∈ names → n ∉ seen →
         (User_objects_get (PStr n) db).1 = inl DoesNotExist →
         does_not_exist n ∈ es')
    ∧ (∀ n u, n ∈ names → n ∉ seen →
         (User_objects_get (PStr n) db).1 = inr u →
         username (row u) = username (row own) →
         cannot_add_yourself ∈ es')
    ∧ (¬ NoDup names → ∃ n, n ∈ names ∧ duplicate_entry n ∈ es').
Proof.
  induction names as [|n names IH]; intros ms seen es ms' es'; simpl.
  - intros [= <- <-]. split; [exists []; by rewrite app_nil_r|].
    split_and!; try (by intros ? H; apply not_elem_of_nil in H).
    + intros ? ? H. by apply not_elem_of_nil in H.
    + intros H. destruct H. constructor.
  - destruct (_validate_member db own team n ms seen es) as [e|[ms1 es1]]
      eqn:Hstep; [discriminate|].
    intros Hrest. apply IH in Hrest as ((ex2 & ->) & Hdup & Hunk & Hself & Hnd).
    apply _validate_member_step in Hstep
      as (extra & -> & Sdup & Sunk & Sself & _).
    assert (Hmono : ∀ m, m ∈ extra → m ∈ (es ++ extra) ++ ex2).
    { intros m Hm. apply elem_of_app. left.
      apply elem_of_app. by right. }
    split; [exists (extra ++ ex2); by rewrite app_assoc|]. split_and!.
    + intros n' [->|Hin]%elem_of_cons Hs.
      * apply Hmono. by apply Sdup.
      * apply Hdup; [done|]. by apply seen_add_further.
    + intros n' [->|Hin]%elem_of_cons Hs Hu.
      * apply Hmono. by apply Sunk.
      * destruct (decide (n' = n)) as [->|Hne].
        -- apply Hmono. by apply Sunk.
        -- apply Hunk; [done| |done]. by apply seen_add_other.
    + intros n' u [->|Hin]%elem_of_cons Hs Hu Hown.
      * apply Hmono. by eapply Sself.
      * destruct (decide (n' = n)) as [->|Hne].
        -- apply Hmono. by eapply Sself.
        -- eapply Hself; [done| |done|done]. by apply seen_add_other.
    + intros Hn. destruct (decide (n ∈ names)) as [Hin|Hout].
      * exists n. split; [apply list_elem_of_here|].
        apply Hdup; [done|]. apply seen_add_here.
      * destruct Hnd as (n' & Hin' & Hmsg).
        { intros Hnd'. apply Hn. by constructor. }
        exists n'. split; [by apply list_elem_of_further|done].
Qed.

Lemma clean_members_inr (db : DB) (own : User) (team : option Team)
    (input : string) (ms : list User) :
  clean_members db own team input = inr ms →
  Forall2 (member_accepted db own team ∅) (member_names input) ms
  ∧ NoDup (member_names input).
Proof.
  unfold clean_members.
  destruct (validate_members _ _ _ _ _ _ _) as [e|[ms' es]] eqn:Hloop;
    [discriminate|].
  destruct es as [|e es]; [|discriminate]. intros [= <-].
  apply validate_members_sound in Hloop as (_ & us & -> & Hall & Hnd & _).
  done.
Qed.

Lemma accepted_names (db : DB) (own : User) (team : option Team)
    (names : list string) (ms : list User) :
  Forall2 (member_accepted db own team ∅) names ms →
  (λ u, username (row u)) <$> ms = names.
Proof.
  induction 1 as [|n u names ms (_ & Hget & _) _ IH]; [done|].
  rewrite fmap_cons, IH. f_equal.
  by apply User_objects_get_inr in Hget as (_ & _ & ->).
Qed.

Lemma accepted_distinct (db : DB) (own : User) (team : option Team)
    (names : list string) (ms : list User) :
  Forall2 (member_accepted db own team ∅) names ms →
  NoDup names → NoDup (pk <$> ms).
Proof.
  induction 1 as [|n u names ms (_ & Hget & _) Hall IH]; intros Hnd.
  - constructor.
  - apply NoDup_cons in Hnd as [Hn Hnd]. rewrite fmap_cons.
    constructor; [|by apply IH].
    intros Hin. apply Hn.
    apply list_elem_of_fmap in Hin as (u' & Hpk & Hu').
    apply User_objects_get_inr in Hget as (_ & Hrow & Hname).
    rewrite <- (accepted_names _ _ _ _ _ Hall).
    apply list_elem_of_fmap. exists u'. split; [|done].
    assert (Hu'row : users db !! pk u' = Some (row u')).
    { apply list_elem_of_lookup in Hu' as [i Hi].
      destruct (Forall2_lookup_r _ _ _ _ _ Hall Hi) as (n' & _ & _ & Hg & _).
      by apply User_objects_get_inr in Hg as (_ & ? & _). }
    rewrite <- Hpk, Hrow in Hu'row. injection Hu'row as <-.
    symmetry. exact Hname.
Qed.

Lemma accepted_resolve (db : DB) (own : User) (team : option Team)
    (names : list string) (ms : list User) :
  Forall2 (member_accepted db own team ∅) names ms →
  Forall (λ u, User_objects_get (PUser u) db = (inr u, db)) ms.
Proof.
  induction 1 as [|n u names ms' (_ & Hget & _) _ IH]; constructor; [|done].
  by eapply resolved_instance_resolves.
Qed.

(** X1. When [TeamForm.clean_members] returns, it returns the stored
    users named in the field, one for each non-blank name and in the
    order of the names: the names are pairwise different, so are the
    users, each user is found again by its own instance, and none has
    the username of the acting user. *)
Theorem clean_members_returns_named_users (db : DB) (own : User)
    (team : option Team) (input : string) (ms : list User) :
  clean_members db own team input = inr ms →
  (λ u, username (row u)) <$> ms = member_names input
  ∧ NoDup (member_names input)
  ∧ NoDup (pk <$> ms)
  ∧ Forall (λ u, User_objects_get (PUser u) db = (inr u, db)
                 ∧ username (row u) ≠ username (row own)) ms.
Proof.
  intros [Hall Hnd]%clean_members_inr. split_and!.
  - by eapply accepted_names.
  - done.
  - by eapply accepted_distinct.
  - clear Hnd. induction Hall as [|n u names ms' (_ & Hget & Hne & _) _ IH];
      constructor; [|done].
    split; [|done]. by eapply resolved_instance_resolves.
Qed.

Lemma clean_members_returns_named_users_witness :
  clean_members Sample.db0 Sample.johndoe None " @janedoe, ,@petrapickles,"
  = inr [Sample.janedoe; Sample.petra]
  ∧ (λ u, username (row u)) <$> [Sample.janedoe; Sample.petra]
    = member_names " @janedoe, ,@petrapickles,"
  ∧ NoDup (member_names " @janedoe, ,@petrapickles,")
  ∧ NoDup (pk <$> [Sample.janedoe; Sample.petra])
  ∧ Forall (λ u, User_objects_get (PUser u) Sample.db0 = (inr u, Sample.db0)
                 ∧ username (row u) ≠ username (row Sample.johndoe))
      [Sample.janedoe; Sample.petra].
Proof.
  assert (H : clean_members Sample.db0 Sample.johndoe None
                " @janedoe, ,@petrapickles,"
              = inr [Sample.janedoe; Sample.petra]) by (vm_compute; reflexivity).
  split; [exact H|].
  exact (clean_members_returns_named_users _ _ _ _ _ H).
Defined.

(** X2. For the form of an existing team, a list [clean_members] returns
    holds no user with an invitation to that team pending, and a member
    of the team only if that member bears the username of its owner. *)
Theorem clean_members_for_edit (db : DB) (own : User) (team : Team)
    (input : string) (ms : list User) :
  clean_members db own (Some team) input = inr ms →
  Forall (λ u,
    invitation_pending db (pk u) (pk team) = false
    ∧ (is_member db (pk team) (pk u) = true →
       ∃ team_owner, users db !! owner (row team) = Some team_owner
                     ∧ username (row u) = username team_owner)) ms.
Proof.
  intros [Hall _]%clean_members_inr.
  induction Hall as [|n u names ms' (_ & _ & _ & Hteam) _ IH];
    constructor; done.
Qed.

Lemma clean_members_for_edit_witness :
  clean_members Sample.db1 Sample.johndoe (Some Sample.test_team)
    "@petrapickles" = inr [Sample.petra]
  ∧ Forall (λ u,
      invitation_pending Sample.db1 (pk u) (pk Sample.test_team) = false
      ∧ (is_member Sample.db1 (pk Sample.test_team) (pk u) = true →
         ∃ team_owner,
           users Sample.db1 !! owner (row Sample.test_team) = Some team_owner
           ∧ username (row u) = username team_owner)) [Sample.petra].
Proof.
  assert (H : clean_members Sample.db1 Sample.johndoe (Some Sample.test_team)
                "@petrapickles" = inr [Sample.petra])
    by (vm_compute; reflexivity).
  split; [exact H|].
  exact (clean_members_for_edit _ _ _ _ _ H).
Defined.

Lemma User_objects_get_exn (a : PyArg) (db : DB) (e : exn) :
  (User_objects_get a db).1 = inl e →
  e = DoesNotExist ∨ e = MultipleObjectsReturned.
Proof.
  unfold User_objects_get.
  destruct (map_to_list _) as [|[k r] [|? ?]]; simpl; intros [= <-]; auto.
Qed.

(** Only an ambiguous lookup makes the loop itself raise. *)
Lemma validate_members_inl (db : DB) (own : User) (team : option Team)
    (names : list string) :
  ∀ (ms : list User) (seen : gset string) (es : list string) (e : exn),
    validate_members db own team names ms seen es = inl e →
    e = MultipleObjectsReturned.
Proof.
  induction names as [|n names IH]; intros ms seen es e; simpl;
    [discriminate|].
  destruct (_validate_member db own team n ms seen es) as [e'|[ms1 es1]]
    eqn:Hstep; [|by apply IH].
  intros [= <-]. unfold _validate_member in Hstep.
  destruct (_is_duplicate n seen); [discriminate|].
  destruct (User_objects_get (PStr n) db).1 as [e1|u] eqn:Hget.
  - apply User_objects_get_exn in Hget as [->| ->]; [discriminate|].
    by injection Hstep as <-.
  - destruct (_check_user_validity db own team u n ms es) as [[] []];
      discriminate.
Qed.

(** Every name that comes a second time in the list gets its duplicate
    message, whatever else the list holds. *)
Lemma validate_members_reports_twice (db : DB) (own : User)
    (team : option Team) (names : list string) :
  ∀ (ms : list User) (seen : gset string) (es : list string)
    (ms' : list User) (es' : list string) (i j : nat) (n : string),
    validate_members db own team names ms seen es = inr (ms', es') →
    (i < j)%nat → names !! i = Some n → names !! j = Some n →
    duplicate_entry n ∈ es'.
Proof.
  induction names as [|a names IH]; intros ms seen es ms' es' i j n Hrun Hij Hi Hj.
  { by rewrite lookup_nil in Hi. }
  simpl in Hrun.
  destruct (_validate_member db own team a ms seen es) as [e|[ms1 es1]]
    eqn:Hstep; [discriminate|].
  destruct j as [|j]; [lia|]. simpl in Hj.
  destruct i as [|i]; simpl in Hi.
  - injection Hi as ->.
    apply validate_members_reports in Hrun as (_ & Hdup & _).
    apply Hdup; [by eapply list_elem_of_lookup_2|]. apply seen_add_here.
  - eapply (IH _ _ _ _ _ i j n Hrun); [lia|done|done].
Qed.

(** X3. When [clean_members] raises its [ValidationError], the error
    list is not empty and names every offence: every name that is given
    twice has its duplicate message, every name no user bears has its
    does-not-exist message, and the acting user's own name has the
    cannot-add-yourself message. *)
Theorem clean_members_reports (db : DB) (own : User) (team : option Team)
    (input : string) (es : list string) :
  clean_members db own team input = inl (ValidationError es) →
  es ≠ []
  ∧ (∀ n (i j : nat), (i < j)%nat →
       member_names input !! i = Some n →
       member_names input !! j = Some n →
       duplicate_entry n ∈ es)
  ∧ (∀ n, n ∈ member_names input →
       (User_objects_get (PStr n) db).1 = inl DoesNotExist →
       does_not_exist n ∈ es)
  ∧ (∀ n u, n ∈ member_names input →
       (User_objects_get (PStr n) db).1 = inr u →
       username (row u) = username (row own) →
       cannot_add_yourself ∈ es).
Proof.
  unfold clean_members.
  destruct (validate_members _ _ _ _ _ _ _) as [e|[ms' es']] eqn:Hloop.
  - apply validate_members_inl in Hloop as ->. discriminate.
  - destruct es' as [|e es']; [discriminate|]. simpl. intros [= <-].
    pose proof (λ i j n,
                  validate_members_reports_twice _ _ _ _ _ _ _ _ _ i j n Hloop)
      as Htwice.
    apply validate_members_reports in Hloop as (_ & _ & Hunk & Hself & _).
    split_and!; [done| | |].
    + intros n i j. apply (Htwice i j n).
    + intros n Hin. apply Hunk; [done|]. apply not_elem_of_empty.
    + intros n u Hin. apply Hself; [done|]. apply not_elem_of_empty.
Qed.

Lemma clean_members_reports_witness :
  let input := "@janedoe,@janedoe,@petrapickles, @nobody,@petrapickles,@johndoe" in
  let es := [duplicate_entry "@janedoe"; does_not_exist "@nobody";
             duplicate_entry "@petrapickles"; cannot_add_yourself] in
  clean_members Sample.db0 Sample.johndoe None input
  = inl (ValidationError es)
  ∧ es ≠ []
  ∧ (∀ n (i j : nat), (i < j)%nat →
       member_names input !! i = Some n →
       member_names input !! j = Some n →
       duplicate_entry n ∈ es)
  ∧ (∀ n, n ∈ member_names input →
       (User_objects_get (PStr n) Sample.db0).1 = inl DoesNotExist →
       does_not_exist n ∈ es)
  ∧ (∀ n u, n ∈ member_names input →
       (User_objects_get (PStr n) Sample.db0).1 = inr u →
       username (row u) = username (row Sample.johndoe) →
       cannot_add_yourself ∈ es).
Proof.
  intros input es.
  assert (H : clean_members Sample.db0 Sample.johndoe None input
              = inl (ValidationError es)) by (vm_compute; reflexivity).
  split; [exact H|].
  exact (clean_members_reports _ _ _ _ _ H).
Defined.

(** X4. One bad name refuses the whole list: if a name is given twice, or
    a name is that of no user, or a name is the acting user's own, then
    [clean_members] returns no list, whatever the other names are. *)
Theorem clean_members_all_or_nothing (db : DB) (own : User)
    (team : option Team) (input : string) (n : string) :
  n ∈ member_names input →
  ¬ NoDup (member_names input)
  ∨ (User_objects_get (PStr n) db).1 = inl DoesNotExist
  ∨ (∃ u, (User_objects_get (PStr n) db).1 = inr u
          ∧ username (row u) = username (row own)) →
  ∀ ms, clean_members db own team input ≠ inr ms.
Proof.
  intros Hin Hbad ms [Hall Hnd]%clean_members_inr.
  destruct Hbad as [Hdup|Hbad]; [done|].
  apply list_elem_of_lookup in Hin as [i Hi].
  destruct (Forall2_lookup_l _ _ _ _ _ Hall Hi) as (u & _ & _ & Hget & Hne & _).
  rewrite Hget in Hbad. simpl in Hbad.
  destruct Hbad as [[=]|(u' & [= <-] & Hown)]. done.
Qed.

Lemma clean_members_all_or_nothing_witness :
  let input := "@janedoe, @nobody" in
  "@nobody" ∈ member_names input
  ∧ (User_objects_get (PStr "@nobody") Sample.db0).1 = inl DoesNotExist
  ∧ ∀ ms, clean_members Sample.db0 Sample.johndoe None input ≠ inr ms.
Proof.
  intros input.
  assert (H1 : "@nobody" ∈ member_names input).
  { vm_compute. apply list_elem_of_further, list_elem_of_here. }
  assert (H2 : (User_objects_get (PStr "@nobody") Sample.db0).1
               = inl DoesNotExist) by reflexivity.
  split; [exact H1|]. split; [exact H2|].
  exact (clean_members_all_or_nothing Sample.db0 Sample.johndoe None input
           "@nobody" H1 (or_intror (or_introl H2))).
Defined.

(** ** From the validated form to the stored team *)

Ltac users_finish :=
  first
    [ apply preserves_update; intros ? ?; simpl; congruence
    | intros ? ?; simpl; congruence ].

Lemma send_invitation_users (U : gmap Z UserRow) (now : Z) (self : Team)
    (s r : PyArg) (msg : option string) :
  preserves (λ d, users d = U) (send_invitation now self s r msg).
Proof.
  unfold send_invitation. preserves_split.
  intros d H. unfold Invitation_objects_create. by destruct (decide _).
Qed.

Lemma remove_member_users (U : gmap Z UserRow) (self : Team) (who : PyArg) :
  preserves (λ d, users d = U) (remove_member self who).
Proof. unfold remove_member, remove_task. preserves_split; users_finish. Qed.

Lemma remove_member_teams (T : gmap Z TeamRow) (self : Team) (who : PyArg) :
  preserves (λ d, teams d = T) (remove_member self who).
Proof. unfold remove_member, remove_task. preserves_split; users_finish. Qed.

(** Called with the instance of a stored user, [remove_member] returns. *)
Lemma remove_member_instance_returns (self : Team) (u : User) (db : DB) :
  User_objects_get (PUser u) db = (inr u, db) →
  ∃ b db', remove_member self (PUser u) db = (inr b, db').
Proof.
  intros Hu.
  destruct (decide (owner (row self) = pk u)) as [Ho|Ho].
  { eexists _, _. by eapply remove_member_owner. }
  destruct (decide ((pk self, pk u) ∈ members db)) as [Hm|Hm].
  - eexists _, _. by eapply remove_member_instance.
  - eexists _, _. by eapply remove_member_not_member.
Qed.

Lemma remove_loop_returns (self : Team) (db : DB) (rm : list User) :
  Forall (λ m, User_objects_get (PUser m) db = (inr m, db)) rm →
  ∀ d, users d = users db →
    ∃ d', for_each (PUser <$> rm) (λ member,
            remove_member self member;; mret tt) d = (inr tt, d')
      ∧ users d' = users db ∧ teams d' = teams d.
Proof.
  induction 1 as [|m rm Hm _ IH]; intros d Hd.
  - by exists d.
  - rewrite fmap_cons. simpl for_each.
    destruct (remove_member_instance_returns self m d
                (User_objects_get_same_users _ _ _ _ Hd Hm)) as (b & d1 & Hrun).
    pose proof (remove_member_users (users db) self (PUser m) d Hd) as Hu1.
    pose proof (remove_member_teams (teams d) self (PUser m) d eq_refl) as Ht1.
    rewrite Hrun in Hu1, Ht1. simpl in Hu1, Ht1.
    rewrite (bind_inr _ _ d d1 tt) by (by rewrite (bind_inr _ _ _ _ _ Hrun)).
    destruct (IH d1 Hu1) as (d' & Hloop & Hu' & Ht').
    exists d'. split; [done|]. split; [done|]. congruence.
Qed.

Lemma invite_loop_users (U : gmap Z UserRow) (now : Z) (self : Team)
    (o : PyArg) (invitees : list PyArg) (msg : option string) :
  preserves (λ d, users d = U)
    (for_each invitees (λ member,
       send_invitation now self o member msg;; mret tt)).
Proof.
  apply preserves_for_each. intros member.
  apply preserves_bind; [apply send_invitation_users|].
  intros _. apply preserves_ret.
Qed.

(** The invitation loop on users that resolve, are pairwise different,
    have no invitation to the team yet and are not members: it returns,
    keeps every stored invitation and stores one for each user. *)
Lemma invite_loop_effect (now : Z) (self : Team) (o : User)
    (msg : option string) (db : DB) (rest : list User) :
  User_objects_get (PUser o) db = (inr o, db) →
  Forall (λ u, User_objects_get (PUser u) db = (inr u, db)) rest →
  NoDup (pk <$> rest) →
  ∀ d, users d = users db →
    (∀ k i, invitations d !! k = Some i → inv_team i = pk self →
            recipient i ∉ pk <$> rest) →
    (∀ u, u ∈ rest → (pk self, pk u) ∉ members d) →
    ∃ d', for_each (PUser <$> rest) (λ member,
            send_invitation now self (PUser o) member msg;; mret tt) d
          = (inr tt, d')
      ∧ (∀ k i, invitations d !! k = Some i → invitations d' !! k = Some i)
      ∧ (∀ u, u ∈ rest →
           ∃ k, invitations d' !! k
                = Some (mkInvitation (pk o) (pk u) (pk self)
                          (default "" msg) now)).
Proof.
  intros Ho Hall.
  induction Hall as [|u rest Hu Hall IH]; intros Hnd d Hd Hinv Hmem.
  - exists d. split; [done|]. split; [done|].
    intros u Hin. by apply not_elem_of_nil in Hin.
  - rewrite fmap_cons in Hnd. apply NoDup_cons in Hnd as [Hfresh Hnd].
    rewrite fmap_cons. simpl for_each.
    assert (Hsend := send_invitation_resolved now self (PUser o) (PUser u)
              msg d o u (User_objects_get_same_users _ _ _ _ Hd Ho)
              (User_objects_get_same_users _ _ _ _ Hd Hu)).
    unfold is_member in Hsend.
    rewrite (bool_decide_eq_false_2 _ (Hmem u (list_elem_of_here _ _)))
      in Hsend.
    destruct (decide _) as [(k & i & Hk & Hr & Ht)|Hnone].
    { exfalso. apply (Hinv k i Hk Ht). rewrite fmap_cons, Hr.
      apply list_elem_of_here. }
    rewrite (bind_inr _ _ d _ tt)
      by (by rewrite (bind_inr _ _ _ _ _ Hsend)).
    destruct (IH Hnd
                (set_invitations
                   (insert (next_pk (invitations d))
                      (mkInvitation (pk o) (pk u) (pk self) (default "" msg)
                         now)) d) Hd)
      as (d' & Hloop & Hkeep & Hnew).
    + simpl. intros k i. rewrite lookup_insert. case_decide.
      * intros [= <-] _. exact Hfresh.
      * intros Hk Ht Hin. apply (Hinv k i Hk Ht).
        rewrite fmap_cons. by apply list_elem_of_further.
    + simpl. intros u' Hin. apply Hmem. by apply list_elem_of_further.
    + exists d'. split; [exact Hloop|]. split.
      * intros k i Hk. apply Hkeep. simpl.
        rewrite lookup_insert_ne; [done|].
        intros <-. by rewrite next_pk_fresh in Hk.
      * intros u' [->|Hin]%elem_of_cons; [|by apply Hnew].
        exists (next_pk (invitations d)). apply Hkeep. simpl.
        by rewrite lookup_insert_eq.
Qed.

(** X5. A team form validated for a new team always leads to the team:
    with the acting user stored, the invitees [clean_members] returned
    and no invitation or membership left over for the key the team will
    get, [CreateTeamView.form_valid] raises nothing and redirects with
    its success message. The team is stored under the next key with the
    acting user as owner, who is added to its members; no other team or
    membership changes; every stored invitation stays, and every invitee
    has an invitation to the new team from the acting user with the
    message of the form. *)
Theorem create_team_from_form_returns (now : Z) (user : User)
    (data : TeamFormData) (input : string) (db : DB) :
  User_objects_get (PUser user) db = (inr user, db) →
  clean_members db user None input = inr (c_members data) →
  (∀ k i, invitations db !! k = Some i → inv_team i ≠ next_pk (teams db)) →
  (∀ u, (next_pk (teams db), u) ∉ members db) →
  ∃ db',
    CreateTeamView_form_valid now user data db
    = (inr (Redirect "dashboard" [(SUCCESS, "Team successfully created.")]),
       db')
    ∧ teams db'
      = <[next_pk (teams db) :=
            mkTeam (c_name data) (c_description data) (pk user) now]>
          (teams db)
    ∧ members db' = members db ∪ {[ (next_pk (teams db), pk user) ]}
    ∧ (∀ k i, invitations db !! k = Some i → invitations db' !! k = Some i)
    ∧ (∀ u, u ∈ c_members data →
         ∃ k, invitations db' !! k
              = Some (mkInvitation (pk user) (pk u) (next_pk (teams db))
                        (c_message data) now)).
Proof.
  intros Hu Hclean Hnone Hnomem.
  apply clean_members_inr in Hclean as [Hall Hnd].
  set (knew := next_pk (teams db)).
  set (r := mkTeam (c_name data) (c_description data) (pk user) now).
  destruct (invite_loop_effect now (mkInst knew r) user
              (Some (c_message data)) db (c_members data) Hu
              (accepted_resolve _ _ _ _ _ Hall)
              (accepted_distinct _ _ _ _ _ Hall Hnd)
              (set_teams (insert knew r) db) eq_refl)
    as (d' & Hloop & Hkeep & Hnew).
  { intros k i Hk Ht. by destruct (Hnone k i Hk). }
  { intros u _. apply Hnomem. }
  pose proof (invite_loop_frame (set_teams (insert knew r) db) now
                (mkInst knew r) (PUser user) (PUser <$> c_members data)
                (Some (c_message data)) _ (conj eq_refl eq_refl)) as Hframe.
  rewrite Hloop in Hframe. destruct Hframe as [Ht Hm]. simpl in Ht, Hm.
  exists (set_members (λ s, s ∪ {[ (knew, pk user) ]}) d').
  unfold CreateTeamView_form_valid, create_team.
  rewrite (bind_inr _ _ db (set_members (λ s, s ∪ {[ (knew, pk user) ]}) d')
             (mkInst knew r)).
  2:{ rewrite (bind_inr _ _ db (set_teams (insert knew r) db) (mkInst knew r))
        by reflexivity.
      by rewrite (bind_inr _ _ _ _ _ Hloop). }
  split; [done|]. simpl. rewrite Ht, Hm. done.
Qed.

Lemma create_team_from_form_returns_witness :
  let data := mkTeamFormData "Second Team" "" [Sample.janedoe; Sample.petra]
                "join" [] in
  ∃ db',
    CreateTeamView_form_valid 5 Sample.johndoe data Sample.db0
    = (inr (Redirect "dashboard" [(SUCCESS, "Team successfully created.")]),
       db')
    ∧ teams db'
      = <[next_pk (teams Sample.db0) :=
            mkTeam (c_name data) (c_description data) (pk Sample.johndoe) 5]>
          (teams Sample.db0)
    ∧ members db'
      = members Sample.db0 ∪ {[ (next_pk (teams Sample.db0), pk Sample.johndoe) ]}
    ∧ (∀ k i, invitations Sample.db0 !! k = Some i →
              invitations db' !! k = Some i)
    ∧ (∀ u, u ∈ c_members data →
         ∃ k, invitations db' !! k
              = Some (mkInvitation (pk Sample.johndoe) (pk u)
                        (next_pk (teams Sample.db0)) (c_message data) 5)).
Proof.
  intros data.
  apply (create_team_from_form_returns 5 Sample.johndoe data
           "@janedoe, @petrapickles" Sample.db0).
  - reflexivity.
  - vm_compute. reflexivity.
  - intros k i H. simpl in H. by rewrite lookup_empty in H.
  - intros u.
    assert (Hk : next_pk (teams Sample.db0) = 2) by (vm_compute; reflexivity).
    rewrite Hk. simpl. intros H%elem_of_singleton. discriminate H.
Defined.

(** X6. A team form validated for an existing team never raises in
    [EditTeamView.form_valid]: with the acting user found by username,
    the invitees [clean_members] returned for this team and the users to
    remove given as instances of stored users, [edit_team] finishes both
    loops, saves and the view redirects with "Team updated!". The stored
    team then has the new name and description and its former owner and
    creation time; the other teams and the users are as before. *)
Theorem edit_team_from_form_returns (now : Z) (user : User) (k : Z)
    (t : TeamRow) (data : TeamFormData) (input : string) (db : DB) :
  teams db !! k = Some t →
  User_objects_get (PStr (username (row user))) db = (inr user, db) →
  clean_members db user (Some (mkInst k t)) input = inr (c_members data) →
  Forall (λ m, User_objects_get (PUser m) db = (inr m, db))
    (c_remove_members data) →
  ∃ db',
    EditTeamView_form_valid now user k data db
    = (inr (Redirect "team_detail" [(SUCCESS, "Team updated!")]), db')
    ∧ teams db'
      = <[k := mkTeam (c_name data) (c_description data) (owner t)
                 (team_created_at t)]> (teams db)
    ∧ users db' = users db.
Proof.
  intros Ht Hu Hclean Hrm.
  apply clean_members_inr in Hclean as [Hall Hnd].
  set (r := mkTeam (c_name data) (c_description data) (owner t)
              (team_created_at t)).
  assert (Hnopending : ∀ j i, invitations db !! j = Some i →
            inv_team i = k → recipient i ∉ pk <$> c_members data).
  { intros j i Hj Hteam Hin.
    apply list_elem_of_fmap in Hin as (u & Hr & Hin).
    apply list_elem_of_lookup in Hin as [n Hn].
    destruct (Forall2_lookup_r _ _ _ _ _ Hall Hn)
      as (name & _ & _ & _ & _ & Hp & _).
    unfold invitation_pending in Hp. apply bool_decide_eq_false in Hp.
    apply Hp. by exists j, i. }
  destruct (invite_loop_returns now (mkInst k r) user (Some (c_message data))
              db (c_members data)
              (resolved_instance_resolves _ _ _ Hu)
              (accepted_resolve _ _ _ _ _ Hall)
              (accepted_distinct _ _ _ _ _ Hall Hnd) db eq_refl Hnopending)
    as (d1 & Hloop1).
  pose proof (invite_loop_users (users db) now (mkInst k r) (PUser user)
                (PUser <$> c_members data) (Some (c_message data)) db eq_refl)
    as Hu1.
  pose proof (invite_loop_frame db now (mkInst k r) (PUser user)
                (PUser <$> c_members data) (Some (c_message data)) db
                (conj eq_refl eq_refl)) as [Ht1 _].
  rewrite Hloop1 in Hu1, Ht1. simpl in Hu1, Ht1.
  destruct (remove_loop_returns (mkInst k r) db (c_remove_members data) Hrm
              d1 Hu1) as (d2 & Hloop2 & Hu2 & Ht2).
  exists (set_teams (insert k r) d2).
  unfold EditTeamView_form_valid, edit_team.
  rewrite (bind_inr _ _ db (set_teams (insert k r) d2) (mkInst k r)).
  2:{ rewrite (bind_inr _ _ _ _ _ Hu).
      rewrite (bind_inr _ _ db db (mkInst k t))
        by (unfold Team_objects_get; by rewrite Ht).
      cbv zeta. simpl pk. simpl row. fold r.
      rewrite (bind_inr _ _ _ _ _ Hloop1), (bind_inr _ _ _ _ _ Hloop2).
      reflexivity. }
  split; [done|]. simpl. by rewrite Ht2, Ht1, Hu2.
Qed.

Lemma edit_team_from_form_returns_witness :
  let data := mkTeamFormData "Renamed" "New text" [Sample.peter] "join"
                [Sample.petra] in
  ∃ db',
    EditTeamView_form_valid 5 Sample.johndoe 1 data Sample.db3
    = (inr (Redirect "team_detail" [(SUCCESS, "Team updated!")]), db')
    ∧ teams db'
      = <[1 := mkTeam (c_name data) (c_description data)
                 (owner (row Sample.test_team))
                 (team_created_at (row Sample.test_team))]>
          (teams Sample.db3)
    ∧ users db' = users Sample.db3.
Proof.
  intros data.
  apply (edit_team_from_form_returns 5 Sample.johndoe 1
           (row Sample.test_team) data "@peterpickles" Sample.db3).
  - reflexivity.
  - reflexivity.
  - vm_compute. reflexivity.
  - repeat constructor.
Defined.

(** * Tasks: what a stored task satisfies *)

Lemma clean_char_no_error (required : bool) (max_length : Z) (raw : string) :
  errors_of (clean_char required max_length raw) = [] →
  clean_char required max_length raw = inr (strip raw)
  ∧ Z_length (strip raw) ≤ Z.max 0 max_length
  ∧ (required = true → strip raw ≠ EmptyString).
Proof.
  destruct (clean_char required max_length raw) as [es|v] eqn:E; simpl.
  - intros ->. by apply clean_char_inl in E.
  - intros _. pose proof (clean_char_inr _ _ _ _ E) as [-> Hlen].
    split; [done|]. split; [done|]. intros -> Hempty.
    unfold clean_char in E. rewrite Hempty in E. simpl in E. discriminate E.
Qed.

Lemma title_validators_nil (v : string) :
  title_validators v = [] →
  matches_letter_regex v = true ∧ Z_length v ≤ 50.
Proof.
  unfold title_validators.
  destruct (matches_letter_regex v); [|discriminate].
  destruct (Z.ltb_spec 50 (Z_length v)); [discriminate|]. done.
Qed.

Lemma due_date_nil (now d : Z) :
  validate_due_date_not_in_past now d = [] → now ≤ d.
Proof.
  unfold validate_due_date_not_in_past.
  destruct (Z.ltb_spec d now); [discriminate|done].
Qed.

Lemma priority_nil (p : Z) : priority_validators p = [] → 1 ≤ p ≤ 5.
Proof.
  unfold priority_validators.
  destruct (Z.ltb_spec p 1), (Z.ltb_spec 5 p); simpl; try discriminate.
  intros _. lia.
Qed.

Lemma regex_match_has_letter (v : string) :
  matches_letter_regex v = true → existsb_string is_letter v = true.
Proof.
  unfold matches_letter_regex. intros [_ H]%andb_true_iff.
  by apply existsb_before_final_newline.
Qed.

Lemma if_nil {A : Type} (b : bool) (l : list A) :
  (if b then [] else l) = [] → l ≠ [] → b = true.
Proof. by destruct b. Qed.

(** With a submitted team that is not stored, [Task.clean] reads
    [self.team] on an instance without a team and the form raises. *)
Lemma CreateTaskForm_errors_unknown_team (now k : Z) (f : TaskForm) (db : DB) :
  teams db !! f_team f = None →
  CreateTaskForm_errors now k f db = (inl DoesNotExist, db).
Proof.
  intros Ht. unfold CreateTaskForm_errors. rewrite bind_query. unfold id.
  assert (Hno : ¬ is_Some (teams db !! f_team f)).
  { rewrite Ht. by intros [? ?]. }
  rewrite (bool_decide_eq_false_2 _ Hno). reflexivity.
Qed.

Lemma in_queryset_member (db : DB) (k a : Z) :
  assigned_to_queryset db k a = true →
  is_Some (users db !! a) ∧ (k ≠ 0 → (k, a) ∈ members db).
Proof.
  unfold assigned_to_queryset. intros [Hu Hq]%andb_true_iff.
  apply bool_decide_eq_true in Hu. split; [done|]. intros Hk.
  rewrite (bool_decide_eq_false_2 _ Hk) in Hq.
  destruct (teams db !! k); [|discriminate].
  by apply bool_decide_eq_true in Hq.
Qed.

(** X7. Whatever [CreateTaskView.post] stores was validated: when it
    answers with the redirect to the team, the team of the page exists,
    exactly one row is added under the next key and no stored task
    changes; the row has the stripped title and description, the team of
    the page, and both timestamps equal to now; its due date is not before
    now, its priority lies in 1..5, its title holds a letter and has 1 to
    50 characters, its description at most 500, its status is one of the
    three choices, and its assignee is a stored user who is a member of
    the submitted team and, for a non-zero key, of the team of the page. *)
Theorem create_task_stored_is_valid (now k : Z) (f : TaskForm) (db db' : DB)
    (msgs : list (Level * string)) :
  CreateTaskView_post now k f db = (inr (Redirect "team_detail" msgs), db') →
  is_Some (teams db !! k)
  ∧ db' = set_tasks
            (insert (next_pk (tasks db))
               (mkTask (strip (f_title f)) (strip (f_description f))
                  (f_due_date f) (f_assigned_to f) k (f_status f)
                  (f_priority f) now now)) db
  ∧ (∀ j r, tasks db !! j = Some r → tasks db' !! j = Some r)
  ∧ now ≤ f_due_date f
  ∧ 1 ≤ f_priority f ≤ 5
  ∧ existsb_string is_letter (strip (f_title f)) = true
  ∧ 1 ≤ Z_length (strip (f_title f)) ≤ 50
  ∧ Z_length (strip (f_description f)) ≤ 500
  ∧ f_status f ∈ status_choices
  ∧ is_Some (users db !! f_assigned_to f)
  ∧ (f_team f, f_assigned_to f) ∈ members db
  ∧ (k ≠ 0 → (k, f_assigned_to f) ∈ members db).
Proof.
  unfold CreateTaskView_post. rewrite bind_query.
  destruct (teams db !! k) as [kr|] eqn:Hk; [|discriminate].
  destruct (teams db !! f_team f) as [tr|] eqn:Ht.
  2:{ rewrite (bind_inl _ _ _ _ _
                 (CreateTaskForm_errors_unknown_team now k f db Ht)).
      discriminate. }
  pose proof (CreateTaskForm_errors_known_team now k f db
                (ex_intro _ tr Ht)) as Herr.
  cbv zeta in Herr. rewrite (bind_inr _ _ _ _ _ Herr). clear Herr.
  match goal with |- (match ?l with _ => _ end) _ = _ → _ =>
    destruct l as [|e es] eqn:Hnil; [|discriminate]
  end.
  unfold Task_insert, with_team, CreateTaskForm_save, mbind, M_bind.
  simpl. intros [= <- <-].
  apply app_eq_nil in Hnil as [Htitle Hnil].
  apply app_eq_nil in Hnil as [Hdesc Hnil].
  apply app_eq_nil in Hnil as [Hchosen Hnil].
  apply app_eq_nil in Hnil as [Hstatus Hnil].
  apply app_eq_nil in Hnil as [_ Hnil].
  apply app_eq_nil in Hnil as [_ Hnil].
  apply app_eq_nil in Hnil as [Hmodel Hclean].
  apply app_eq_nil in Hmodel as [Htv Hmodel].
  apply app_eq_nil in Hmodel as [Hdue Hprio].
  apply clean_char_no_error in Htitle as (Hct & Hlt & Hne).
  apply clean_char_no_error in Hdesc as (_ & Hld & _).
  rewrite Hct in Htv. simpl in Htv.
  apply title_validators_nil in Htv as [Hre Hlen].
  apply if_nil in Hchosen; [|done]. apply if_nil in Hstatus; [|done].
  rewrite Hchosen in Hclean. simpl in Hclean.
  apply if_nil in Hclean; [|done].
  apply in_queryset_member in Hchosen as [Huser Hmember].
  split_and!.
  - by eexists.
  - reflexivity.
  - intros j r Hj. simpl. rewrite lookup_insert_ne; [done|].
    intros <-. by rewrite next_pk_fresh in Hj.
  - by apply due_date_nil.
  - by apply priority_nil in Hprio as [? ?].
  - by apply priority_nil in Hprio as [? ?].
  - by apply regex_match_has_letter.
  - specialize (Hne eq_refl). unfold Z_length.
    destruct (strip (f_title f)); [done|]. simpl. lia.
  - exact Hlen.
  - lia.
  - by apply bool_decide_eq_true in Hstatus.
  - exact Huser.
  - unfold is_member in Hclean. by apply bool_decide_eq_true in Hclean.
  - exact Hmember.
Qed.

Lemma create_task_stored_is_valid_witness :
  let f := mkTaskForm " Write report " "First draft" (1000 + one_day) 1
             "Not Started" 3 1 in
  let db' :=
    set_tasks
      (insert (next_pk (tasks Sample.db0))
         (mkTask (strip (f_title f)) (strip (f_description f))
            (f_due_date f) (f_assigned_to f) 1 (f_status f)
            (f_priority f) 1000 1000)) Sample.db0 in
  CreateTaskView_post 1000 1 f Sample.db0
  = (inr (Redirect "team_detail" []), db')
  ∧ 1000 ≤ f_due_date f
  ∧ (f_team f, f_assigned_to f) ∈ members Sample.db0.
Proof.
  intros f db'.
  assert (H : CreateTaskView_post 1000 1 f Sample.db0
              = (inr (Redirect "team_detail" []), db'))
    by (vm_compute; reflexivity).
  split; [exact H|].
  pose proof (create_task_stored_is_valid 1000 1 f Sample.db0 db' [] H)
    as (_ & _ & _ & Hdue & _ & _ & _ & _ & _ & _ & Hmem & _).
  split; [exact Hdue|exact Hmem].
Defined.

(** * Editing and deleting a task *)

(** The errors of the edit form for a task whose team is stored: no
    exception escapes and the store is only read. *)
Lemma EditTaskForm_errors_run (now : Z) (task : Task) (f : TaskForm) (db : DB) :
  is_Some (teams db !! task_team (row task)) →
  let chosen :=
    edit_assigned_to_queryset db (task_team (row task)) (f_assigned_to f) in
  let team_ok := bool_decide (is_Some (teams db !! f_team f)) in
  let team_now := if team_ok then f_team f else task_team (row task) in
  let assignee_now :=
    if chosen then f_assigned_to f else assigned_to (row task) in
  EditTaskForm_errors now task f db
  = (inr (errors_of (clean_char true 50 (f_title f))
          ++ errors_of (clean_char false 500 (f_description f))
          ++ (if chosen then []
              else ["Select a valid choice. That choice is not one of the available choices."])
          ++ (if bool_decide (f_status f ∈ status_choices) then []
              else ["Select a valid choice."])
          ++ (if team_ok then []
              else ["Select a valid choice. That choice is not one of the available choices."])
          ++ (match value_of (clean_char true 50 (f_title f)) with
              | Some v => title_validators v
              | None => []
              end
              ++ validate_due_date_not_in_past now (f_due_date f)
              ++ priority_validators (f_priority f))
          ++ (if is_member db team_now assignee_now then []
              else ["The assigned to user is not part of this team"])),
     db).
Proof.
  intros [tr Htr] chosen team_ok team_now assignee_now.
  unfold EditTaskForm_errors. rewrite bind_query. unfold id.
  fold chosen. fold team_ok.
  assert (Hteam : is_Some (teams db !! team_now)).
  { unfold team_now, team_ok. case_bool_decide; [done|by eexists]. }
  destruct Hteam as [tn Htn].
  assert (Hclean :
    collect_validation
      (Task_clean
         (Some (default (task_team (row task))
                  (value_of (if team_ok then inr (f_team f)
                             else inl ["Select a valid choice. That choice is not one of the available choices."]))))
         (Some (default (assigned_to (row task))
                  (value_of (if chosen then inr (f_assigned_to f)
                             else inl ["Select a valid choice. That choice is not one of the available choices."])))))
      db
    = (inr (if is_member db team_now assignee_now then []
            else ["The assigned to user is not part of this team"]), db)).
  { replace (default (task_team (row task)) _) with team_now
      by (unfold team_now; by destruct team_ok).
    replace (default (assigned_to (row task)) _) with assignee_now
      by (unfold assignee_now; by destruct chosen).
    unfold collect_validation, Task_clean, Team_objects_get, mbind, M_bind,
      query, mret, M_ret. rewrite Htn. simpl.
    fold (is_member db team_now assignee_now).
    by destruct (is_member db team_now assignee_now). }
  rewrite (bind_inr _ _ _ _ _ Hclean).
  by destruct chosen, team_ok, (bool_decide (f_status f ∈ status_choices)).
Qed.

Lemma EditTaskView_post_member (now : Z) (user : User) (k : Z) (delete : bool)
    (f : TaskForm) (db : DB) (t : TaskRow) :
  tasks db !! k = Some t →
  is_Some (teams db !! task_team t) →
  (task_team t, pk user) ∈ members db →
  EditTaskView_post now user k delete f db
  = (if delete then
       update (set_tasks (base.delete k));;
       mret (Redirect "dashboard" [(SUCCESS, "Task deleted successfully.")])
     else
       errors ← EditTaskForm_errors now (mkInst k t) f;
       match errors with
       | [] =>
           update (set_tasks
                     (insert k (EditTaskForm_save now (mkInst k t) f)));;
           mret (Redirect "team_detail"
                   [(SUCCESS, "Task updated successfully.")])
       | _ :: _ => mret (Render "edit_task.html" errors)
       end) db.
Proof.
  intros Ht [tr Htr] Hm. unfold EditTaskView_post, EditTaskView_get_object.
  rewrite bind_query, Ht. simpl.
  rewrite (bind_inr _ _ db db (mkInst (task_team t) tr))
    by (unfold Team_objects_get; by rewrite Htr).
  rewrite bind_query. unfold is_member. simpl.
  by rewrite (bool_decide_eq_true_2 _ Hm).
Qed.

(** X8. [EditTaskView] lets only members of the task's team through: for
    a task that does not exist, or a user who is not a member of the
    team of the task, the request, edit or delete alike, is answered
    with a redirect to the dashboard and an error, and the store is
    unchanged. *)
Theorem edit_task_view_requires_membership (now : Z) (user : User) (k : Z)
    (delete : bool) (f : TaskForm) (db : DB) :
  tasks db !! k = None
  ∨ (∃ t, tasks db !! k = Some t
          ∧ is_Some (teams db !! task_team t)
          ∧ (task_team t, pk user) ∉ members db) →
  ∃ msg, EditTaskView_post now user k delete f db
         = (inr (Redirect "dashboard" [(ERROR, msg)]), db).
Proof.
  unfold EditTaskView_post, EditTaskView_get_object. rewrite bind_query.
  intros [Hnone|(t & Ht & [tr Htr] & Hm)].
  - rewrite Hnone. by eexists.
  - rewrite Ht. simpl.
    rewrite (bind_inr _ _ db db (mkInst (task_team t) tr))
      by (unfold Team_objects_get; by rewrite Htr).
    rewrite bind_query. unfold is_member. simpl.
    rewrite (bool_decide_eq_false_2 _ Hm). by eexists.
Qed.

Lemma edit_task_view_requires_membership_witness :
  let f := mkTaskForm "Taken over" "" 900 2 "Complete" 1 1 in
  (∃ t, tasks Sample.db2 !! 1 = Some t
        ∧ is_Some (teams Sample.db2 !! task_team t)
        ∧ (task_team t, pk Sample.peter) ∉ members Sample.db2)
  ∧ ∃ msg, EditTaskView_post 100 Sample.peter 1 true f Sample.db2
           = (inr (Redirect "dashboard" [(ERROR, msg)]), Sample.db2).
Proof.
  intros f.
  assert (H : ∃ t, tasks Sample.db2 !! 1 = Some t
                   ∧ is_Some (teams Sample.db2 !! task_team t)
                   ∧ (task_team t, pk Sample.peter) ∉ members Sample.db2).
  { eexists. split; [reflexivity|]. split; [by eexists|].
    vm_compute. intros H. discriminate H. }
  split; [exact H|].
  exact (edit_task_view_requires_membership 100 Sample.peter 1 true f
           Sample.db2 (or_intror H)).
Defined.

Lemma edit_in_queryset_member (db : DB) (k a : Z) :
  edit_assigned_to_queryset db k a = true →
  is_Some (users db !! a) ∧ (k, a) ∈ members db.
Proof.
  unfold edit_assigned_to_queryset. intros [Hu Hq]%andb_true_iff.
  apply bool_decide_eq_true in Hu. split; [done|].
  destruct (teams db !! k); [|discriminate].
  by apply bool_decide_eq_true in Hq.
Qed.

(** An edit that passes the membership check either stores the edited
    row or shows the form again with its errors and an unchanged store. *)
Lemma EditTaskView_post_edit (now : Z) (user : User) (k : Z) (f : TaskForm)
    (db : DB) (t : TaskRow) :
  tasks db !! k = Some t →
  is_Some (teams db !! task_team t) →
  (task_team t, pk user) ∈ members db →
  ∃ errors,
    EditTaskForm_errors now (mkInst k t) f db = (inr errors, db)
    ∧ EditTaskView_post now user k false f db
      = match errors with
        | [] =>
            (inr (Redirect "team_detail"
                    [(SUCCESS, "Task updated successfully.")]),
             set_tasks (insert k (EditTaskForm_save now (mkInst k t) f)) db)
        | _ :: _ => (inr (Render "edit_task.html" errors), db)
        end.
Proof.
  intros Ht Hteam Hm.
  pose proof (EditTaskForm_errors_run now (mkInst k t) f db Hteam) as Herr.
  cbv zeta in Herr. eexists. split; [exact Herr|].
  rewrite (EditTaskView_post_member now user k false f db t Ht Hteam Hm).
  rewrite (bind_inr _ _ _ _ _ Herr).
  match goal with |- (match ?l with _ => _ end) _ = _ =>
    by destruct l
  end.
Qed.

(** X9. Every member of the team of a task can delete it through
    [EditTaskView], whoever it is assigned to and whatever else was
    posted: the answer is the redirect to the dashboard with the success
    message, that task is gone, every other task is as before, and users,
    teams, memberships and invitations are untouched. *)
Theorem edit_task_view_delete (now : Z) (user : User) (k : Z) (f : TaskForm)
    (db : DB) (t : TaskRow) :
  tasks db !! k = Some t →
  is_Some (teams db !! task_team t) →
  (task_team t, pk user) ∈ members db →
  ∃ db',
    EditTaskView_post now user k true f db
    = (inr (Redirect "dashboard" [(SUCCESS, "Task deleted successfully.")]),
       db')
    ∧ tasks db' !! k = None
    ∧ (∀ j, j ≠ k → tasks db' !! j = tasks db !! j)
    ∧ users db' = users db ∧ teams db' = teams db
    ∧ members db' = members db ∧ invitations db' = invitations db.
Proof.
  intros Ht Hteam Hm. exists (set_tasks (base.delete k) db).
  rewrite (EditTaskView_post_member now user k true f db t Ht Hteam Hm).
  split; [reflexivity|]. simpl. split; [apply lookup_delete_eq|].
  split; [|done]. intros j Hj. by apply lookup_delete_ne.
Qed.

Lemma edit_task_view_delete_witness :
  let f := mkTaskForm "" "" 0 0 "" 0 0 in
  let t := mkTask "Write report" "" 500 2 1 "Not Started" 2 10 10 in
  tasks Sample.db2 !! 1 = Some t
  ∧ (task_team t, pk Sample.johndoe) ∈ members Sample.db2
  ∧ ∃ db',
      EditTaskView_post 100 Sample.johndoe 1 true f Sample.db2
      = (inr (Redirect "dashboard" [(SUCCESS, "Task deleted successfully.")]),
         db')
      ∧ tasks db' !! 1 = None.
Proof.
  intros f t.
  assert (Ht : tasks Sample.db2 !! 1 = Some t) by (vm_compute; reflexivity).
  assert (Hteam : is_Some (teams Sample.db2 !! task_team t))
    by (by eexists).
  assert (Hm : (task_team t, pk Sample.johndoe) ∈ members Sample.db2)
    by (vm_compute; reflexivity).
  split; [exact Ht|]. split; [exact Hm|].
  destruct (edit_task_view_delete 100 Sample.johndoe 1 f Sample.db2 t
              Ht Hteam Hm) as (db' & Hpost & Hgone & _).
  by exists db'.
Defined.

(** The four ways through [EditTaskView.dispatch]. *)
Lemma EditTaskView_post_cases (now : Z) (user : User) (k : Z) (delete : bool)
    (f : TaskForm) (db : DB) :
  (tasks db !! k = None
   ∧ EditTaskView_post now user k delete f db
     = (inr (Redirect "dashboard" [(ERROR, "Task does not exist.")]), db))
  ∨ (∃ t, tasks db !! k = Some t ∧ teams db !! task_team t = None
          ∧ EditTaskView_post now user k delete f db = (inl DoesNotExist, db))
  ∨ (∃ t, tasks db !! k = Some t ∧ is_Some (teams db !! task_team t)
          ∧ ((task_team t, pk user) ∉ members db)
          ∧ EditTaskView_post now user k delete f db
            = (inr (Redirect "dashboard"
                      [(ERROR, "You are not a member of this team.")]), db))
  ∨ (∃ t, tasks db !! k = Some t ∧ is_Some (teams db !! task_team t)
          ∧ (task_team t, pk user) ∈ members db).
Proof.
  destruct (tasks db !! k) as [t|] eqn:Ht.
  2:{ left. split; [done|]. unfold EditTaskView_post, EditTaskView_get_object.
      rewrite bind_query. by rewrite Ht. }
  right. destruct (teams db !! task_team t) as [tr|] eqn:Htr.
  2:{ left. exists t. split; [done|]. split; [done|].
      unfold EditTaskView_post, EditTaskView_get_object.
      rewrite bind_query, Ht. simpl.
      apply bind_inl. unfold Team_objects_get. by rewrite Htr. }
  right. destruct (decide ((task_team t, pk user) ∈ members db)) as [Hm|Hm].
  { right. exists t. split; [done|]. split; [by eexists|done]. }
  left. exists t. split; [done|]. split; [by eexists|]. split; [done|].
  unfold EditTaskView_post, EditTaskView_get_object.
  rewrite bind_query, Ht. simpl.
  rewrite (bind_inr _ _ db db (mkInst (task_team t) tr))
    by (unfold Team_objects_get; by rewrite Htr).
  rewrite bind_query. unfold is_member. simpl.
  by rewrite (bool_decide_eq_false_2 _ Hm).
Qed.

(** What an edit form without errors has checked. *)
Lemma EditTaskForm_no_errors (now : Z) (task : Task) (f : TaskForm) (db : DB) :
  is_Some (teams db !! task_team (row task)) →
  EditTaskForm_errors now task f db = (inr [], db) →
  now ≤ f_due_date f
  ∧ 1 ≤ f_priority f ≤ 5
  ∧ matches_letter_regex (strip (f_title f)) = true
  ∧ strip (f_title f) ≠ EmptyString
  ∧ Z_length (strip (f_title f)) ≤ 50
  ∧ Z_length (strip (f_description f)) ≤ 500
  ∧ f_status f ∈ status_choices
  ∧ is_Some (teams db !! f_team f)
  ∧ is_Some (users db !! f_assigned_to f)
  ∧ (task_team (row task), f_assigned_to f) ∈ members db
  ∧ (f_team f, f_assigned_to f) ∈ members db.
Proof.
  intros Hteam Hnone.
  pose proof (EditTaskForm_errors_run now task f db Hteam) as Herr.
  cbv zeta in Herr. rewrite Hnone in Herr.
  injection Herr as Hnil. symmetry in Hnil.
  apply app_eq_nil in Hnil as [Htitle Hnil].
  apply app_eq_nil in Hnil as [Hdesc Hnil].
  apply app_eq_nil in Hnil as [Hchosen Hnil].
  apply app_eq_nil in Hnil as [Hstatus Hnil].
  apply app_eq_nil in Hnil as [Hteamok Hnil].
  apply app_eq_nil in Hnil as [Hmodel Hclean].
  apply app_eq_nil in Hmodel as [Htv Hmodel].
  apply app_eq_nil in Hmodel as [Hdue Hprio].
  apply clean_char_no_error in Htitle as (Hct & Hlt & Hne).
  apply clean_char_no_error in Hdesc as (_ & Hld & _).
  rewrite Hct in Htv. simpl in Htv.
  apply title_validators_nil in Htv as [Hre Hlen].
  apply if_nil in Hchosen; [|done]. apply if_nil in Hstatus; [|done].
  apply if_nil in Hteamok; [|done].
  rewrite Hchosen, Hteamok in Hclean.
  apply if_nil in Hclean; [|done].
  apply edit_in_queryset_member in Hchosen as [Huser Hmember].
  apply priority_nil in Hprio as [Hp1 Hp5].
  apply due_date_nil in Hdue.
  apply bool_decide_eq_true in Hstatus.
  apply bool_decide_eq_true in Hteamok.
  unfold is_member in Hclean. apply bool_decide_eq_true in Hclean.
  specialize (Hne eq_refl).
  repeat split; assumption.
Qed.

(** X10. Whatever [EditTaskView] stores was validated: when the edit is
    answered with the redirect to the team, the task existed and the
    acting user is a member of its team; the store changes only at the key
    of the task, whose row now has the stripped title and description and
    the submitted values, keeps its [created_at] and has [updated_at]
    equal to now; the due date is not before now, the priority lies in
    1..5, the title holds a letter and has 1 to 50 characters, the
    description at most 500, the status is one of the three choices, the
    submitted team is stored, and the assignee is a stored user who is a
    member of the team the task had and of the team it gets. *)
Theorem edit_task_stored_is_valid (now : Z) (user : User) (k : Z)
    (f : TaskForm) (db db' : DB) (msgs : list (Level * string)) :
  EditTaskView_post now user k false f db
  = (inr (Redirect "team_detail" msgs), db') →
  ∃ t, tasks db !! k = Some t
       ∧ (task_team t, pk user) ∈ members db
       ∧ db' = set_tasks
                 (insert k
                    (mkTask (strip (f_title f)) (strip (f_description f))
                       (f_due_date f) (f_assigned_to f) (f_team f)
                       (f_status f) (f_priority f) (created_at t) now)) db
       ∧ (∀ j, j ≠ k → tasks db' !! j = tasks db !! j)
       ∧ now ≤ f_due_date f
       ∧ 1 ≤ f_priority f ≤ 5
       ∧ existsb_string is_letter (strip (f_title f)) = true
       ∧ 1 ≤ Z_length (strip (f_title f)) ≤ 50
       ∧ Z_length (strip (f_description f)) ≤ 500
       ∧ f_status f ∈ status_choices
       ∧ is_Some (teams db !! f_team f)
       ∧ is_Some (users db !! f_assigned_to f)
       ∧ (task_team t, f_assigned_to f) ∈ members db
       ∧ (f_team f, f_assigned_to f) ∈ members db.
Proof.
  intros Hpost.
  destruct (EditTaskView_post_cases now user k false f db)
    as [[_ H]|[(t & _ & _ & H)|[(t & _ & _ & _ & H)|(t & Ht & Hteam & Hm)]]];
    try (rewrite H in Hpost; discriminate Hpost).
  destruct (EditTaskView_post_edit now user k f db t Ht Hteam Hm)
    as (errors & Herr & Hrun).
  rewrite Hrun in Hpost. destruct errors as [|e es]; [|discriminate Hpost].
  injection Hpost as _ <-.
  apply (EditTaskForm_no_errors now (mkInst k t) f db Hteam) in Herr
    as (Hdue & Hprio & Hre & Hne & Hlen & Hld & Hst & Hnew & Hu & Hold & Hmem).
  apply regex_match_has_letter in Hre.
  assert (Hpos : 1 ≤ Z_length (strip (f_title f))).
  { unfold Z_length. destruct (strip (f_title f)); [done|]. simpl. lia. }
  destruct Hprio as [Hp1 Hp5].
  exists t. repeat split; try assumption.
  intros j Hj. simpl. by apply lookup_insert_ne.
Qed.

Lemma edit_task_stored_is_valid_witness :
  let f := mkTaskForm " Write the report " "Second draft" 900 1
             "In Progress" 4 1 in
  EditTaskView_post 100 Sample.janedoe 1 false f Sample.db2
  = (inr (Redirect "team_detail" [(SUCCESS, "Task updated successfully.")]),
     set_tasks
       (insert 1 (mkTask "Write the report" "Second draft" 900 1 1
                    "In Progress" 4 10 100)) Sample.db2)
  ∧ ∃ t, tasks Sample.db2 !! 1 = Some t
         ∧ (task_team t, f_assigned_to f) ∈ members Sample.db2.
Proof.
  intros f.
  assert (H : EditTaskView_post 100 Sample.janedoe 1 false f Sample.db2
              = (inr (Redirect "team_detail"
                        [(SUCCESS, "Task updated successfully.")]),
                 set_tasks
                   (insert 1 (mkTask "Write the report" "Second draft" 900 1 1
                                "In Progress" 4 10 100)) Sample.db2))
    by (vm_compute; reflexivity).
  split; [exact H|].
  destruct (edit_task_stored_is_valid 100 Sample.janedoe 1 f Sample.db2 _ _ H)
    as (t & Ht & _ & _ & _ & _ & _ & _ & _ & _ & _ & _ & _ & Hold & _).
  exists t. by split.
Defined.

(** The edit form accepts what meets every check. *)
Lemma EditTaskForm_valid (now : Z) (task : Task) (f : TaskForm) (db : DB) :
  is_Some (teams db !! task_team (row task)) →
  existsb_string is_nul (strip (f_title f)) = false →
  existsb_string is_nul (strip (f_description f)) = false →
  matches_letter_regex (strip (f_title f)) = true →
  Z_length (strip (f_title f)) ≤ 50 →
  Z_length (strip (f_description f)) ≤ 500 →
  now ≤ f_due_date f →
  1 ≤ f_priority f ≤ 5 →
  f_status f ∈ status_choices →
  is_Some (teams db !! f_team f) →
  is_Some (users db !! f_assigned_to f) →
  (task_team (row task), f_assigned_to f) ∈ members db →
  (f_team f, f_assigned_to f) ∈ members db →
  EditTaskForm_errors now task f db = (inr [], db).
Proof.
  intros Hteam Hn1 Hn2 Hre Hlen Hld Hdue Hprio Hst Hnew Hu Hold Hmem.
  pose proof (EditTaskForm_errors_run now task f db Hteam) as Herr.
  cbv zeta in Herr. rewrite Herr. clear Herr.
  assert (Hne : strip (f_title f) ≠ EmptyString).
  { intros E. rewrite E in Hre. discriminate Hre. }
  rewrite (clean_char_accepts true 50 (f_title f)) by done.
  rewrite (clean_char_accepts false 500 (f_description f)) by done.
  assert (Hq : edit_assigned_to_queryset db (task_team (row task))
                 (f_assigned_to f) = true).
  { unfold edit_assigned_to_queryset.
    rewrite (bool_decide_eq_true_2 _ Hu). destruct Hteam as [tr ->]. simpl.
    unfold is_member. by apply bool_decide_eq_true_2. }
  rewrite Hq, (bool_decide_eq_true_2 _ Hst), (bool_decide_eq_true_2 _ Hnew).
  unfold is_member. rewrite (bool_decide_eq_true_2 _ Hmem). simpl.
  unfold title_validators, validate_due_date_not_in_past, priority_validators.
  rewrite Hre.
  destruct (Z.ltb_spec 50 (Z_length (strip (f_title f)))); [lia|].
  destruct (Z.ltb_spec (f_due_date f) now); [lia|].
  destruct (Z.ltb_spec (f_priority f) 1); [lia|].
  destruct (Z.ltb_spec 5 (f_priority f)); [lia|]. reflexivity.
Qed.

(** X11. A member of the team of a task can move it to any stored team
    and give it to any stored user who is a member of both the team the
    task had and the team it gets, the acting user needing no membership
    of the new team: with a title of at most 50 characters that is one
    line with a letter, a description of at most 500, no null character
    in either, a due date not before now, a priority in 1..5 and one of
    the three statuses, [EditTaskView] stores the edited row under the
    same key, keeping [created_at]. *)
Theorem edit_task_accepts (now : Z) (user : User) (k : Z) (f : TaskForm)
    (db : DB) (t : TaskRow) :
  tasks db !! k = Some t →
  is_Some (teams db !! task_team t) →
  (task_team t, pk user) ∈ members db →
  existsb_string is_nul (strip (f_title f)) = false →
  existsb_string is_nul (strip (f_description f)) = false →
  matches_letter_regex (strip (f_title f)) = true →
  Z_length (strip (f_title f)) ≤ 50 →
  Z_length (strip (f_description f)) ≤ 500 →
  now ≤ f_due_date f →
  1 ≤ f_priority f ≤ 5 →
  f_status f ∈ status_choices →
  is_Some (teams db !! f_team f) →
  is_Some (users db !! f_assigned_to f) →
  (task_team t, f_assigned_to f) ∈ members db →
  (f_team f, f_assigned_to f) ∈ members db →
  EditTaskView_post now user k false f db
  = (inr (Redirect "team_detail" [(SUCCESS, "Task updated successfully.")]),
     set_tasks
       (insert k
          (mkTask (strip (f_title f)) (strip (f_description f))
             (f_due_date f) (f_assigned_to f) (f_team f)
             (f_status f) (f_priority f) (created_at t) now)) db).
Proof.
  intros Ht Hteam Hm Hn1 Hn2 Hre Hlen Hld Hdue Hprio Hst Hnew Hu Hold Hmem.
  destruct (EditTaskView_post_edit now user k f db t Ht Hteam Hm)
    as (errors & Herr & ->).
  rewrite (EditTaskForm_valid now (mkInst k t) f db) in Herr by done.
  by injection Herr as <-.
Qed.

Lemma edit_task_accepts_witness :
  let db :=
    set_members (λ s, s ∪ {[ (2, 2) ]})
      (set_teams (insert 2 (mkTeam "Second Team" "" 2 20)) Sample.db2) in
  let f := mkTaskForm " Write the report " "Second draft" 900 2
             "In Progress" 4 2 in
  let t := mkTask "Write report" "" 500 2 1 "Not Started" 2 10 10 in
  tasks db !! 1 = Some t
  ∧ ((f_team f, pk Sample.johndoe) ∉ members db)
  ∧ EditTaskView_post 100 Sample.johndoe 1 false f db
    = (inr (Redirect "team_detail" [(SUCCESS, "Task updated successfully.")]),
       set_tasks
         (insert 1 (mkTask "Write the report" "Second draft" 900 2 2
                      "In Progress" 4 10 100)) db).
Proof.
  intros db f t.
  assert (Ht : tasks db !! 1 = Some t) by (vm_compute; reflexivity).
  split; [exact Ht|].
  split; [vm_compute; intros H; discriminate H|].
  apply (edit_task_accepts 100 Sample.johndoe 1 f db t Ht).
  - by eexists.
  - vm_compute; reflexivity.
  - vm_compute; reflexivity.
  - vm_compute; reflexivity.
  - vm_compute; reflexivity.
  - vm_compute. intros H; discriminate H.
  - vm_compute. intros H; discriminate H.
  - simpl. lia.
  - simpl. lia.
  - simpl. unfold status_choices. apply list_elem_of_further, list_elem_of_here.
  - by eexists.
  - by eexists.
  - vm_compute; reflexivity.
  - vm_compute; reflexivity.
Defined.

(** X12. An edit whose due date lies before now is refused, whatever
    else is submitted: a member of the team gets the form back with
    the error of the due date among its errors and the store unchanged.
    So a task that is overdue cannot be edited, not even to mark it
    complete, unless its due date is moved. *)
Theorem edit_task_past_due_refused (now : Z) (user : User) (k : Z)
    (f : TaskForm) (db : DB) (t : TaskRow) :
  tasks db !! k = Some t →
  is_Some (teams db !! task_team t) →
  (task_team t, pk user) ∈ members db →
  f_due_date f < now →
  ∃ errors,
    EditTaskView_post now user k false f db
    = (inr (Render "edit_task.html" errors), db)
    ∧ "Due date must be in the future." ∈ errors.
Proof.
  intros Ht Hteam Hm Hdue.
  destruct (EditTaskView_post_edit now user k f db t Ht Hteam Hm)
    as (errors & Herr & ->).
  pose proof (EditTaskForm_errors_run now (mkInst k t) f db Hteam) as Hrun.
  cbv zeta in Hrun. rewrite Hrun in Herr. injection Herr as Herr.
  assert (Hin : "Due date must be in the future." ∈ errors).
  { rewrite <- Herr. unfold validate_due_date_not_in_past.
    destruct (Z.ltb_spec (f_due_date f) now); [|lia].
    do 5 (apply elem_of_app; right).
    apply elem_of_app; left. apply elem_of_app; right.
    apply elem_of_app; left. apply list_elem_of_here. }
  exists errors. destruct errors as [|e es]; [|done].
  by apply elem_of_nil in Hin.
Qed.

Lemma edit_task_past_due_refused_witness :
  let f := mkTaskForm "Write report" "" 500 2 "Complete" 2 1 in
  let t := mkTask "Write report" "" 500 2 1 "Not Started" 2 10 10 in
  tasks Sample.db2 !! 1 = Some t
  ∧ f_due_date f < 600
  ∧ ∃ errors,
      EditTaskView_post 600 Sample.janedoe 1 false f Sample.db2
      = (inr (Render "edit_task.html" errors), Sample.db2)
      ∧ "Due date must be in the future." ∈ errors.
Proof.
  intros f t.
  assert (Ht : tasks Sample.db2 !! 1 = Some t) by (vm_compute; reflexivity).
  assert (Hteam : is_Some (teams Sample.db2 !! task_team t))
    by (by eexists).
  assert (Hm : (task_team t, pk Sample.janedoe) ∈ members Sample.db2)
    by (vm_compute; reflexivity).
  assert (Hdue : f_due_date f < 600) by (simpl; lia).
  split; [exact Ht|]. split; [exact Hdue|].
  exact (edit_task_past_due_refused 600 Sample.janedoe 1 f Sample.db2 t
           Ht Hteam Hm Hdue).
Defined.

(** * Tasks stay with members *)

Lemma next_pk_positive {R : Type} (tbl : gmap Z R) : 0 < next_pk tbl.
Proof.
  unfold next_pk.
  refine (map_fold_weak_ind
            (λ acc (_ : gmap Z R), 0 < 1 + acc)
            (λ k _ acc, Z.max k acc) 0 _ _ tbl).
  - lia.
  - intros i x m acc _ IH. lia.
Qed.

(** Called with a string, [remove_member] writes nothing. *)
Lemma remove_member_string_store (self : Team) (s : string) (db : DB) :
  (remove_member self (PStr s) db).2 = db.
Proof.
  unfold remove_member, remove_task, attr_id, mbind, M_bind.
  pose proof (User_objects_get_db (PStr s) db) as Hdb.
  destruct (User_objects_get (PStr s) db) as [[e|u] d]; simpl in *; subst d;
    [done|].
  unfold query. destruct (is_member db (pk self) (pk u)); [|done].
  by destruct (bool_decide (owner (row self) = pk u)).
Qed.

Lemma CreateTaskView_post_store (now k : Z) (f : TaskForm) (db : DB) :
  (CreateTaskView_post now k f db).2 = db
  ∨ (is_Some (teams db !! k)
     ∧ (k ≠ 0 → (k, f_assigned_to f) ∈ members db)
     ∧ (CreateTaskView_post now k f db).2
       = set_tasks (insert (next_pk (tasks db))
                      (with_team (CreateTaskForm_save now f) k)) db).
Proof.
  unfold CreateTaskView_post. rewrite bind_query.
  destruct (teams db !! k) as [kr|] eqn:Hk; [|by left].
  destruct (teams db !! f_team f) as [tr|] eqn:Ht.
  2:{ left. by rewrite (bind_inl _ _ _ _ _
                          (CreateTaskForm_errors_unknown_team now k f db Ht)). }
  pose proof (CreateTaskForm_errors_known_team now k f db
                (ex_intro _ tr Ht)) as Herr.
  cbv zeta in Herr. rewrite (bind_inr _ _ _ _ _ Herr). clear Herr.
  match goal with |- context [match ?l with [] => _ | _ :: _ => _ end] =>
    destruct l as [|e es] eqn:Hnil; [|by left]
  end.
  right. split; [by eexists|]. split; [|reflexivity].
  apply app_eq_nil in Hnil as [_ Hnil].
  apply app_eq_nil in Hnil as [_ Hnil].
  apply app_eq_nil in Hnil as [Hchosen _].
  apply if_nil in Hchosen; [|done].
  by apply in_queryset_member in Hchosen as [_ Hmember].
Qed.

Lemma EditTaskView_post_store (now : Z) (user : User) (k : Z) (delete : bool)
    (f : TaskForm) (db : DB) :
  (EditTaskView_post now user k delete f db).2 = db
  ∨ (EditTaskView_post now user k delete f db).2
    = set_tasks (base.delete k) db
  ∨ (∃ t, tasks db !! k = Some t
          ∧ is_Some (teams db !! f_team f)
          ∧ (f_team f, f_assigned_to f) ∈ members db
          ∧ (EditTaskView_post now user k delete f db).2
            = set_tasks (insert k (EditTaskForm_save now (mkInst k t) f)) db).
Proof.
  destruct (EditTaskView_post_cases now user k delete f db)
    as [[_ H]|[(t & _ & _ & H)|[(t & _ & _ & _ & H)|(t & Ht & Hteam & Hm)]]];
    try (left; by rewrite H).
  destruct delete.
  { right. left.
    by rewrite (EditTaskView_post_member now user k true f db t Ht Hteam Hm). }
  destruct (EditTaskView_post_edit now user k f db t Ht Hteam Hm)
    as (errors & Herr & ->).
  destruct errors as [|e es]; [|by left].
  right. right. exists t. split; [done|].
  by apply (EditTaskForm_no_errors now (mkInst k t) f db Hteam) in Herr
    as (_ & _ & _ & _ & _ & _ & _ & Hnew & _ & _ & Hmem).
Qed.

Section AssigneeIsMember.
Variable db0 : DB.
Hypothesis Huniq : usernames_unique db0.
#[local] Abbreviation Inv := (assignee_invariant db0).

Lemma invariant_invitations (g : gmap Z InvitationRow → gmap Z InvitationRow)
    (d : DB) :
  Inv d → Inv (set_invitations g d).
Proof. intros (Hu & H0 & Ha). by split_and!. Qed.

Lemma invariant_members_add (p : Z * Z) (d : DB) :
  Inv d → Inv (set_members (λ s, s ∪ {[ p ]}) d).
Proof.
  intros (Hu & H0 & Ha). split_and!; [done|done|].
  intros j r Hr. simpl. apply elem_of_union_l. exact (Ha j r Hr).
Qed.

Lemma send_invitation_assignee (now : Z) (self : Team) (s r : PyArg)
    (msg : option string) :
  preserves Inv (send_invitation now self s r msg).
Proof.
  unfold send_invitation. preserves_split.
  intros d H. unfold Invitation_objects_create.
  destruct (decide _); [done|]. by apply invariant_invitations.
Qed.

Lemma invite_loop_assignee (now : Z) (self : Team) (o : PyArg)
    (invitees : list PyArg) (msg : option string) :
  preserves Inv
    (for_each invitees (λ member,
       send_invitation now self o member msg;; mret tt)).
Proof.
  apply preserves_for_each. intros member.
  apply preserves_bind; [apply send_invitation_assignee|].
  intros _. apply preserves_ret.
Qed.

Lemma create_team_assignee (now : Z) (n d : string) (o : User)
    (invitees : list PyArg) (msg : option string) :
  preserves Inv (create_team now n d o invitees msg).
Proof.
  unfold create_team. apply preserves_bind.
  { intros db (Hu & H0 & Ha). unfold Team_insert. simpl.
    split; [done|]. split; [|done]. simpl.
    rewrite lookup_insert_ne; [done|].
    pose proof (next_pk_positive (teams db)). lia. }
  intros team. apply preserves_bind; [apply invite_loop_assignee|].
  intros _. unfold members_add. apply preserves_bind; [|intros _; apply preserves_ret].
  apply preserves_update. intros db. apply invariant_members_add.
Qed.

(** A stored instance is what a lookup by its username returns. *)
Lemma stored_user_resolves (u u' : User) (d : DB) :
  users d = users db0 → stored_user db0 u →
  User_objects_get (PUser u) d = (inr u', d) → pk u' = pk u.
Proof.
  intros Hu Hst Hget.
  apply User_objects_get_inr in Hget as (_ & Hrow & Hname).
  rewrite Hu in Hrow. exact (Huniq _ _ Hrow _ _ Hst Hname).
Qed.

Lemma remove_member_assignee (self : Team) (who : PyArg) :
  stored_arg db0 who → preserves Inv (remove_member self who).
Proof.
  intros Hst d HInv. destruct who as [s|u].
  { by rewrite remove_member_string_store. }
  pose proof (User_objects_get_db (PUser u) d) as Hdb.
  destruct (User_objects_get (PUser u) d) as [[e|u'] d'] eqn:Hget;
    simpl in Hdb; subst d'.
  { unfold remove_member. by rewrite (bind_inl _ _ _ _ _ Hget). }
  destruct HInv as (Hu & H0 & Ha).
  pose proof (stored_user_resolves u u' d Hu Hst Hget) as Hpk.
  destruct (decide ((pk self, pk u') ∈ members d)) as [Hm|Hm].
  2:{ rewrite (remove_member_not_member self d _ u' Hget Hm). by split_and!. }
  destruct (decide (owner (row self) = pk u')) as [Ho|Ho].
  { rewrite (remove_member_owner self d _ u' Hget Ho). by split_and!. }
  rewrite (remove_member_instance self d u u' Hget Hm Ho). simpl.
  split_and!; [done|done|].
  intros j r [Hr Hkeep]%map_lookup_filter_Some. simpl in *.
  apply elem_of_difference. split; [exact (Ha j r Hr)|].
  intros [= Ht Has]%elem_of_singleton. apply Hkeep.
  split; simpl; congruence.
Qed.

Lemma remove_loop_assignee (self : Team) (rm : list PyArg) :
  Forall (stored_arg db0) rm →
  preserves Inv (for_each rm (λ member, remove_member self member;; mret tt)).
Proof.
  induction 1 as [|member rm Hst _ IH]; simpl.
  - apply preserves_ret.
  - apply preserves_bind; [|intros _; exact IH].
    apply preserves_bind; [by apply remove_member_assignee|].
    intros _. apply preserves_ret.
Qed.

Lemma edit_team_assignee (now k : Z) (who : PyArg) (n d : string)
    (invitees : list PyArg) (msg : option string) (rm : list PyArg) :
  Forall (stored_arg db0) rm →
  preserves Inv (edit_team now k who n d invitees msg rm).
Proof.
  intros Hrm. unfold edit_team.
  apply preserves_bind; [apply preserves_User_objects_get|].
  intros owner_user db HInv. unfold mbind at 1, M_bind at 1, Team_objects_get.
  destruct (teams db !! k) as [r|] eqn:Hr; [|exact HInv]. simpl pk.
  assert (Hk : k ≠ 0).
  { intros ->. destruct HInv as (_ & H0 & _). by rewrite H0 in Hr. }
  revert db HInv Hr. intros db HInv _. revert db HInv.
  apply preserves_bind; [apply invite_loop_assignee|].
  intros _. apply preserves_bind; [by apply remove_loop_assignee|].
  intros _. apply preserves_bind; [|intros _; apply preserves_ret].
  apply preserves_update. intros db (Hu & H0 & Ha).
  split; [done|]. split; [|done]. simpl. by rewrite lookup_insert_ne.
Qed.

Lemma delete_team_assignee (self : Team) (who : PyArg) :
  preserves Inv (delete_team self who).
Proof.
  unfold delete_team, Team_delete. preserves_split.
  apply preserves_update. intros db (Hu & H0 & Ha).
  split; [done|]. split.
  - simpl. apply lookup_delete_None. by right.
  - intros j r [Hr Hne]%map_lookup_filter_Some. simpl in *.
    apply elem_of_filter. split; [done|]. exact (Ha j r Hr).
Qed.

Lemma accept_invitation_assignee (self : Invitation) (user : User) :
  preserves Inv (accept_invitation self user).
Proof.
  unfold accept_invitation, members_add, Invitation_delete.
  preserves_split; apply preserves_update; intros db.
  - apply invariant_members_add.
  - apply invariant_invitations.
Qed.

Lemma decline_invitation_assignee (self : Invitation) (user : User) :
  preserves Inv (decline_invitation self user).
Proof.
  unfold decline_invitation, Invitation_delete.
  preserves_split; apply preserves_update; intros db.
  apply invariant_invitations.
Qed.

Lemma TeamDetailView_post_assignee (user : User) (k : Z)
    (action : option string) :
  stored_user db0 user →
  preserves Inv (TeamDetailView_post user k action).
Proof.
  intros Hst. unfold TeamDetailView_post.
  apply preserves_bind; [apply preserves_get_object_or_404|].
  intros team. destruct (bool_decide _); [|apply preserves_ret].
  apply preserves_bind; [by apply (remove_member_assignee team (PUser user))|].
  intros []; apply preserves_ret.
Qed.

Lemma CreateTaskView_post_assignee (now k : Z) (f : TaskForm) :
  preserves Inv (CreateTaskView_post now k f).
Proof.
  intros db HInv.
  destruct (CreateTaskView_post_store now k f db)
    as [->|([kr Hk] & Hmem & ->)]; [done|].
  destruct HInv as (Hu & H0 & Ha). split_and!; [done|done|].
  assert (Hne : k ≠ 0) by (intros ->; by rewrite H0 in Hk).
  intros j r. simpl. rewrite lookup_insert. case_decide as Hj.
  - intros [= <-]. simpl. by apply Hmem.
  - exact (Ha j r).
Qed.

Lemma EditTaskView_post_assignee (now : Z) (user : User) (k : Z)
    (delete : bool) (f : TaskForm) :
  preserves Inv (EditTaskView_post now user k delete f).
Proof.
  intros db HInv.
  destruct (EditTaskView_post_store now user k delete f db)
    as [->|[->|(t & Ht & _ & Hmem & ->)]]; [done| |];
    destruct HInv as (Hu & H0 & Ha); (split_and!; [done|done|]).
  - intros j r Hr. simpl in Hr.
    apply lookup_delete_Some in Hr as [_ Hr]. exact (Ha j r Hr).
  - intros j r. simpl. rewrite lookup_insert. case_decide as Hj.
    + by intros [= <-].
    + exact (Ha j r).
Qed.

Lemma act_assignee (a : Action) :
  removes_stored db0 a → preserves Inv (act a).
Proof.
  destruct a as [req|now user k delete f]; simpl.
  2:{ intros _. apply preserves_discard, EditTaskView_post_assignee. }
  destruct req; simpl; intros Hst.
  - apply preserves_discard, create_team_assignee.
  - by apply preserves_discard, edit_team_assignee.
  - apply preserves_bind; [apply preserves_Team_objects_get|].
    intros self. apply preserves_discard, send_invitation_assignee.
  - apply preserves_bind; [apply preserves_Team_objects_get|].
    intros self. by apply preserves_discard, remove_member_assignee.
  - by apply preserves_discard, TeamDetailView_post_assignee.
  - apply preserves_bind; [apply preserves_Team_objects_get|].
    intros self. apply preserves_discard, delete_team_assignee.
  - apply preserves_bind; [apply preserves_Invitation_objects_get|].
    intros self. apply accept_invitation_assignee.
  - apply preserves_bind; [apply preserves_Invitation_objects_get|].
    intros self. apply decline_invitation_assignee.
  - apply preserves_discard, CreateTaskView_post_assignee.
Qed.

Lemma act_all_assignee (acts : list Action) (d : DB) :
  Forall (removes_stored db0) acts → Inv d → Inv (act_all acts d).
Proof.
  intros Hst. revert d. induction Hst as [|a acts Ha _ IH]; intros d H; simpl.
  - exact H.
  - apply IH. by apply act_assignee.
Qed.
End AssigneeIsMember.

(** X13. Tasks stay with members. From a store with unique usernames and
    no team under the key 0 in which every task is assigned to a member
    of its team, every sequence of actions (creating and editing teams,
    inviting, accepting, declining, removing a member, leaving, deleting
    a team, creating, editing and deleting tasks; each ending as it may,
    by a return or by an exception) in which the [User] instances handed
    to [remove_member] are stored users leads to a store in which every
    task is still assigned to a member of its team. *)
Theorem assignee_is_member_always (acts : list Action) (db : DB) :
  usernames_unique db →
  teams db !! 0 = None →
  assignee_is_member db →
  Forall (removes_stored db) acts →
  assignee_is_member (act_all acts db).
Proof.
  intros Huniq H0 Ha Hst.
  by destruct (act_all_assignee db Huniq acts db Hst) as (_ & _ & H).
Qed.

Lemma assignee_is_member_always_witness :
  let acts :=
    [ ActEditTask 100 Sample.johndoe 2 false
        (mkTaskForm "Review notes" "" 900 1 "In Progress" 1 1);
      ActRequest (ReqLeaveTeam Sample.janedoe 1);
      ActRequest (ReqCreateTask 100 1
                    (mkTaskForm "Plan" "" 900 2 "Not Started" 1 1));
      ActRequest (ReqCreateTask 100 1
                    (mkTaskForm "Plan" "" 900 1 "Not Started" 1 1)) ] in
  usernames_unique Sample.db2
  ∧ assignee_is_member Sample.db2
  ∧ Forall (removes_stored Sample.db2) acts
  ∧ assignee_is_member (act_all acts Sample.db2)
  ∧ tasks (act_all acts Sample.db2)
    = <[3 := mkTask "Plan" "" 900 1 1 "Not Started" 1 100 100]>
        (<[2 := mkTask "Review notes" "" 900 1 1 "In Progress" 1 10 100]> ∅).
Proof.
  intros acts.
  assert (H1 : usernames_unique Sample.db2).
  { apply (bool_decide_unpack (usernames_unique Sample.db2)).
    vm_compute. exact I. }
  assert (H2 : assignee_is_member Sample.db2).
  { apply (bool_decide_unpack (assignee_is_member Sample.db2)).
    vm_compute. exact I. }
  assert (H3 : Forall (removes_stored Sample.db2) acts).
  { repeat constructor. }
  split; [exact H1|]. split; [exact H2|]. split; [exact H3|]. split.
  - exact (assignee_is_member_always acts Sample.db2 H1 eq_refl H2 H3).
  - vm_compute. reflexivity.
Defined.

(** * The invitation page *)

(** [int()] on some posted values. *)
Example python_int_examples :
  python_int "12" = Some 12
  ∧ python_int " +1_000 " = Some 1000
  ∧ python_int "-7" = Some (-7)
  ∧ python_int "007" = Some 7
  ∧ python_int "" = None
  ∧ python_int "abc" = None
  ∧ python_int "1.0" = None
  ∧ python_int "- 1" = None
  ∧ python_int "1__0" = None
  ∧ python_int "_1" = None
  ∧ python_int "1_" = None.
Proof. vm_compute. done. Qed.


(** On a store with an invitation of user 1 to user 2 for team 1: a value
    that is no integer makes the view raise, the recipient accepts with
    the key written with blanks around it, and anybody else gets the
    error of [accept_invitation] as a message. *)
Example invitation_view_posted_values :
  let db :=
    set_invitations (insert 1 (mkInvitation 1 2 1 "join" 20)) Sample.db0 in
  InvitationListView_post Sample.janedoe (AcceptInvitation "abc") db
  = (inl ValueError, db)
  ∧ InvitationListView_post Sample.janedoe (DeclineInvitation "") db
    = (inl ValueError, db)
  ∧ InvitationListView_post Sample.janedoe (AcceptInvitation " 1 ") db
    = (inr (Redirect "view_invitation"
              [(SUCCESS, "Invitation accepted successfully.")]),
       set_invitations (delete 1)
         (set_members (λ s, s ∪ {[ (1, 2) ]}) db))
  ∧ InvitationListView_post Sample.petra (AcceptInvitation "1") db
    = (inr (Redirect "view_invitation" [(ERROR, accept_denied)]), db)
  ∧ InvitationListView_post Sample.janedoe (AcceptInvitation "7") db
    = (inr (Redirect "view_invitation"
              [(ERROR, "Invitation does not exist")]), db).
Proof. split_and!; reflexivity. Qed.

(** * The name of a team *)

Lemma letter_not_space (c : ascii) : is_letter c = true → is_space c = false.
Proof. destruct c as [[] [] [] [] [] [] [] []]; vm_compute; congruence. Qed.

Lemma existsb_lstrip_kept (p : ascii → bool) (s : string) :
  (∀ c, p c = true → is_space c = false) →
  existsb_string p s = true → existsb_string p (lstrip s) = true.
Proof.
  intros Hp. induction s as [|c s IH]; simpl; [done|].
  destruct (is_space c) eqn:Hc; [|done].
  intros [Hpc|H]%orb_true_iff; [|by apply IH].
  apply Hp in Hpc. congruence.
Qed.

Lemma existsb_rstrip_kept (p : ascii → bool) (s : string) :
  (∀ c, p c = true → is_space c = false) →
  existsb_string p s = true → existsb_string p (rstrip s) = true.
Proof.
  intros Hp. induction s as [|c s IH]; simpl; [done|].
  intros H. destruct (rstrip s) as [|c' r] eqn:E.
  - apply orb_true_iff in H as [Hpc|H]; [|by apply IH in H].
    rewrite (Hp c Hpc). simpl. by rewrite Hpc.
  - simpl. apply orb_true_iff in H as [->|H]; [done|].
    apply IH in H. simpl in H. rewrite H. apply orb_true_r.
Qed.

Lemma existsb_string_impl (p q : ascii → bool) (s : string) :
  (∀ c, p c = true → q c = true) →
  existsb_string p s = true → existsb_string q s = true.
Proof.
  intros Hpq. induction s as [|c s IH]; simpl; [done|].
  intros [H|H]%orb_true_iff.
  - by rewrite (Hpq c H).
  - rewrite (IH H). apply orb_true_r.
Qed.

(** X15. [TeamForm.clean_name] refuses no name that the validator of
    [Team.name] accepts: a name matching the regular expression of the
    model comes back from [clean_name] stripped and without an error. *)
Theorem clean_name_accepts_model_names (s : string) :
  matches_letter_regex s = true → clean_name s = inr (strip s).
Proof.
  intros H. apply regex_match_has_letter in H.
  apply (existsb_lstrip_kept _ _ letter_not_space) in H.
  apply (existsb_rstrip_kept _ _ letter_not_space) in H.
  fold (strip s) in H.
  apply (existsb_string_impl is_letter is_alpha) in H.
  - unfold clean_name. by rewrite H.
  - intros c Hc. unfold is_alpha. by rewrite Hc.
Qed.

Lemma clean_name_accepts_model_names_witness :
  matches_letter_regex " Team 7 " = true
  ∧ clean_name " Team 7 " = inr "Team 7".
Proof.
  assert (H : matches_letter_regex " Team 7 " = true) by reflexivity.
  split; [exact H|].
  exact (clean_name_accepts_model_names " Team 7 " H).
Defined.

(** The converse fails: [clean_name] lets through names that the
    validator of the model refuses, a letter outside a-z and A-Z or a
    name of two lines. *)
Example clean_name_accepts_more :
  let e_acute := String (ascii_of_N 233) EmptyString in
  let two_lines := String "a" (String (ascii_of_N 10) (String "b" EmptyString)) in
  clean_name e_acute = inr e_acute
  ∧ matches_letter_regex e_acute = false
  ∧ clean_name two_lines = inr two_lines
  ∧ matches_letter_regex two_lines = false.
Proof. vm_compute. done. Qed.

(** * No reference to a missing team *)

Lemma references_removed (d d' : DB) :
  teams d' = teams d →
  members d' ⊆ members d →
  invitations d' ⊆ invitations d →
  tasks d' ⊆ tasks d →
  team_references_stored d → team_references_stored d'.
Proof.
  intros Ht Hm Hi Hk (Hms & His & Hts). unfold team_references_stored.
  rewrite Ht. split_and!.
  - intros p Hp. apply Hms. by apply Hm.
  - intros k i Hki. apply (His k). by eapply lookup_weaken.
  - intros k t Hkt. apply (Hts k). by eapply lookup_weaken.
Qed.

Lemma references_team_saved (k : Z) (r : TeamRow) (d : DB) :
  team_references_stored d →
  team_references_stored (set_teams (insert k r) d).
Proof.
  assert (Hkeep : ∀ j, is_Some (teams d !! j) →
                       is_Some (<[k := r]> (teams d) !! j)).
  { intros j Hj. rewrite lookup_insert. by case_decide. }
  intros (Hms & His & Hts). split_and!.
  - intros p Hp. apply Hkeep. by apply Hms.
  - intros j i Hji. apply Hkeep. by apply (His j).
  - intros j t Hjt. apply Hkeep. by apply (Hts j).
Qed.

Lemma references_member_added (k u : Z) (d : DB) :
  is_Some (teams d !! k) →
  team_references_stored d →
  team_references_stored (set_members (λ s, s ∪ {[ (k, u) ]}) d).
Proof.
  intros Hk (Hms & His & Hts). split_and!; [|done|done].
  intros p [Hp| ->%elem_of_singleton]%elem_of_union; [by apply Hms|done].
Qed.

Lemma references_invitation_added (j : Z) (i : InvitationRow) (d : DB) :
  is_Some (teams d !! inv_team i) →
  team_references_stored d →
  team_references_stored (set_invitations (insert j i) d).
Proof.
  intros Hk (Hms & His & Hts). split_and!; [done| |done].
  by apply map_Forall_insert_2.
Qed.

Lemma references_task_saved (j : Z) (t : TaskRow) (d : DB) :
  is_Some (teams d !! task_team t) →
  team_references_stored d →
  team_references_stored (set_tasks (insert j t) d).
Proof.
  intros Hk (Hms & His & Hts). split_and!; [done|done|].
  by apply map_Forall_insert_2.
Qed.

Section TeamReferences.
#[local] Abbreviation R := team_references_stored.
#[local] Abbreviation RT := (λ k d, R d ∧ is_Some (teams d !! k)).

Lemma send_invitation_references (now : Z) (self : Team) (s r : PyArg)
    (msg : option string) :
  preserves (RT (pk self)) (send_invitation now self s r msg).
Proof.
  unfold send_invitation. preserves_split.
  intros d [H Hk]. unfold Invitation_objects_create.
  destruct (decide _); [done|]. simpl. split; [|done].
  by apply references_invitation_added.
Qed.

Lemma invite_loop_references (now : Z) (self : Team) (o : PyArg)
    (invitees : list PyArg) (msg : option string) :
  preserves (RT (pk self))
    (for_each invitees (λ member,
       send_invitation now self o member msg;; mret tt)).
Proof.
  apply preserves_for_each. intros member.
  apply preserves_bind; [apply send_invitation_references|].
  intros _. apply preserves_ret.
Qed.

Lemma remove_member_references (k : Z) (self : Team) (who : PyArg) :
  preserves (RT k) (remove_member self who).
Proof.
  unfold remove_member, remove_task. preserves_split;
    apply preserves_update; intros d [H Hk]; (split; [|done]);
    (eapply references_removed; [| | | |exact H]); simpl; try done.
  - apply map_filter_subseteq.
  - apply subseteq_difference_l. done.
Qed.

Lemma create_team_references (now : Z) (n d : string) (o : User)
    (invitees : list PyArg) (msg : option string) :
  preserves R (create_team now n d o invitees msg).
Proof.
  intros db H. unfold create_team, mbind at 1, M_bind at 1, Team_insert.
  set (k := next_pk (teams db)).
  set (team := mkInst k (mkTeam n d (pk o) now)).
  assert (Hrest : preserves (RT (pk team))
    (for_each invitees (λ member,
       send_invitation now team (PUser o) member msg;; mret tt);;
     members_add (pk team) (pk o);; mret team)).
  { apply preserves_bind; [apply invite_loop_references|].
    intros _. unfold members_add.
    apply preserves_bind; [|intros _; apply preserves_ret].
    apply preserves_update. intros d' [H' Hk]. split; [|done].
    by apply references_member_added. }
  apply (Hrest (set_teams (insert k (row team)) db)). split.
  - by apply references_team_saved.
  - simpl. rewrite lookup_insert_eq. by eexists.
Qed.

Lemma edit_team_references (now k : Z) (who : PyArg) (n d : string)
    (invitees : list PyArg) (msg : option string) (rm : list PyArg) :
  preserves R (edit_team now k who n d invitees msg rm).
Proof.
  unfold edit_team.
  apply preserves_bind; [apply preserves_User_objects_get|].
  intros owner_user db H. unfold mbind at 1, M_bind at 1, Team_objects_get.
  destruct (teams db !! k) as [r|] eqn:Hr; [|exact H]. simpl pk.
  set (team := mkInst k (mkTeam n d (owner r) (team_created_at r))).
  assert (Hrest : preserves (RT (pk team))
    (for_each invitees (λ member,
       send_invitation now team (PUser owner_user) member msg;; mret tt);;
     for_each rm (λ member, remove_member team member;; mret tt);;
     update (set_teams (insert (pk team) (row team)));;
     mret team)).
  { apply preserves_bind; [apply invite_loop_references|].
    intros _. apply preserves_bind.
    { apply preserves_for_each. intros member.
      apply preserves_bind; [apply remove_member_references|].
      intros _. apply preserves_ret. }
    intros _. apply preserves_bind; [|intros _; apply preserves_ret].
    apply preserves_update. intros d' [H' Hk]. split.
    - by apply references_team_saved.
    - simpl. rewrite lookup_insert_eq. by eexists. }
  apply (Hrest db). split; [exact H|]. simpl. by eexists.
Qed.

Lemma delete_team_references (self : Team) (who : PyArg) :
  preserves R (delete_team self who).
Proof.
  unfold delete_team, Team_delete. preserves_split.
  apply preserves_update. intros db (Hms & His & Hts).
  assert (Hkeep : ∀ j, j ≠ pk self → is_Some (teams db !! j) →
                       is_Some (delete (pk self) (teams db) !! j)).
  { intros j Hj Hs. by rewrite lookup_delete_ne. }
  split_and!; simpl.
  - intros p [Hne Hp]%elem_of_filter. apply Hkeep; [done|]. by apply Hms.
  - intros j i [Hji Hne]%map_lookup_filter_Some. simpl in *.
    apply Hkeep; [done|]. by apply (His j).
  - intros j t [Hjt Hne]%map_lookup_filter_Some. simpl in *.
    apply Hkeep; [done|]. by apply (Hts j).
Qed.

Lemma Invitation_delete_references (self : Invitation) :
  preserves R (Invitation_delete self).
Proof.
  apply preserves_update. intros d H.
  eapply references_removed; [| | | |exact H]; simpl; try done.
  apply delete_subseteq.
Qed.

Lemma accept_invitation_references (self : Invitation) (user : User) :
  preserves (RT (inv_team (row self))) (accept_invitation self user).
Proof.
  unfold accept_invitation, members_add. preserves_split.
  - apply preserves_update. intros d [H Hk]. split; [|done].
    by apply references_member_added.
  - intros d [H Hk]. split; [by apply Invitation_delete_references|done].
Qed.

Lemma decline_invitation_references (self : Invitation) (user : User) :
  preserves R (decline_invitation self user).
Proof.
  unfold decline_invitation. preserves_split.
  apply Invitation_delete_references.
Qed.

Lemma remove_member_references_plain (self : Team) (who : PyArg) :
  preserves R (remove_member self who).
Proof.
  unfold remove_member, remove_task. preserves_split;
    apply preserves_update; intros d H;
    (eapply references_removed; [| | | |exact H]); simpl; try done.
  - apply map_filter_subseteq.
  - apply subseteq_difference_l. done.
Qed.

Lemma act_references (a : Action) : preserves R (act a).
Proof.
  destruct a as [req|now user k delete f]; simpl.
  2:{ apply preserves_discard. intros db H.
      destruct (EditTaskView_post_store now user k delete f db)
        as [->|[->|(t & Ht & Hnew & _ & ->)]]; [done| |].
      - eapply references_removed; [| | | |exact H]; simpl; try done.
        apply delete_subseteq.
      - by apply references_task_saved. }
  destruct req; simpl.
  - apply preserves_discard, create_team_references.
  - apply preserves_discard, edit_team_references.
  - intros db H. unfold mbind, M_bind, Team_objects_get.
    destruct (teams db !! k) as [r|] eqn:Hr; [|exact H].
    apply (preserves_discard _ _
             (send_invitation_references now (mkInst k r) sender_username
                recipient_username msg) db).
    split; [exact H|]. simpl. by eexists.
  - apply preserves_bind; [apply preserves_Team_objects_get|].
    intros self. apply preserves_discard, remove_member_references_plain.
  - apply preserves_discard. unfold TeamDetailView_post.
    apply preserves_bind; [apply preserves_get_object_or_404|].
    intros team. destruct (bool_decide _); [|apply preserves_ret].
    apply preserves_bind; [apply remove_member_references_plain|].
    intros []; apply preserves_ret.
  - apply preserves_bind; [apply preserves_Team_objects_get|].
    intros self. apply preserves_discard, delete_team_references.
  - intros db H. unfold mbind, M_bind, Invitation_objects_get.
    destruct (invitations db !! invitation_id) as [i|] eqn:Hi; [|exact H].
    apply (accept_invitation_references (mkInst invitation_id i) user db).
    split; [exact H|]. simpl. destruct H as (_ & His & _).
    by apply (His invitation_id).
  - apply preserves_bind; [apply preserves_Invitation_objects_get|].
    intros self. apply decline_invitation_references.
  - apply preserves_discard. intros db H.
    destruct (CreateTaskView_post_store now k f db)
      as [->|(Hk & _ & ->)]; [done|].
    by apply references_task_saved.
Qed.
End TeamReferences.

(** X16. No action leaves a reference to a missing team. From a store
    in which every membership, invitation and task refers to a stored
    team, every sequence of actions (creating, editing and deleting
    teams, inviting, accepting, declining, removing a member, leaving,
    creating, editing and deleting tasks; each ending as it may, by a
    return or by an exception) leads to such a store again: a deleted
    team takes its memberships, invitations and tasks with it, and
    whatever is added refers to a team that is stored. *)
Theorem team_references_stored_always (acts : list Action) (db : DB) :
  team_references_stored db →
  team_references_stored (act_all acts db).
Proof.
  revert db. induction acts as [|a acts IH]; intros db H; simpl.
  - exact H.
  - apply IH. by apply act_references.
Qed.

Lemma team_references_stored_always_witness :
  let acts :=
    [ ActRequest (ReqSendInvitation 20 1 (PUser Sample.johndoe)
                    (PUser Sample.petra) None);
      ActRequest (ReqCreateTeam 30 "Second Team" "" Sample.janedoe
                    [PUser Sample.peter] (Some "join"));
      ActRequest (ReqDeleteTeam 1 (PUser Sample.johndoe));
      ActRequest (ReqAccept 1 Sample.petra);
      ActRequest (ReqAccept 2 Sample.peter);
      ActRequest (ReqCreateTask 100 2
                    (mkTaskForm "Plan" "" 900 4 "Not Started" 1 2)) ] in
  team_references_stored Sample.db2
  ∧ team_references_stored (act_all acts Sample.db2)
  ∧ members (act_all acts Sample.db2) = {[ (2, 2); (2, 4) ]}
  ∧ invitations (act_all acts Sample.db2) = ∅
  ∧ teams (act_all acts Sample.db2) !! 1 = None
  ∧ map_Forall (λ _ t, task_team t = 2 ∧ assigned_to t = 4)
      (tasks (act_all acts Sample.db2)).
Proof.
  intros acts.
  assert (H : team_references_stored Sample.db2).
  { apply (bool_decide_unpack (team_references_stored Sample.db2)).
    vm_compute. exact I. }
  split; [exact H|]. split.
  - exact (team_references_stored_always acts Sample.db2 H).
  - split_and!; [vm_compute; reflexivity..|].
    apply (bool_decide_unpack _). vm_compute. exact I.
Defined.

(** * Invitations of a new team and [Invitation.clean] *)

Lemma accepted_member (db : DB) (own : User) (team : option Team)
    (names : list string) (ms : list User) (u : User) :
  Forall2 (member_accepted db own team ∅) names ms →
  u ∈ ms →
  users db !! pk u = Some (row u)
  ∧ username (row u) ≠ username (row own).
Proof.
  intros Hall Hin. apply list_elem_of_lookup in Hin as [i Hi].
  destruct (Forall2_lookup_r _ _ _ _ _ Hall Hi) as (n & _ & _ & Hget & Hne & _).
  by apply User_objects_get_inr in Hget as (_ & Hrow & _).
Qed.

(** X17. The invitations of a team created from a validated form are
    the ones [Invitation.clean] accepts, although nothing runs it: with
    the acting user stored, the invitees [clean_members] returned and no
    invitation or membership left over for the key the team will get,
    [CreateTeamView.form_valid] returns, and for every invitee the store
    then holds an invitation to the new team, sent by the acting user,
    on which [Invitation.clean] raises nothing: the sender owns the team,
    sender and recipient have different usernames, and the recipient is
    not a member. *)
Theorem create_team_invitations_pass_clean (now : Z) (user : User)
    (data : TeamFormData) (input : string) (db : DB) :
  User_objects_get (PUser user) db = (inr user, db) →
  clean_members db user None input = inr (c_members data) →
  (∀ k i, invitations db !! k = Some i → inv_team i ≠ next_pk (teams db)) →
  (∀ u, (next_pk (teams db), u) ∉ members db) →
  ∃ (r : Response) (db' : DB),
    CreateTeamView_form_valid now user data db = (inr r, db')
    ∧ ∀ u, u ∈ c_members data →
        ∃ k i, invitations db' !! k = Some i
               ∧ sender i = pk user
               ∧ recipient i = pk u
               ∧ inv_team i = next_pk (teams db)
               ∧ Invitation_clean (mkInst k i) db' = (inr tt, db').
Proof.
  intros Hu Hclean Hnone Hnomem.
  apply clean_members_inr in Hclean as [Hall Hnd].
  set (knew := next_pk (teams db)).
  set (r := mkTeam (c_name data) (c_description data) (pk user) now).
  destruct (invite_loop_effect now (mkInst knew r) user
              (Some (c_message data)) db (c_members data) Hu
              (accepted_resolve _ _ _ _ _ Hall)
              (accepted_distinct _ _ _ _ _ Hall Hnd)
              (set_teams (insert knew r) db) eq_refl)
    as (d' & Hloop & Hkeep & Hnew).
  { intros k i Hk Ht. by destruct (Hnone k i Hk). }
  { intros u _. apply Hnomem. }
  pose proof (invite_loop_frame (set_teams (insert knew r) db) now
                (mkInst knew r) (PUser user) (PUser <$> c_members data)
                (Some (c_message data)) _ (conj eq_refl eq_refl)) as Hframe.
  rewrite Hloop in Hframe. destruct Hframe as [Ht Hm]. simpl in Ht, Hm.
  pose proof (invite_loop_users (users db) now (mkInst knew r) (PUser user)
                (PUser <$> c_members data) (Some (c_message data))
                (set_teams (insert knew r) db) eq_refl) as Husers.
  rewrite Hloop in Husers. simpl in Husers.
  apply User_objects_get_inr in Hu as (_ & Hrow & _).
  eexists _, (set_members (λ s, s ∪ {[ (knew, pk user) ]}) d').
  split.
  { unfold CreateTeamView_form_valid, create_team.
    rewrite (bind_inr _ _ db (set_members (λ s, s ∪ {[ (knew, pk user) ]}) d')
               (mkInst knew r)); [reflexivity|].
    rewrite (bind_inr _ _ db (set_teams (insert knew r) db) (mkInst knew r))
      by reflexivity.
    by rewrite (bind_inr _ _ _ _ _ Hloop). }
  intros u Hin. destruct (Hnew u Hin) as [k Hk].
  destruct (accepted_member _ _ _ _ _ u Hall Hin) as [Hurow Hname].
  exists k, (mkInvitation (pk user) (pk u) knew (c_message data) now).
  split; [exact Hk|]. split; [done|]. split; [done|]. split; [done|].
  unfold Invitation_clean, related_user, Team_objects_get, mbind, M_bind,
    query, raise, mret, M_ret. simpl.
  rewrite Husers, Hrow. simpl. rewrite Ht, lookup_insert_eq. simpl.
  rewrite Husers, Hrow. simpl.
  rewrite bool_decide_eq_false_2 by (intros Hne; by apply Hne).
  simpl. rewrite Husers, Hurow. simpl.
  rewrite bool_decide_eq_false_2 by (intros Heq; by apply Hname).
  unfold is_member. simpl. rewrite Hm. simpl.
  rewrite bool_decide_eq_false_2; [done|].
  intros [Hold|Hown%elem_of_singleton]%elem_of_union.
  - by apply (Hnomem (pk u)).
  - injection Hown as Hpk. rewrite Hpk, Hrow in Hurow.
    injection Hurow as Hsame. apply Hname. by rewrite <- Hsame.
Qed.

Lemma create_team_invitations_pass_clean_witness :
  let data := mkTeamFormData "Second Team" "" [Sample.janedoe; Sample.petra]
                "join" [] in
  ∃ (r : Response) (db' : DB),
    CreateTeamView_form_valid 5 Sample.johndoe data Sample.db0 = (inr r, db')
    ∧ ∀ u, u ∈ c_members data →
        ∃ k i, invitations db' !! k = Some i
               ∧ sender i = pk Sample.johndoe
               ∧ recipient i = pk u
               ∧ inv_team i = next_pk (teams Sample.db0)
               ∧ Invitation_clean (mkInst k i) db' = (inr tt, db').
Proof.
  intros data.
  apply (create_team_invitations_pass_clean 5 Sample.johndoe data
           "@janedoe, @petrapickles" Sample.db0).
  - reflexivity.
  - vm_compute. reflexivity.
  - intros k i H. simpl in H. by rewrite lookup_empty in H.
  - intros u.
    assert (Hk : next_pk (teams Sample.db0) = 2) by (vm_compute; reflexivity).
    rewrite Hk. simpl. intros H%elem_of_singleton. discriminate H.
Defined.

(** * Who may create a task *)

Lemma CreateTaskView_post_accepts (now k : Z) (f : TaskForm) (db : DB) :
  k ≠ 0 →
  is_Some (teams db !! k) →
  is_Some (teams db !! f_team f) →
  now ≤ f_due_date f →
  other_fields_valid db k f →
  CreateTaskView_post now k f db
  = (inr (Redirect "team_detail" []),
     set_tasks
       (insert (next_pk (tasks db))
          (mkTask (strip (f_title f)) (strip (f_description f))
             (f_due_date f) (f_assigned_to f) k (f_status f)
             (f_priority f) now now))
       db).
Proof.
  intros Hk0 [kr Hkr] Ht Hdue
    (Hu & Hmk & Hmt & Hs & Hte & Htn & Htl & Htr & Hdn & Hdl & Hp).
  pose proof (CreateTaskForm_errors_known_team now k f db Ht) as Herr.
  cbv zeta in Herr.
  unfold CreateTaskView_post. rewrite bind_query, Hkr.
  rewrite (bind_inr _ _ _ _ _ Herr). clear Herr.
  rewrite (clean_char_accepts true 50 (f_title f)) by done.
  rewrite (clean_char_accepts false 500 (f_description f)) by done.
  assert (Hq : assigned_to_queryset db k (f_assigned_to f) = true).
  { unfold assigned_to_queryset.
    rewrite (bool_decide_eq_true_2 _ Hu), (bool_decide_eq_false_2 _ Hk0), Hkr.
    unfold is_member. by rewrite (bool_decide_eq_true_2 _ Hmk). }
  rewrite Hq. unfold is_member.
  rewrite (bool_decide_eq_true_2 _ Hmt), (bool_decide_eq_true_2 _ Hs).
  simpl. unfold title_validators. rewrite Htr.
  destruct (Z.ltb_spec 50 (Z_length (strip (f_title f)))); [lia|].
  rewrite (due_date_not_in_past_ok _ _ Hdue), (priority_in_range_ok _ Hp).
  reflexivity.
Qed.

(** X18. Only the page of [CreateTaskView] asks for membership, the
    submission does not: for a user who is not a member of a stored team,
    [get] answers with the redirect to the dashboard and the error "You
    are not a member of this team.", while [post], which never reads the
    acting user, stores a task in that team as soon as the submitted
    fields are acceptable. *)
Theorem create_task_post_skips_membership (now : Z) (user : User) (k : Z)
    (f : TaskForm) (db : DB) :
  k ≠ 0 →
  is_Some (teams db !! k) →
  (k, pk user) ∉ members db →
  is_Some (teams db !! f_team f) →
  now ≤ f_due_date f →
  other_fields_valid db k f →
  CreateTaskView_get user k db
  = (inr (Redirect "dashboard"
            [(ERROR, "You are not a member of this team.")]), db)
  ∧ CreateTaskView_post now k f db
    = (inr (Redirect "team_detail" []),
       set_tasks
         (insert (next_pk (tasks db))
            (mkTask (strip (f_title f)) (strip (f_description f))
               (f_due_date f) (f_assigned_to f) k (f_status f)
               (f_priority f) now now))
         db).
Proof.
  intros Hk0 Hk Hm Ht Hdue Hvalid. split.
  - destruct Hk as [kr Hkr]. unfold CreateTaskView_get.
    rewrite bind_query, Hkr, bind_query. unfold is_member.
    by rewrite (bool_decide_eq_false_2 _ Hm).
  - by apply CreateTaskView_post_accepts.
Qed.

Lemma create_task_post_skips_membership_witness :
  let f := mkTaskForm "Write report" "" 2000 1 "Not Started" 3 1 in
  ((1, pk Sample.peter) ∉ members Sample.db0)
  ∧ CreateTaskView_get Sample.peter 1 Sample.db0
    = (inr (Redirect "dashboard"
              [(ERROR, "You are not a member of this team.")]), Sample.db0)
  ∧ CreateTaskView_post 1000 1 f Sample.db0
    = (inr (Redirect "team_detail" []),
       set_tasks
         (insert (next_pk (tasks Sample.db0))
            (mkTask "Write report" "" 2000 1 1 "Not Started" 3 1000 1000))
         Sample.db0).
Proof.
  intros f.
  assert (Hm : (1, pk Sample.peter) ∉ members Sample.db0).
  { vm_compute. intros H. discriminate H. }
  split; [exact Hm|].
  apply (create_task_post_skips_membership 1000 Sample.peter 1 f Sample.db0).
  - lia.
  - by eexists.
  - exact Hm.
  - by eexists.
  - simpl. lia.
  - unfold other_fields_valid.
    split_and!;
      first [ by eexists
            | vm_compute; reflexivity
            | apply list_elem_of_here
            | simpl; lia
            | vm_compute; intros H; discriminate H ].
Defined.
